(** * ANC350 piezo controller support: telegram exchanges and axis polling

    A shallow embedding of the two C translation units that talk to the
    controller,

    - [devAnc350.c]       (longin / longout device support), and
    - [anc350AsynMotor.c] (the asyn motor driver and its poller),

    together with the properties of the request/reply protocol and of the
    axis status poll that are established for them.

    Conventions of the embedding.

    - A C [int] / [Int32] is a [Z]; where the code does arithmetic that can
      leave the 32-bit range the wrap-around is written out ([Int32_wrap]).
    - Telegrams are byte buffers ([list byte]); a telegram field is read
      from / written to its offset in the buffer, as the unions
      [tel.raw] / [tel.ack] do.  The host is taken to be little-endian
      (the code does no byte-order conversion).
    - The [double] fields of an axis only ever hold values computed from
      32-bit integers by subtraction, so they are exact and modelled by [Z];
      [amplitude] is kept in the unit of the integer it is computed from.
    - Everything the code calls but does not define (asyn, the EPICS OSI
      layer, libc, and the contents of uninitialised automatic variables)
      is an operation of the class [Externals]; every property is proved
      for all implementations of that class.
    - The calls made to the transport are recorded in a chronological
      [trace], so that properties about what is sent and requested can be
      stated. *)

From stdpp Require Import base numbers option list gmap strings.
From Stdlib Require Import ZArith Lia.
From Stdlib Require Import QArith Qcanon.
From Stdlib Require Import Init.Byte.

Local Open Scope Z_scope.

(** ** Machine integers and byte buffers *)

Definition Int32_wrap (z : Z) : Z := (z + 2 ^ 31) `mod` 2 ^ 32 - 2 ^ 31.

Global Instance byte_inhabited : Inhabited byte := populate "000"%byte.

Definition Z_of_byte (b : byte) : Z := Z.of_N (Byte.to_N b).

Definition byte_of_Z (z : Z) : byte :=
  default "000"%byte (Byte.of_N (Z.to_N (z `mod` 256))).

(** The four bytes of an [Int32], least significant first. *)
Definition Int32_to_bytes (z : Z) : list byte :=
  [byte_of_Z z; byte_of_Z (z ≫ 8); byte_of_Z (z ≫ 16); byte_of_Z (z ≫ 24)].

Definition Int32_of_bytes (bs : list byte) : Z :=
  match bs with
  | [b0; b1; b2; b3] =>
      Int32_wrap (Z_of_byte b0 + Z_of_byte b1 ≪ 8
                  + Z_of_byte b2 ≪ 16 + Z_of_byte b3 ≪ 24)
  | _ => 0
  end.

(** Reading and writing an [Int32] member at byte offset [off]. *)
Definition load_Int32 (off : nat) (buf : list byte) : Z :=
  Int32_of_bytes (take 4 (drop off buf)).

Definition store_Int32 (off : nat) (v : Z) (buf : list byte) : list byte :=
  list_inserts off (Int32_to_bytes v) buf.

(** [for (count = 0; count < n; count++) dst[count + off] = src[count];] *)
Definition copy_raw (n off : nat) (src dst : list byte) : list byte :=
  foldl (λ d count, <[(count + off)%nat := src !!! count]> d) dst (seq 0 n).

(** ** A state monad for the embedded code *)

Definition St (S A : Type) : Type := S → A * S.

Definition ret {S A} (a : A) : St S A := λ s, (a, s).
Definition bind {S A B} (m : St S A) (f : A → St S B) : St S B :=
  λ s, let '(a, s') := m s in f a s'.

Notation "x <~ m ;; k" := (bind m (λ x, k))
  (at level 20, m at level 99, k at level 200, only parsing).
Notation "' pat <~ m ;; k" := (bind m (λ pat, k))
  (at level 20, pat pattern, m at level 99, k at level 200, only parsing).

(** A [while] loop with an explicit iteration bound.  Every use below passes
    the bound that the loop's own counter imposes ([B - counter] for a
    condition [... && counter < B]); [while_exits] and the lemmas
    [read_prefix_spec], [read_body_spec] and [reply_loop_spec] show that the
    loop is then left because its condition is false, never because the
    bound was reached. *)
Fixpoint while {S} (bound : nat) (cond : S → bool) (body : S → S) (s : S) : S :=
  match bound with
  | O => s
  | Datatypes.S n => if cond s then while n cond body (body s) else s
  end.

(** ** ucprotocol.h *)

Module UcProtocol.

Definition UC_SET : Z := 0.
Definition UC_GET : Z := 1.
Definition UC_ACK : Z := 3.
Definition UC_TELL : Z := 4.

(** [UcTelegram]: five [Int32] members. *)
Record UcTelegram := {
  length : Z;
  opcode : Z;
  address : Z;
  index : Z;
  correlationNumber : Z
}.

Definition sizeof_Int32 : nat := 4.
Definition sizeof_UcTelegram : nat := 20.
Definition sizeof_UcGetTelegram : nat := 20.
Definition sizeof_UcSetTelegram : nat := 24.
Definition sizeof_UcAckTelegram : nat := 28.

(** Member offsets of [UcAckTelegram]. *)
Definition off_length : nat := 0.
Definition off_opcode : nat := 4.
Definition off_address : nat := 8.
Definition off_index : nat := 12.
Definition off_correlationNumber : nat := 16.
Definition off_reason : nat := 20.
Definition off_data0 : nat := 24.

Definition hdr_bytes (h : UcTelegram) : list byte :=
  Int32_to_bytes (length h) ++ Int32_to_bytes (opcode h)
  ++ Int32_to_bytes (address h) ++ Int32_to_bytes (index h)
  ++ Int32_to_bytes (correlationNumber h).

(** The object representation of a [UcGetTelegram] / [UcSetTelegram]. *)
Definition UcGetTelegram_bytes (h : UcTelegram) : list byte := hdr_bytes h.

Definition UcSetTelegram_bytes (h : UcTelegram) (data0 : Z) : list byte :=
  hdr_bytes h ++ Int32_to_bytes data0.

(** An acknowledge telegram as the controller sends it. *)
Definition UcAckTelegram_bytes (h : UcTelegram) (reason data0 : Z) : list byte :=
  hdr_bytes h ++ Int32_to_bytes reason ++ Int32_to_bytes data0.

(** [tel.ack.hdr.length], [tel.ack.hdr.correlationNumber], [tel.ack.data[0]]
    of the union overlaid on the receive buffer. *)
Definition ack_length (tel : list byte) : Z := load_Int32 off_length tel.
Definition ack_correlationNumber (tel : list byte) : Z :=
  load_Int32 off_correlationNumber tel.
Definition ack_reason (tel : list byte) : Z := load_Int32 off_reason tel.
Definition ack_data0 (tel : list byte) : Z := load_Int32 off_data0 tel.

End UcProtocol.

(** ** The external collaborators *)

(** [asynStatus] of asynDriver.h (asyn 4.10). *)
Inductive asynStatus := asynSuccess | asynTimeout | asynOverflow | asynError.

Global Instance asynStatus_eq_dec : EqDecision asynStatus.
Proof. solve_decision. Defined.

(** [epicsMutexLockStatus] of epicsMutex.h. *)
Inductive epicsMutexLockStatus :=
  epicsMutexLockOK | epicsMutexLockTimeout | epicsMutexLockError.

Global Instance epicsMutexLockStatus_eq_dec : EqDecision epicsMutexLockStatus.
Proof. solve_decision. Defined.

(** The mutexes the code locks. *)
Inductive mutexId :=
  | midMutexId
  | axisMutex (card axis : Z).

(** An [asynUser] is identified by a number. *)
Definition asynUser : Type := Z.

(** What the code asks of its environment.  [W] is the state of everything
    outside the two translation units.

    - [epicsMutexLock m] gives the status of locking [m];
    - [octet_flush], [octet_write], [octet_read] are the methods of the
      [asynOctet] interface used by devAnc350.c: a write gives its status
      and [nbytesTransfered], a read (of at most [maxBytes] bytes) gives its
      status and the bytes received;
    - [syncio_write], [syncio_writeRead] are the methods of
      [pasynOctetSyncIO] used by anc350AsynMotor.c;
    - [sscanf_x s] is [sscanf(s, "%x", &cmd)]: the number converted, if any;
    - [indeterminate n] is the content of [n] bytes of an automatic
      variable that has not been initialised. *)
Class Externals (W : Type) := {
  epicsMutexLock : mutexId → W → epicsMutexLockStatus * W;
  octet_flush : asynUser → W → asynStatus * W;
  octet_write : asynUser → list byte → W → (asynStatus * nat) * W;
  octet_read : asynUser → nat → W → (asynStatus * list byte) * W;
  syncio_write : asynUser → list byte → W → (asynStatus * nat) * W;
  syncio_writeRead :
    asynUser → list byte → nat → W → (asynStatus * nat * list byte) * W;
  sscanf_x : string → option Z;
  indeterminate : nat → W → list byte * W
}.

(** The calls made to the transport, in the order they are made. *)
Inductive io_event :=
  | EvFlush (u : asynUser)
  | EvWrite (u : asynUser) (msg : list byte)
  | EvRead (u : asynUser) (maxBytes : nat)
  | EvSyncWrite (u : asynUser) (msg : list byte)
  | EvWriteRead (u : asynUser) (msg : list byte) (maxBytes : nat).

Record world (W : Type) := World { ext : W; trace : list io_event }.
Arguments World {W} _ _.
Arguments ext {W} _.
Arguments trace {W} _.

Section Calls.
Context {W : Type} `{!Externals W}.

Definition lock (m : mutexId) : St (world W) epicsMutexLockStatus :=
  λ w, let '(r, e) := epicsMutexLock m (ext w) in (r, World e (trace w)).

(** A buffer of [n] bytes with indeterminate content. *)
Definition alloca (n : nat) : St (world W) (list byte) :=
  λ w, let '(bs, e) := indeterminate n (ext w) in
       (take n (bs ++ replicate n "000"%byte), World e (trace w)).

Definition call_flush (u : asynUser) : St (world W) asynStatus :=
  λ w, let '(r, e) := octet_flush u (ext w) in
       (r, World e (trace w ++ [EvFlush u])).

Definition call_write (u : asynUser) (msg : list byte)
  : St (world W) (asynStatus * nat) :=
  λ w, let '(r, e) := octet_write u msg (ext w) in
       (r, World e (trace w ++ [EvWrite u msg])).

(** The transport stores at most [maxBytes] bytes. *)
Definition call_read (u : asynUser) (maxBytes : nat)
  : St (world W) (asynStatus * list byte) :=
  λ w, let '((st, bs), e) := octet_read u maxBytes (ext w) in
       ((st, take maxBytes bs), World e (trace w ++ [EvRead u maxBytes])).

Definition call_syncio_write (u : asynUser) (msg : list byte)
  : St (world W) (asynStatus * nat) :=
  λ w, let '(r, e) := syncio_write u msg (ext w) in
       (r, World e (trace w ++ [EvSyncWrite u msg])).

Definition call_syncio_writeRead (u : asynUser) (msg : list byte) (maxBytes : nat)
  : St (world W) (asynStatus * list byte) :=
  λ w, let '((st, _, bs), e) := syncio_writeRead u msg maxBytes (ext w) in
       ((st, take maxBytes bs),
        World e (trace w ++ [EvWriteRead u msg maxBytes])).
End Calls.

(** Observations on a trace: the number of requests transmitted, and the
    sizes asked of the [asynOctet] reads, in order. *)
Definition is_transmission (e : io_event) : bool :=
  match e with
  | EvWrite _ _ | EvSyncWrite _ _ | EvWriteRead _ _ _ => true
  | _ => false
  end.

Definition transmissions (evs : list io_event) : nat :=
  List.length (List.filter is_transmission evs).

Definition read_requests (evs : list io_event) : list nat :=
  omap (λ e, match e with EvRead _ n => Some n | _ => None end) evs.

(** The requests transmitted, in order, and the [Int32] words of a
    message. *)
Definition sent_requests (evs : list io_event) : list (list byte) :=
  omap (λ e, match e with
             | EvWrite _ m | EvSyncWrite _ m | EvWriteRead _ m _ => Some m
             | _ => None
             end) evs.

Fixpoint words (msg : list byte) : list Z :=
  match msg with
  | b0 :: b1 :: b2 :: b3 :: rest => Int32_of_bytes [b0; b1; b2; b3] :: words rest
  | _ => []
  end.

(** The opcode and the address of a request, and the data word of a set
    request ([request.data[0]], which follows the header). *)
Definition request_kind (msg : list byte) : Z * Z :=
  (load_Int32 UcProtocol.off_opcode msg, load_Int32 UcProtocol.off_address msg).

Definition request_data0 (msg : list byte) : Z :=
  load_Int32 UcProtocol.sizeof_UcTelegram msg.

(** The acknowledge telegram with which the controller answers the request
    [msg] when the object addressed holds [data0]: it repeats the address,
    the index and the correlation number of the request. *)
Definition reply_to (msg : list byte) (data0 : Z) : list byte :=
  UcProtocol.UcAckTelegram_bytes
    {| UcProtocol.length := 24;
       UcProtocol.opcode := UcProtocol.UC_ACK;
       UcProtocol.address := load_Int32 UcProtocol.off_address msg;
       UcProtocol.index := load_Int32 UcProtocol.off_index msg;
       UcProtocol.correlationNumber :=
         load_Int32 UcProtocol.off_correlationNumber msg |}
    0 data0.

(** An environment in which every [writeRead] is answered by the
    controller, whose objects hold [regs]. *)
Definition answers {W : Type} `{!Externals W} (regs : Z → Z) : Prop :=
  ∀ (u : asynUser) (msg : list byte) (w : W),
    ∃ (n : nat) (e : W),
      syncio_writeRead u msg 28 w
      = ((asynSuccess, n,
          reply_to msg (regs (load_Int32 UcProtocol.off_address msg))), e).

(** An environment in which every mutex can be taken. *)
Definition locks_granted {W : Type} `{!Externals W} : Prop :=
  ∀ (m : mutexId) (w : W), (epicsMutexLock m w).1 = epicsMutexLockOK.

(** ** The message identifier shared by all exchanges of a translation unit

    Both files contain, four times over, the block
<<
  if (epicsMutexLock(midMutexId) == epicsMutexLockOK) {
    mid++;
    if (mid > 10000){ mid = 1; }
    localMid = mid;
  } else { ... log ... }
>>
    with [localMid] initialised to 1.  [mid_increment lk mid] gives
    [(localMid, mid)] after the block. *)
Definition mid_increment (lk : epicsMutexLockStatus) (mid : Z) : Z * Z :=
  if decide (lk = epicsMutexLockOK) then
    let mid := Int32_wrap (mid + 1) in
    let mid := if decide (mid > 10000) then 1 else mid in
    (mid, mid)
  else (1, mid).

(** The identifiers handed out by consecutive executions of the [mid]
    block, given the outcome of each lock, and the final [mid]. *)
Fixpoint mid_calls (lks : list epicsMutexLockStatus) (mid : Z) : list Z * Z :=
  match lks with
  | [] => ([], mid)
  | lk :: lks =>
      let '(localMid, mid) := mid_increment lk mid in
      let '(ids, mid) := mid_calls lks mid in
      (localMid :: ids, mid)
  end.

(** ** devAnc350.c *)

Module DevAnc350.

(** alarm.h *)
Definition READ_ALARM : Z := 1.
Definition WRITE_ALARM : Z := 2.
Definition MINOR_ALARM : Z := 1.
Definition INVALID_ALARM : Z := 3.

(** [MAX_STRING_SIZE] of EPICS base. *)
Definition MAX_STRING_SIZE : nat := 40.

(** The members of [dbCommon] the code touches, and the two record types. *)
Record dbCommon := DbCommon { udf : Z; nsta : Z; nsev : Z }.
Record longinRecord := LonginRecord { li_common : dbCommon; li_val : Z }.
Record longoutRecord := LongoutRecord { lo_common : dbCommon; lo_val : Z }.

(** [recGblSetSevr]: raise the pending alarm if the new severity is higher. *)
Definition recGblSetSevr (prec : dbCommon) (new_stat new_sevr : Z) : dbCommon :=
  if decide (nsev prec < new_sevr)
  then DbCommon (udf prec) new_stat new_sevr
  else prec.

Definition set_udf (v : Z) (prec : dbCommon) : dbCommon :=
  DbCommon v (nsta prec) (nsev prec).

(** [devPvt]: the link parameter string (or NULL), the link address and
    the asynUser of the record. *)
Record devPvt := DevPvt {
  userParam : option string;
  addr : Z;
  pasynUser : asynUser
}.

(** The automatic variables of [callbackLiRead] / [callbackLoWrite] that
    live across the reply loop. *)
Record locals := Locals {
  status : asynStatus;
  nBytesRead : nat;
  raw : list byte;
  retries : Z;
  matched : Z;          (* [match] *)
  msgretries : Z;
  tel : list byte
}.

Section Code.
Context {W : Type} `{!Externals W}.

(** [writeIt]: write [nbytes] bytes of [message]; a failed or short
    write raises a write alarm on the record. *)
Definition writeIt (u : asynUser) (precord : dbCommon)
    (message : list byte) (nbytes : nat)
  : St (world W) (asynStatus * dbCommon) :=
  '(status, nbytesTransfered) <~ call_write u (take nbytes message) ;;
  if decide (status ≠ asynSuccess) then
    ret (status, recGblSetSevr precord WRITE_ALARM INVALID_ALARM)
  else if decide (nbytes ≠ nbytesTransfered) then
    ret (asynError, recGblSetSevr precord WRITE_ALARM MINOR_ALARM)
  else ret (status, precord).

(** [readIt]: read at most [maxBytes] bytes into [message]; gives the
    status, the buffer and [*nBytesRead]. *)
Definition readIt (u : asynUser) (message : list byte) (maxBytes : nat)
  : St (world W) (asynStatus * list byte * nat) :=
  '(status, bs) <~ call_read u maxBytes ;;
  ret (status, bs ++ drop (List.length bs) message, List.length bs).

Definition flushIt (u : asynUser) : St (world W) asynStatus :=
  call_flush u.

(** [status = readIt(pasynUser,raw,maxBytes,&nBytesRead); retries++;] *)
Definition read_step (u : asynUser) (maxBytes : locals → nat)
    (s : locals * world W) : locals * world W :=
  let '(l, w) := s in
  let '((st, raw', n), w') := readIt u (raw l) (maxBytes l) w in
  (Locals st n raw' (retries l + 1) (matched l) (msgretries l) (tel l), w').

(** [while(nBytesRead == 0 && retries < 1){ ... sizeof(Int32) ... }] *)
Definition prefix_cond (s : locals * world W) : bool :=
  bool_decide (nBytesRead s.1 = 0%nat) && bool_decide (retries s.1 < 1).

Definition read_prefix (u : asynUser) (s : locals * world W)
  : locals * world W :=
  while (Z.to_nat (1 - retries s.1)) prefix_cond
        (read_step u (λ _, UcProtocol.sizeof_Int32)) s.

(** [while(nBytesRead != tel.ack.hdr.length && retries < bound){ ... }] *)
Definition body_cond (bound : Z) (s : locals * world W) : bool :=
  bool_decide (Z.of_nat (nBytesRead s.1) ≠ UcProtocol.ack_length (tel s.1))
  && bool_decide (retries s.1 < bound).

Definition read_body (u : asynUser) (bound : Z) (s : locals * world W)
  : locals * world W :=
  while (Z.to_nat (bound - retries s.1)) (body_cond bound)
        (read_step u (λ l, Z.to_nat (UcProtocol.ack_length (tel l)))) s.

(** The statements between the two read loops: overlay the length
    prefix, reset the counters and put the length to 24. *)
Definition begin_body (l : locals) : locals :=
  let tel1 := copy_raw (nBytesRead l) 0 (raw l) (tel l) in
  let tel2 :=
    if decide (UcProtocol.ack_length tel1 ≠ 24)
    then store_Int32 UcProtocol.off_length 24 tel1 else tel1 in
  Locals (status l) 0 (raw l) 0 (matched l) (msgretries l) tel2.

(** [for(count...) tel.raw[(count+4)] = raw[count];] after the body loop. *)
Definition end_body (l : locals) : locals :=
  if decide (status l = asynSuccess) then
    Locals (status l) (nBytesRead l) (raw l) (retries l) (matched l)
           (msgretries l) (copy_raw (nBytesRead l) 4 (raw l) (tel l))
  else l.

(** One pass of [while(match == 0 && msgretries < 1){ ... }].  The block
    is the same in both callbacks up to the bound of the body loop
    ([body_retries]: 3 when reading, 1 when writing) and the statements
    run on a match ([on_match], applied to the reply buffer). *)
Definition reply_pass {R} (u : asynUser) (localMid : Z) (body_retries : Z)
    (on_match : list byte → R → R) (s : locals * R * world W)
  : locals * R * world W :=
  let '(l, r, w) := s in
  let '(l, w) := read_prefix u (l, w) in
  let '(l, w) :=
    if decide (status l = asynSuccess) then
      let '(l, w) := read_body u body_retries (begin_body l, w) in
      (end_body l, w)
    else (l, w) in
  if decide (UcProtocol.ack_correlationNumber (tel l) = localMid
             ∧ status l = asynSuccess)
  then (Locals (status l) (nBytesRead l) (raw l) (retries l) 1
               (msgretries l) (tel l), on_match (tel l) r, w)
  else (Locals (status l) (nBytesRead l) (raw l) (retries l) (matched l)
               (msgretries l + 1) (tel l), r, w).

Definition reply_cond {R} (s : locals * R * world W) : bool :=
  bool_decide (matched s.1.1 = 0) && bool_decide (msgretries s.1.1 < 1).

Definition reply_loop {R} (u : asynUser) (localMid : Z) (body_retries : Z)
    (on_match : list byte → R → R) (s : locals * R * world W)
  : locals * R * world W :=
  while (Z.to_nat (1 - msgretries s.1.1)) reply_cond
        (reply_pass u localMid body_retries on_match) s.

(** What a callback leaves behind: the record, the message identifier
    it used, and its automatic variables ([None] when it returned before
    they were used). *)
Record outcome (R : Type) := Outcome {
  rec : R;
  localMid : Z;
  frame : option locals
}.
Global Arguments Outcome {R} _ _ _.
Global Arguments rec {R} _.
Global Arguments localMid {R} _.
Global Arguments frame {R} _.

(** [pli->udf = 0; pli->val = (epicsInt32)tel.ack.data[0];] *)
Definition li_store (tel : list byte) (pli : longinRecord) : longinRecord :=
  LonginRecord (set_udf 0 (li_common pli)) (UcProtocol.ack_data0 tel).

(** [callbackLiRead], given the file-scope [mid]; gives the new [mid]
    and the outcome.  ([finish] only requests the record's process
    callback and is not modelled.) *)
Definition callbackLiRead (pdevPvt : devPvt) (pli : longinRecord) (mid : Z)
  : St (world W) (Z * outcome longinRecord) :=
  let u := pasynUser pdevPvt in
  raw0 <~ alloca MAX_STRING_SIZE ;;
  tel0 <~ alloca UcProtocol.sizeof_UcAckTelegram ;;
  cmd0 <~ alloca 4 ;;
  lk <~ lock midMutexId ;;
  let '(localMid, mid) := mid_increment lk mid in
  match userParam pdevPvt with
  | None =>
      let c := recGblSetSevr (li_common pli) READ_ALARM INVALID_ALARM in
      ret (mid, Outcome (LonginRecord c (li_val pli)) localMid None)
  | Some param =>
      let cmd := default (Int32_of_bytes cmd0) (sscanf_x param) in
      let request :=
        UcProtocol.UcGetTelegram_bytes
          {| UcProtocol.length :=
               Z.of_nat UcProtocol.sizeof_UcGetTelegram
               - Z.of_nat UcProtocol.sizeof_Int32;
             UcProtocol.opcode := UcProtocol.UC_GET;
             UcProtocol.address := cmd;
             UcProtocol.index := addr pdevPvt;
             UcProtocol.correlationNumber := localMid |} in
      _ <~ flushIt u ;;
      '(status, c) <~ writeIt u (li_common pli) request
                              UcProtocol.sizeof_UcGetTelegram ;;
      let pli := LonginRecord c (li_val pli) in
      let l := Locals status 0 raw0 0 0 0 tel0 in
      if decide (status = asynSuccess) then
        λ w, let '(l, pli, w) := reply_loop u localMid 3 li_store (l, pli, w) in
             ((mid, Outcome pli localMid (Some l)), w)
      else ret (mid, Outcome pli localMid (Some l))
  end.

(** [plo->udf = 0;] *)
Definition lo_store (tel : list byte) (plo : longoutRecord) : longoutRecord :=
  LongoutRecord (set_udf 0 (lo_common plo)) (lo_val plo).

(** [callbackLoWrite]. *)
Definition callbackLoWrite (pdevPvt : devPvt) (plo : longoutRecord) (mid : Z)
  : St (world W) (Z * outcome longoutRecord) :=
  let u := pasynUser pdevPvt in
  raw0 <~ alloca MAX_STRING_SIZE ;;
  tel0 <~ alloca UcProtocol.sizeof_UcAckTelegram ;;
  lk <~ lock midMutexId ;;
  let '(localMid, mid) := mid_increment lk mid in
  match userParam pdevPvt with
  | None =>
      let c := recGblSetSevr (lo_common plo) READ_ALARM INVALID_ALARM in
      ret (mid, Outcome (LongoutRecord c (lo_val plo)) localMid None)
  | Some param =>
      let cmd := default 0 (sscanf_x param) in
      let request :=
        UcProtocol.UcSetTelegram_bytes
          {| UcProtocol.length :=
               Z.of_nat UcProtocol.sizeof_UcSetTelegram
               - Z.of_nat UcProtocol.sizeof_Int32;
             UcProtocol.opcode := UcProtocol.UC_SET;
             UcProtocol.address := cmd;
             UcProtocol.index := addr pdevPvt;
             UcProtocol.correlationNumber := localMid |}
          (lo_val plo) in
      _ <~ flushIt u ;;
      '(status, c) <~ writeIt u (lo_common plo) request
                              UcProtocol.sizeof_UcSetTelegram ;;
      let plo := LongoutRecord c (lo_val plo) in
      let l := Locals status 0 raw0 0 0 0 tel0 in
      if decide (status = asynSuccess) then
        λ w, let '(l, plo, w) := reply_loop u localMid 1 lo_store (l, plo, w) in
             ((mid, Outcome plo localMid (Some l)), w)
      else ret (mid, Outcome plo localMid (Some l))
  end.
End Code.

(** *** Parsing the record link *)

(** [INST_IO] of link.h. *)
Definition INST_IO : Z := 12.

(** [isspace] in the C locale. *)
Definition isspace (c : Ascii.ascii) : bool :=
  let n := Ascii.nat_of_ascii c in
  Nat.eqb n 32 || (Nat.leb 9 n && Nat.leb n 13).

Definition is_comma (c : Ascii.ascii) : bool :=
  Nat.eqb (Ascii.nat_of_ascii c) 44.

(** [skipWhite]. *)
Fixpoint skipWhite (pstart : string) (commaOk : Z) : string :=
  match pstart with
  | String c rest =>
      if isspace c || (bool_decide (commaOk ≠ 0) && is_comma c)
      then skipWhite rest commaOk else pstart
  | EmptyString => pstart
  end.

(** The loop [for (len = 0; ...; len++, p++){}] that passes over the
    characters up to the first white space, comma or end of string: the
    [len] characters passed over, and the string at [p] afterwards. *)
Fixpoint scan_token (p : string) : string * string :=
  match p with
  | String c rest =>
      if isspace c || is_comma c then (EmptyString, p)
      else let '(tok, p') := scan_token rest in (String c tok, p')
  | EmptyString => (EmptyString, EmptyString)
  end.

(** [strchr]: the string from the first occurrence of [c] on. *)
Fixpoint strchr (p : string) (c : Ascii.ascii) : option string :=
  match p with
  | String c' rest => if decide (c' = c) then Some p else strchr rest c
  | EmptyString => None
  end.

Definition letter_S : Ascii.ascii := Ascii.ascii_of_nat 83.

(** Strings without a character that ends a token, and without the letter
    S (used to describe links). *)
Fixpoint no_separator (p : string) : bool :=
  match p with
  | String c rest => negb (isspace c || is_comma c) && no_separator rest
  | EmptyString => true
  end.

Fixpoint no_S (p : string) : bool :=
  match p with
  | String c rest => negb (bool_decide (c = letter_S)) && no_S rest
  | EmptyString => true
  end.

Section Link.
(** [sscanf(pnext, "%d", addr)]: the number converted, if any. *)
Variable sscanf_d : string → option Z.

(** [parseLink], given the type and the string of the link (a C string: no
    character of it is NUL): gives the status, the port, the address and the
    user parameter it stores.  When no letter S follows the port name, the
    source increments and dereferences the NULL pointer that [strchr]
    returned: [None]. *)
Definition parseLink (link_type : Z) (link : string)
  : option (asynStatus * option string * Z * option string) :=
  if decide (link_type = INST_IO) then
    let '(port, p) := scan_token link in
    if decide (p = EmptyString) then Some (asynError, None, 0, None)
    else
      match strchr p letter_S with
      | None => None
      | Some at_S =>
          let pnext := match at_S with String _ r => r | EmptyString => at_S end in
          let '(_, p) := scan_token pnext in
          if decide (p = EmptyString) then Some (asynError, Some port, 0, None)
          else
            let addr := default 0 (sscanf_d pnext) in
            let p := match p with String _ r => r | EmptyString => p end in
            let userParam :=
              if decide (p = EmptyString) then None
              else
                let p := skipWhite p 0 in
                if decide (p = EmptyString) then None else Some p in
            Some (asynSuccess, Some port, addr, userParam)
      end
  else Some (asynError, None, 0, None).
End Link.

End DevAnc350.

(** ** anc350AsynMotor.c *)

Module Anc350AsynMotor.

(** motor_interface.h *)
Definition MOTOR_AXIS_OK : Z := 0.
Definition MOTOR_AXIS_ERROR : Z := -1.

(** The value of [asynSuccess] when an [int] is compared with it. *)
Definition asynSuccess_int : Z := 0.

(** anc350.h *)
Definition ID_ANC_AMPL : Z := 0x0400.
Definition ID_ANC_STATUS : Z := 0x0404.
Definition ID_ANC_REFCOUNTER : Z := 0x0407.
Definition ID_ANC_SGL_FWD : Z := 0x0410.
Definition ID_ANC_COUNTER : Z := 0x0415.
Definition ANC_STATUS_RUNNING : Z := 0x0001.
Definition ANC_STATUS_HUMP : Z := 0x0002.
Definition ANC_STATUS_REF_VALID : Z := 0x0800.

(** The parameters of the motor parameter library that the code sets. *)
Inductive motorAxisParam_t :=
  | motorAxisPosition
  | motorAxisEncoderPosn
  | motorAxisDirection
  | motorAxisDone
  | motorAxisHighHardLimit
  | motorAxisHomeSignal
  | motorAxisLowHardLimit
  | motorAxisHomed
  | motorAxisProblem
  | motorAxisCommError
  | motorAxisHasEncoder.

Global Instance motorAxisParam_eq_dec : EqDecision motorAxisParam_t.
Proof. solve_decision. Defined.

Definition param_code (p : motorAxisParam_t) : nat :=
  match p with
  | motorAxisPosition => 0 | motorAxisEncoderPosn => 1
  | motorAxisDirection => 2 | motorAxisDone => 3
  | motorAxisHighHardLimit => 4 | motorAxisHomeSignal => 5
  | motorAxisLowHardLimit => 6 | motorAxisHomed => 7
  | motorAxisProblem => 8 | motorAxisCommError => 9
  | motorAxisHasEncoder => 10
  end%nat.

Definition param_of_code (n : nat) : motorAxisParam_t :=
  match n with
  | 0 => motorAxisPosition | 1 => motorAxisEncoderPosn
  | 2 => motorAxisDirection | 3 => motorAxisDone
  | 4 => motorAxisHighHardLimit | 5 => motorAxisHomeSignal
  | 6 => motorAxisLowHardLimit | 7 => motorAxisHomed
  | 8 => motorAxisProblem | 9 => motorAxisCommError
  | _ => motorAxisHasEncoder
  end%nat.

Global Instance motorAxisParam_countable : Countable motorAxisParam_t.
Proof.
  refine (inj_countable' param_code param_of_code _).
  intros []; reflexivity.
Defined.

(** [PARAMS]: the parameter table of an axis; a parameter that was never
    set has no entry.  [setInteger] and [setDouble] store the value (the
    doubles stored here are integral). *)
Abbreviation PARAMS := (gmap motorAxisParam_t Z).

Definition setInteger (p : PARAMS) (f : motorAxisParam_t) (v : Z) : PARAMS :=
  <[f := v]> p.
Definition setDouble (p : PARAMS) (f : motorAxisParam_t) (v : Z) : PARAMS :=
  <[f := v]> p.

(** [motorAxis] (struct motorAxisHandle).  [pDrv] is followed only to read
    the card number and the asynUser of the driver, which do not change
    once the driver is created; they are kept with the axis.
    [amplitude] holds [(double)value / 1000.0]: it is modelled by
    [value], in thousandths. *)
Record motorAxis := MotorAxis {
  pDrv_card : Z;
  pDrv_pasynUser : asynUser;
  axis : Z;
  pasynUser : asynUser;
  params : PARAMS;
  previous_position : Z;
  previous_direction : Z;
  reference_position : Z;
  reference_search : Z;
  amplitude : Z
}.

Definition with_params (a : motorAxis) (p : PARAMS) : motorAxis :=
  MotorAxis (pDrv_card a) (pDrv_pasynUser a) (axis a) (pasynUser a) p
            (previous_position a) (previous_direction a)
            (reference_position a) (reference_search a) (amplitude a).
Definition with_previous (a : motorAxis) (pos dir : Z) : motorAxis :=
  MotorAxis (pDrv_card a) (pDrv_pasynUser a) (axis a) (pasynUser a) (params a)
            pos dir (reference_position a) (reference_search a) (amplitude a).
Definition with_reference_position (a : motorAxis) (r : Z) : motorAxis :=
  MotorAxis (pDrv_card a) (pDrv_pasynUser a) (axis a) (pasynUser a) (params a)
            (previous_position a) (previous_direction a)
            r (reference_search a) (amplitude a).
Definition with_reference_search (a : motorAxis) (r : Z) : motorAxis :=
  MotorAxis (pDrv_card a) (pDrv_pasynUser a) (axis a) (pasynUser a) (params a)
            (previous_position a) (previous_direction a)
            (reference_position a) r (amplitude a).
Definition with_amplitude (a : motorAxis) (v : Z) : motorAxis :=
  MotorAxis (pDrv_card a) (pDrv_pasynUser a) (axis a) (pasynUser a) (params a)
            (previous_position a) (previous_direction a)
            (reference_position a) (reference_search a) v.

Definition set_param (a : motorAxis) (f : motorAxisParam_t) (v : Z) : motorAxis :=
  with_params a (setInteger (params a) f v).

(** [keeps fs a a']: from [a] to [a'] the cached position, direction and
    reference position are unchanged, and so is every parameter that is
    not in [fs]. *)
Definition keeps (fs : list motorAxisParam_t) (a a' : motorAxis) : Prop :=
  previous_position a' = previous_position a
  ∧ previous_direction a' = previous_direction a
  ∧ reference_position a' = reference_position a
  ∧ ∀ f, f ∉ fs → params a' !! f = params a !! f.

(** The comm-error condition of an axis as the motor record sees it. *)
Definition comm_error (a : motorAxis) : bool :=
  bool_decide (params a !! motorAxisCommError = Some 1).

(** The file-scope variables [mid] and [comms], and the environment. *)
Record state (W : Type) := State { mid : Z; comms : Z; io : world W }.
Global Arguments State {W} _ _ _.
Global Arguments mid {W} _.
Global Arguments comms {W} _.
Global Arguments io {W} _.

(** What [motorAxisGet] leaves behind besides its return value: [*value],
    the axis, and its automatic variables [localMid], [match] and [tel],
    with the status that [writeRead] returned. *)
Record get_result := GetResult {
  ret_status : Z;
  value_out : Z;
  axis_out : motorAxis;
  localMid : Z;
  io_status : asynStatus;
  matched : Z;
  tel : list byte
}.

(** The automatic variables of one [drvAnc350GetAxisStatus]: the status of
    each of the four [motorAxisGet], the position computed (if the counter
    was read), the content of [value] at the end, the reference position
    subtracted, [direction] and [hump]. *)
Record poll := Poll {
  humpstatus : Z;
  ampl_status : Z;
  ref_status : Z;
  pos_status : Z;
  value : Z;
  position : option Z;
  reference_used : Z;
  direction : Z;
  hump : Z
}.

Section Code.
Context {W : Type} `{!Externals W}.

Definition liftW {A} (m : St (world W) A) : St (state W) A :=
  λ s, let '(a, w) := m (io s) in (a, State (mid s) (comms s) w).

(** The [mid] block (see [mid_increment]). *)
Definition next_localMid : St (state W) Z :=
  lk <~ liftW (lock midMutexId) ;;
  λ s, let '(localMid, m) := mid_increment lk (mid s) in
       (localMid, State m (comms s) (io s)).

(** [motorAxisSet].  (The assignment [request.data[1] = 1] lies outside
    the [sizeof(UcSetTelegram)] bytes that are written.) *)
Definition motorAxisSet (pAxis : motorAxis) (location value logGlobal : Z)
  : St (state W) Z :=
  let u := if decide (logGlobal ≠ 0)
           then pDrv_pasynUser pAxis else pasynUser pAxis in
  localMid <~ next_localMid ;;
  let request :=
    UcProtocol.UcSetTelegram_bytes
      {| UcProtocol.length :=
           Z.of_nat UcProtocol.sizeof_UcSetTelegram
           - Z.of_nat UcProtocol.sizeof_Int32;
         UcProtocol.opcode := UcProtocol.UC_SET;
         UcProtocol.address := location;
         UcProtocol.index := Int32_wrap (axis pAxis - 1);
         UcProtocol.correlationNumber := localMid |}
      value in
  '(status, nBytesWritten) <~
     liftW (call_syncio_write u (take UcProtocol.sizeof_UcSetTelegram request)) ;;
  if decide (status ≠ asynSuccess) then ret MOTOR_AXIS_ERROR
  else ret MOTOR_AXIS_OK.

(** The end of [motorAxisGet]: the consecutive-failure count and the
    comm-error parameter. *)
Definition record_comms (pAxis : motorAxis) (status : asynStatus)
  : St (state W) (Z * motorAxis) :=
  λ s,
    if decide (status ≠ asynSuccess) then
      let c := Int32_wrap (comms s + 1) in
      let pAxis :=
        if decide (c > 200) then set_param pAxis motorAxisCommError 1
        else pAxis in
      ((MOTOR_AXIS_ERROR, pAxis), State (mid s) c (io s))
    else
      ((MOTOR_AXIS_OK, set_param pAxis motorAxisCommError 0),
       State (mid s) 0 (io s)).

(** [motorAxisGet]; [value] is the content of [*value] at the call. *)
Definition motorAxisGet (pAxis : motorAxis) (location value logGlobal : Z)
  : St (state W) get_result :=
  let u := if decide (logGlobal ≠ 0)
           then pDrv_pasynUser pAxis else pasynUser pAxis in
  raw0 <~ liftW (alloca 512) ;;
  tel0 <~ liftW (alloca UcProtocol.sizeof_UcAckTelegram) ;;
  localMid <~ next_localMid ;;
  let request :=
    UcProtocol.UcGetTelegram_bytes
      {| UcProtocol.length :=
           Z.of_nat UcProtocol.sizeof_UcGetTelegram
           - Z.of_nat UcProtocol.sizeof_Int32;
         UcProtocol.opcode := UcProtocol.UC_GET;
         UcProtocol.address := location;
         UcProtocol.index := Int32_wrap (axis pAxis - 1);
         UcProtocol.correlationNumber := localMid |} in
  '(status0, bs) <~
     liftW (call_syncio_writeRead u
              (take UcProtocol.sizeof_UcGetTelegram request) 28) ;;
  let raw := bs ++ drop (List.length bs) raw0 in
  let nBytesRead := List.length bs in
  let '(status, matched, value, tel) :=
    if decide (status0 = asynSuccess) then
      let tel := copy_raw nBytesRead 0 raw tel0 in
      if decide (UcProtocol.ack_correlationNumber tel = localMid)
      then (status0, 1, UcProtocol.ack_data0 tel, tel)
      else (asynError, 0, value, tel)
    else (status0, 0, value, tel0) in
  '(r, pAxis) <~ record_comms pAxis status ;;
  ret (GetResult r value pAxis localMid status0 matched tel).

(** The status block of [drvAnc350GetAxisStatus], run when the status
    word was read: gives the axis and [hump]. *)
Definition decode_status (pAxis : motorAxis) (value : Z)
  : St (state W) (motorAxis * Z) :=
  let done := Z.land value ANC_STATUS_RUNNING in
  let pAxis :=
    if decide (done = 0) then set_param pAxis motorAxisDone 1
    else set_param pAxis motorAxisDone 0 in
  let referenced := Z.land value ANC_STATUS_REF_VALID ≫ 11 in
  pAxis <~
    (if decide (referenced = 0) then
       ret (set_param (set_param pAxis motorAxisHomed referenced)
                      motorAxisHomeSignal referenced)
     else if decide (reference_search pAxis = 1) then
       let pAxis := with_reference_search pAxis 0 in
       _ <~ motorAxisSet pAxis ID_ANC_SGL_FWD 1 0 ;;
       ret (set_param
              (set_param (set_param pAxis motorAxisDone 1)
                         motorAxisHomed referenced)
              motorAxisHomeSignal referenced)
     else ret pAxis) ;;
  ret (pAxis, Z.land value ANC_STATUS_HUMP ≫ 1).

(** The position block, run when the counter was read: gives the axis,
    [position] and [direction].  ([previous_direction] only ever holds 0 or
    1, on which its conversion to [int] is the identity.) *)
Definition update_position (pAxis : motorAxis) (value reference_position : Z)
  : motorAxis * Z * Z :=
  let position := value - reference_position in
  let pAxis := with_reference_position pAxis reference_position in
  let direction :=
    if decide (position - previous_position pAxis > 500) then 1
    else if decide (position - previous_position pAxis < -500) then 0
    else previous_direction pAxis in
  let pAxis := set_param pAxis motorAxisDirection direction in
  let pAxis := with_previous pAxis position direction in
  let pAxis :=
    with_params pAxis (setDouble (params pAxis) motorAxisPosition position) in
  let pAxis :=
    with_params pAxis (setDouble (params pAxis) motorAxisEncoderPosn position) in
  (pAxis, position, direction).

(** The hard-limit block. *)
Definition update_limits (pAxis : motorAxis) (hump humpstatus direction : Z)
  : motorAxis :=
  if decide (hump ≠ 0 ∧ humpstatus = asynSuccess_int) then
    if decide (direction = 1) then
      set_param (set_param pAxis motorAxisHighHardLimit 1)
                motorAxisLowHardLimit 0
    else
      set_param (set_param pAxis motorAxisHighHardLimit 0)
                motorAxisLowHardLimit 1
  else
    set_param (set_param pAxis motorAxisHighHardLimit 0)
              motorAxisLowHardLimit 0.

(** [drvAnc350GetAxisStatus]: gives the axis after the poll and, when the
    axis mutex was taken, the automatic variables of the poll.
    ([callCallback] hands the parameters to the motor record and is not
    modelled.) *)
Definition drvAnc350GetAxisStatus (pAxis : motorAxis) (globalStatus : Z)
  : St (state W) (motorAxis * option poll) :=
  lk <~ liftW (lock (axisMutex (pDrv_card pAxis) (axis pAxis))) ;;
  if decide (lk = epicsMutexLockOK) then
    value0 <~ liftW (alloca 4) ;;
    let value := Int32_of_bytes value0 in
    g <~ motorAxisGet pAxis ID_ANC_STATUS value 0 ;;
    let humpstatus := ret_status g in
    '(pAxis, hump) <~
      (if decide (ret_status g = asynSuccess_int)
       then decode_status (axis_out g) (value_out g)
       else ret (axis_out g, 0)) ;;
    ga <~ motorAxisGet pAxis ID_ANC_AMPL (value_out g) 0 ;;
    let pAxis := with_amplitude (axis_out ga) (value_out ga) in
    gr <~ motorAxisGet pAxis ID_ANC_REFCOUNTER (value_out ga) 0 ;;
    let pAxis := axis_out gr in
    let reference_position :=
      if decide (ret_status gr = asynSuccess_int) then value_out gr
      else reference_position pAxis in
    gp <~ motorAxisGet pAxis ID_ANC_COUNTER (value_out gr) 0 ;;
    let '(pAxis, position, direction) :=
      if decide (ret_status gp = asynSuccess_int) then
        let '(a, p, d) :=
          update_position (axis_out gp) (value_out gp) reference_position in
        (a, Some p, d)
      else (axis_out gp, None, 0) in
    let pAxis := update_limits pAxis hump humpstatus direction in
    let pAxis := set_param pAxis motorAxisProblem globalStatus in
    ret (pAxis,
         Some (Poll humpstatus (ret_status ga) (ret_status gr) (ret_status gp)
                    (value_out gp) position reference_position direction
                    hump))
  else ret (pAxis, None).

(** Consecutive [motorAxisGet] on one axis, one per location of [locs]:
    gives the return values in order, [*value] and the axis. *)
Fixpoint motorAxisGet_seq (pAxis : motorAxis) (locs : list Z) (value : Z)
  : St (state W) (list Z * Z * motorAxis) :=
  match locs with
  | [] => ret ([], value, pAxis)
  | loc :: locs =>
      g <~ motorAxisGet pAxis loc value 0 ;;
      '(rs, v, a) <~ motorAxisGet_seq (axis_out g) locs (value_out g) ;;
      ret (ret_status g :: rs, v, a)
  end.
End Code.

(** *** Several controllers

    [drvAnc350]: the card number, the asynUser and the axis array of a
    controller; [pFirstDrv] is the list of controllers.  An axis handle is
    the position of the controller in that list and of the axis in its
    array. *)
Record drvAnc350 := DrvAnc350 {
  card : Z;
  drv_pasynUser : asynUser;
  axes : list motorAxis
}.

Definition AXIS_HDL : Type := nat * nat.

Definition axis_at (pFirstDrv : list drvAnc350) (h : AXIS_HDL)
  : option motorAxis :=
  match pFirstDrv !! h.1 with
  | Some d => axes d !! h.2
  | None => None
  end.

Definition axis_store (pFirstDrv : list drvAnc350) (h : AXIS_HDL)
    (a : motorAxis) : list drvAnc350 :=
  alter (λ d, DrvAnc350 (card d) (drv_pasynUser d) (<[h.2 := a]> (axes d)))
        h.1 pFirstDrv.

Section Controllers.
Context {W : Type} `{!Externals W}.

(** [motorAxisGet] through a handle: the axis is read from and written
    back to the controller list.  A handle that designates no axis gives
    [None] and changes nothing. *)
Definition motorAxisGet_at (h : AXIS_HDL) (location value : Z)
    (pFirstDrv : list drvAnc350)
  : St (state W) (option get_result * list drvAnc350) :=
  match axis_at pFirstDrv h with
  | Some pAxis =>
      g <~ motorAxisGet pAxis location value 0 ;;
      ret (Some g, axis_store pFirstDrv h (axis_out g))
  | None => ret (None, pFirstDrv)
  end.

(** [n] consecutive [motorAxisGet] through one handle. *)
Fixpoint motorAxisGet_at_n (n : nat) (h : AXIS_HDL) (location value : Z)
    (pFirstDrv : list drvAnc350)
  : St (state W) (list drvAnc350) :=
  match n with
  | O => ret pFirstDrv
  | S n =>
      '(g, d) <~ motorAxisGet_at h location value pFirstDrv ;;
      motorAxisGet_at_n n h location
        (from_option value_out value g) d
  end.
End Controllers.

(** *** The motion commands and the poller *)

(** anc350.h *)
Definition ID_ANC_TARGET : Z := 0x0408.
Definition ID_ANC_RUN_TARGET : Z := 0x040D.
Definition ID_ANC_CONT_FWD : Z := 0x040E.
Definition ID_ANC_CONT_BKWD : Z := 0x040F.
Definition ID_ANC_SGL_BKWD : Z := 0x0411.
Definition ID_ANC_RUN_RELATIVE : Z := 0x0418.
Definition ID_ANC_STOP_EN : Z := 0x0450.
Definition ID_ANC_REGSPD_SELSP : Z := 0x054A.

(** [epicsEventWaitStatus] of epicsEvent.h. *)
Inductive epicsEventWaitStatus :=
  epicsEventWaitOK | epicsEventWaitTimeout | epicsEventWaitError.

Global Instance epicsEventWaitStatus_eq_dec : EqDecision epicsEventWaitStatus.
Proof. solve_decision. Defined.

(** [motorParam->getInteger]: the parameter library keeps its values in a
    table that is zero when created, so a parameter never set reads 0. *)
Definition getInteger (p : PARAMS) (f : motorAxisParam_t) : Z :=
  default 0 (p !! f).

(** The polling periods, in seconds: [anc350AsynMotorCreate] sets them from
    [defaultMovingPollPeriod] and [defaultIdlePollPeriod] and nothing
    changes them. *)
Definition defaultMovingPollPeriod : Z := 500.
Definition defaultIdlePollPeriod : Z := 1000.
Definition movingPollPeriod : Qc := Qc_of_Z defaultMovingPollPeriod / Qc_of_Z 1000.
Definition idlePollPeriod : Qc := Qc_of_Z defaultIdlePollPeriod / Qc_of_Z 1000.

(** The automatic variables of [drvAnc350Task] that live across its loop.
    The [float]s only take the values 0, 1/2 and 1 here, on which their
    arithmetic is exact. *)
Record task_locals := TaskLocals {
  timeout : Qc;
  factor : Qc;
  skipglobal : Qc;
  skips : list Qc;
  done : Z;
  globalStatus : Z
}.

Section Commands.
Context {W : Type} `{!Externals W}.

(** The commands take an axis handle that may be NULL ([None]); they give
    their return value and the axis.  [epicsEventSignal] of the poller's
    event and [callCallback] are not modelled. *)

(** [motorAxisSetDouble] and [motorAxisSetInteger]; [value] is a whole
    number, as every value kept in the table is. *)
Definition motorAxisSetDouble (pAxis : option motorAxis)
    (function : motorAxisParam_t) (value : Z)
  : St (state W) (Z * option motorAxis) :=
  let status := MOTOR_AXIS_OK in
  match pAxis with
  | None => ret (MOTOR_AXIS_ERROR, None)
  | Some pAxis =>
      lk <~ liftW (lock (axisMutex (pDrv_card pAxis) (axis pAxis))) ;;
      if decide (lk = epicsMutexLockOK) then
        if decide (status = MOTOR_AXIS_OK) then
          ret (status,
               Some (with_params pAxis (setDouble (params pAxis) function value)))
        else ret (status, Some pAxis)
      else ret (status, Some pAxis)
  end.

Definition motorAxisSetInteger (pAxis : option motorAxis)
    (function : motorAxisParam_t) (value : Z)
  : St (state W) (Z * option motorAxis) :=
  match pAxis with
  | None => ret (MOTOR_AXIS_ERROR, None)
  | Some _ => motorAxisSetDouble pAxis function value
  end.

(** [motorAxisMove].  [position] is a [double] in the source; the embedding
    covers the positions that are whole numbers (as those the poll
    publishes are), on which [position + pAxis->reference_position] is
    exact.  Its conversion to [int] is defined in C when the sum is in the
    range of [int]; outside that range the embedding wraps, and the
    properties of the target assume the range. *)
Definition motorAxisMove (pAxis : option motorAxis) (position relative : Z)
  : St (state W) (Z * option motorAxis) :=
  match pAxis with
  | None => ret (MOTOR_AXIS_ERROR, None)
  | Some pAxis =>
      status <~ motorAxisSet pAxis ID_ANC_STOP_EN 1 0 ;;
      status <~ motorAxisSet pAxis ID_ANC_REGSPD_SELSP 1 0 ;;
      let cmd := if decide (relative ≠ 0) then ID_ANC_RUN_RELATIVE
                 else ID_ANC_RUN_TARGET in
      let posdir := if decide (0 ≤ position) then 1 else 0 in
      let imove := Int32_wrap (position + reference_position pAxis) in
      lk <~ liftW (lock (axisMutex (pDrv_card pAxis) (axis pAxis))) ;;
      if decide (lk = epicsMutexLockOK) then
        status <~ motorAxisSet pAxis ID_ANC_TARGET imove 0 ;;
        status <~ motorAxisSet pAxis cmd 1 0 ;;
        ret (status,
             Some (set_param (set_param pAxis motorAxisDirection posdir)
                             motorAxisDone 0))
      else ret (status, Some pAxis)
  end.

(** [motorAxisHome]. *)
Definition motorAxisHome (pAxis : option motorAxis) (forwards : Z)
  : St (state W) (Z * option motorAxis) :=
  match pAxis with
  | None => ret (MOTOR_AXIS_ERROR, None)
  | Some pAxis =>
      status <~ motorAxisSet pAxis ID_ANC_STOP_EN 1 0 ;;
      status <~ motorAxisSet pAxis ID_ANC_REGSPD_SELSP 1 0 ;;
      let '(cmd, posdir) :=
        if decide (forwards > 0) then (ID_ANC_CONT_FWD, 1)
        else (ID_ANC_CONT_BKWD, 0) in
      lk <~ liftW (lock (axisMutex (pDrv_card pAxis) (axis pAxis))) ;;
      '(status, pAxis) <~
        (if decide (lk = epicsMutexLockOK) then
           status <~ motorAxisSet pAxis cmd 1 0 ;;
           ret (status,
                set_param (set_param pAxis motorAxisDirection posdir)
                          motorAxisDone 0)
         else ret (status, pAxis)) ;;
      ret (status, Some (with_reference_search pAxis 1))
  end.

(** [motorAxisVelocityMove]; only the sign of [velocity] is used, a finite
    [double] being a rational number. *)
Definition motorAxisVelocityMove (pAxis : option motorAxis) (velocity : Q)
  : St (state W) (Z * option motorAxis) :=
  match pAxis with
  | None => ret (MOTOR_AXIS_ERROR, None)
  | Some pAxis =>
      status <~ motorAxisSet pAxis ID_ANC_STOP_EN 1 0 ;;
      status <~ motorAxisSet pAxis ID_ANC_REGSPD_SELSP 1 0 ;;
      let '(cmd, posdir) :=
        if Qlt_le_dec 0 velocity then (ID_ANC_CONT_FWD, 1)
        else (ID_ANC_CONT_BKWD, 0) in
      lk <~ liftW (lock (axisMutex (pDrv_card pAxis) (axis pAxis))) ;;
      if decide (lk = epicsMutexLockOK) then
        status <~ motorAxisSet pAxis cmd 1 0 ;;
        ret (status,
             Some (set_param (set_param pAxis motorAxisDirection posdir)
                             motorAxisDone 0))
      else ret (status, Some pAxis)
  end.

(** [motorAxisStop]. *)
Definition motorAxisStop (pAxis : option motorAxis)
  : St (state W) (Z * option motorAxis) :=
  match pAxis with
  | None => ret (MOTOR_AXIS_ERROR, None)
  | Some pAxis =>
      let cmd := if decide (previous_direction pAxis = 1) then ID_ANC_SGL_FWD
                 else ID_ANC_SGL_BKWD in
      let pAxis := with_reference_search pAxis 0 in
      lk <~ liftW (lock (axisMutex (pDrv_card pAxis) (axis pAxis))) ;;
      if decide (lk = epicsMutexLockOK) then
        status <~ motorAxisSet pAxis cmd 1 0 ;;
        ret (status, Some (set_param pAxis motorAxisDone 1))
      else ret (MOTOR_AXIS_ERROR, Some pAxis)
  end.

(** [drvAnc350GetGlobalStatus]. *)
Definition drvAnc350GetGlobalStatus : Z := 0.

(** [drvAnc350GetAxisInitialStatus]. *)
Definition drvAnc350GetAxisInitialStatus (pAxis : motorAxis)
  : St (state W) motorAxis :=
  lk <~ liftW (lock (axisMutex (pDrv_card pAxis) (axis pAxis))) ;;
  if decide (lk = epicsMutexLockOK) then
    g <~ motorAxisGet pAxis ID_ANC_STATUS 0 0 ;;
    let referenced := Z.land (value_out g) ANC_STATUS_REF_VALID ≫ 11 in
    let pAxis := set_param (axis_out g) motorAxisHomed referenced in
    let pAxis := set_param pAxis motorAxisHomeSignal referenced in
    ret (with_params pAxis (setDouble (params pAxis) motorAxisHasEncoder 1))
  else ret pAxis.

(** The body of the axis loop of [drvAnc350Task] for one axis and its skip
    counter: gives [done], the axis, the counter and whether the axis was
    polled. *)
Definition task_axis (eventStatus : epicsEventWaitStatus) (factor : Qc)
    (globalStatus : Z) (done : Z) (pAxis : motorAxis) (skip : Qc)
  : St (state W) (Z * motorAxis * Qc * bool) :=
  done <~
    (if decide (eventStatus = epicsEventWaitOK) then ret 0
     else
       _ <~ liftW (lock (axisMutex (pDrv_card pAxis) (axis pAxis))) ;;
       ret (getInteger (params pAxis) motorAxisDone)) ;;
  if decide ((skip ≤ 0)%Qc ∨ done = 0) then
    '(pAxis, _) <~ drvAnc350GetAxisStatus pAxis globalStatus ;;
    ret (done, pAxis, (1 - factor)%Qc, true)
  else ret (done, pAxis, (skip - factor)%Qc, false).

(** [for ( i = 0; i < pDrv->nAxes; i++ ) { ... }] *)
Fixpoint task_axes (eventStatus : epicsEventWaitStatus) (factor : Qc)
    (globalStatus : Z) (done : Z) (axes : list motorAxis) (skips : list Qc)
  : St (state W) (Z * list motorAxis * list Qc * list bool) :=
  match axes, skips with
  | pAxis :: axes, skip :: skips =>
      '(done, pAxis, skip, polled) <~
        task_axis eventStatus factor globalStatus done pAxis skip ;;
      '(done, axes, skips, polleds) <~
        task_axes eventStatus factor globalStatus done axes skips ;;
      ret (done, pAxis :: axes, skip :: skips, polled :: polleds)
  | _, _ => ret (done, axes, skips, [])
  end.

(** One pass of the [while ( 1 )] of [drvAnc350Task], given the outcome of
    locking [controllerMutexId] and of the event wait: gives the automatic
    variables, the axes and, per axis, whether it was polled. *)
Definition drvAnc350Task_cycle (lk : epicsMutexLockStatus)
    (eventStatus : epicsEventWaitStatus) (t : task_locals)
    (axes : list motorAxis)
  : St (state W) (task_locals * list motorAxis * list bool) :=
  let '(timeout, factor) :=
    if decide (lk = epicsMutexLockOK)
    then (movingPollPeriod, (movingPollPeriod / idlePollPeriod)%Qc)
    else (timeout t, factor t) in
  let '(globalStatus, skipglobal) :=
    if decide (skipglobal t ≤ 0)%Qc then (drvAnc350GetGlobalStatus, 1%Qc)
    else (globalStatus t, skipglobal t) in
  let skipglobal := (skipglobal - factor)%Qc in
  '(done, axes, skips, polleds) <~
    task_axes eventStatus factor globalStatus (done t) axes (skips t) ;;
  ret (TaskLocals timeout factor skipglobal skips done globalStatus, axes,
       polleds).

(** The automatic variables of [drvAnc350Task] when its loop is entered. *)
Definition task_start (nAxes : nat) : task_locals :=
  TaskLocals 0 0 0 (replicate nAxes 0%Qc) 0 0.

(** The first passes of the loop, one per pair of outcomes: gives the
    final variables and axes and, per pass, which axes were polled. *)
Fixpoint drvAnc350Task_cycles
    (outcomes : list (epicsMutexLockStatus * epicsEventWaitStatus))
    (t : task_locals) (axes : list motorAxis)
  : St (state W) (task_locals * list motorAxis * list (list bool)) :=
  match outcomes with
  | [] => ret (t, axes, [])
  | (lk, ev) :: outcomes =>
      '(t, axes, polleds) <~ drvAnc350Task_cycle lk ev t axes ;;
      '(t, axes, rest) <~ drvAnc350Task_cycles outcomes t axes ;;
      ret (t, axes, polleds :: rest)
  end.
End Commands.

(** [motorAxisOpen]: the handle of axis [axis] of the first controller with
    card number [card_no], the axis being reset.  When there is no such axis
    the source dereferences a NULL pointer: [None]. *)
Definition motorAxisOpen (card_no axis : Z) (pFirstDrv : list drvAnc350)
  : option (AXIS_HDL * list drvAnc350) :=
  match list_find (λ pDrv, card pDrv = card_no) pFirstDrv with
  | Some (i, pDrv) =>
      if decide (0 ≤ axis ∧ axis < Z.of_nat (List.length (axes pDrv))) then
        match axes pDrv !! Z.to_nat axis with
        | Some pAxis =>
            let pAxis :=
              with_reference_position
                (with_reference_search (with_amplitude pAxis 0) 0) 0 in
            Some ((i, Z.to_nat axis),
                  axis_store pFirstDrv (i, Z.to_nat axis) pAxis)
        | None => None
        end
      else None
  | None => None
  end.

End Anc350AsynMotor.

(** ** A scripted environment

    An implementation of [Externals] on which the code can be run: the
    replies of the transport are taken, one per read, from a script. *)

Module Sim.

Record sim := Sim {
  locks : list epicsMutexLockStatus;     (* outcomes of the next locks; then OK *)
  writes : list asynStatus;              (* outcomes of the next writes; then success *)
  reads : list (asynStatus * list byte); (* the next replies; then time-outs *)
  junk : byte                            (* what uninitialised memory holds *)
}.

Definition sim_lock (s : sim) : epicsMutexLockStatus * sim :=
  match locks s with
  | [] => (epicsMutexLockOK, s)
  | r :: l => (r, Sim l (writes s) (reads s) (junk s))
  end.

Definition sim_write (msg : list byte) (s : sim) : (asynStatus * nat) * sim :=
  match writes s with
  | [] => ((asynSuccess, List.length msg), s)
  | r :: l => ((r, if decide (r = asynSuccess) then List.length msg else 0%nat),
               Sim (locks s) l (reads s) (junk s))
  end.

Definition sim_read (s : sim) : (asynStatus * list byte) * sim :=
  match reads s with
  | [] => ((asynTimeout, []), s)
  | r :: l => (r, Sim (locks s) (writes s) l (junk s))
  end.

Definition sim_writeRead (msg : list byte) (s : sim)
  : (asynStatus * nat * list byte) * sim :=
  let '((st, n), s) := sim_write msg s in
  if decide (st = asynSuccess) then
    let '((st, bs), s) := sim_read s in ((st, n, bs), s)
  else ((st, n, []), s).

(** The conversion of [%x], without white space, sign or [0x] prefix: the
    number written by the leading hexadecimal digits, if there is one. *)
Definition hex_digit (c : Ascii.ascii) : option Z :=
  let n := Z.of_nat (Ascii.nat_of_ascii c) in
  if decide (48 ≤ n ≤ 57) then Some (n - 48)
  else if decide (97 ≤ n ≤ 102) then Some (n - 87)
  else if decide (65 ≤ n ≤ 70) then Some (n - 55)
  else None.

Fixpoint hex_digits (s : string) (acc : option Z) : option Z :=
  match s with
  | EmptyString => acc
  | String c s =>
      match hex_digit c with
      | Some d => hex_digits s (Some (default 0 acc * 16 + d))
      | None => acc
      end
  end.

(** The conversion of [%d], without white space or sign: the number
    written by the leading decimal digits, if there is one. *)
Definition dec_digit (c : Ascii.ascii) : option Z :=
  let n := Z.of_nat (Ascii.nat_of_ascii c) in
  if decide (48 ≤ n ≤ 57) then Some (n - 48) else None.

Fixpoint dec_digits (s : string) (acc : option Z) : option Z :=
  match s with
  | EmptyString => acc
  | String c s =>
      match dec_digit c with
      | Some d => dec_digits s (Some (default 0 acc * 10 + d))
      | None => acc
      end
  end.

Global Instance sim_externals : Externals sim := {|
  epicsMutexLock := λ _, sim_lock;
  octet_flush := λ _ s, (asynSuccess, s);
  octet_write := λ _, sim_write;
  octet_read := λ _ _, sim_read;
  syncio_write := λ _, sim_write;
  syncio_writeRead := λ _ msg _, sim_writeRead msg;
  sscanf_x := λ s, hex_digits s None;
  indeterminate := λ n s, (replicate n (junk s), s)
|}.

(** An acknowledge telegram for message [id] carrying [data0]. *)
Definition ack (id data0 : Z) : list byte :=
  UcProtocol.UcAckTelegram_bytes
    {| UcProtocol.length := 24; UcProtocol.opcode := UcProtocol.UC_ACK;
       UcProtocol.address := 0x0404; UcProtocol.index := 0;
       UcProtocol.correlationNumber := id |} 0 data0.

Definition fresh (rs : list (asynStatus * list byte)) : world sim :=
  World (Sim [] [] rs "000"%byte) [].

(** A second environment, without script or state: every lock has the
    outcome [lk], every write the status [wr], and a request that was
    written is answered by the controller from its objects [regs]
    ([reply_to]).  Nothing arrives on the plain [asynOctet] read. *)
Inductive controller (lk : epicsMutexLockStatus) (wr : asynStatus)
    (regs : Z → Z) : Type :=
  Controller.
Arguments Controller {lk wr regs}.

Definition controller_write {lk wr regs} (msg : list byte)
    (c : controller lk wr regs)
  : (asynStatus * nat) * controller lk wr regs :=
  ((wr, if decide (wr = asynSuccess) then List.length msg else 0%nat), c).

Definition controller_writeRead {lk wr regs} (msg : list byte)
    (c : controller lk wr regs)
  : (asynStatus * nat * list byte) * controller lk wr regs :=
  if decide (wr = asynSuccess) then
    ((asynSuccess, List.length msg,
      reply_to msg (regs (load_Int32 UcProtocol.off_address msg))), c)
  else ((wr, 0%nat, []), c).

Global Instance controller_externals lk wr regs
  : Externals (controller lk wr regs) := {|
  epicsMutexLock := λ _ c, (lk, c);
  octet_flush := λ _ c, (asynSuccess, c);
  octet_write := λ _, controller_write;
  octet_read := λ _ _ c, ((asynTimeout, []), c);
  syncio_write := λ _, controller_write;
  syncio_writeRead := λ _ msg _, controller_writeRead msg;
  sscanf_x := λ s, hex_digits s None;
  indeterminate := λ n c, (replicate n "000"%byte, c)
|}.

(** A third environment, in which no call fails: every lock is granted,
    every write is taken in full, and a read delivers what is waiting of
    the bytes asked for.  Its state is the input that is still waiting. *)
Record stream := Stream { waiting : list byte }.

Definition stream_read (n : nat) (s : stream)
  : (asynStatus * list byte) * stream :=
  ((asynSuccess, take n (waiting s)), Stream (drop n (waiting s))).

Global Instance stream_externals : Externals stream := {|
  epicsMutexLock := λ _ s, (epicsMutexLockOK, s);
  octet_flush := λ _ s, (asynSuccess, s);
  octet_write := λ _ msg s, ((asynSuccess, List.length msg), s);
  octet_read := λ _, stream_read;
  syncio_write := λ _ msg s, ((asynSuccess, List.length msg), s);
  syncio_writeRead := λ _ msg n s,
    let '((st, bs), s) := stream_read n s in ((st, List.length msg, bs), s);
  sscanf_x := λ s, hex_digits s None;
  indeterminate := λ n s, (replicate n "000"%byte, s)
|}.

End Sim.

(** ** Concrete runs

    Inputs on which the code is evaluated below. *)

Module Scenario.
Import Anc350AsynMotor.

(** Axis 1 of card 0, freshly created: no parameter set, nothing cached. *)
Definition ax0 : motorAxis := MotorAxis 0 5 1 5 ∅ 0 0 0 0 0.

(** The driver state at start-up, on a transport with the given replies. *)
Definition st0 (rs : list (asynStatus * list byte)) : state Sim.sim :=
  State 0 0 (Sim.fresh rs).

Definition timeouts (n : nat) : list (asynStatus * list byte) :=
  replicate n (asynTimeout, []).

(** [n] reads of the status word. *)
Definition status_reads (n : nat) : list Z := replicate n ID_ANC_STATUS.

(** Two controllers with one axis each. *)
Definition axA : motorAxis := MotorAxis 0 10 1 10 ∅ 0 0 0 0 0.
Definition axB : motorAxis := MotorAxis 1 11 1 11 ∅ 0 0 0 0 0.
Definition two_cards : list drvAnc350 :=
  [DrvAnc350 0 10 [axA]; DrvAnc350 1 11 [axB]].

(** An axis whose forward limit is flagged and whose amplitude is cached. *)
Definition ax_limit : motorAxis :=
  MotorAxis 0 5 1 5 {[ motorAxisHighHardLimit := 1 ]} 0 0 0 0 30000.

(** A longin record that is still undefined, and its link. *)
Definition li0 : DevAnc350.longinRecord :=
  DevAnc350.LonginRecord (DevAnc350.DbCommon 1 0 0) 99.
Definition lo0 : DevAnc350.longoutRecord :=
  DevAnc350.LongoutRecord (DevAnc350.DbCommon 1 0 0) 5000.
Definition link0 : DevAnc350.devPvt :=
  DevAnc350.DevPvt (Some "404"%string) 1 7.

(** A longin record that holds the value of an earlier read: defined, and
    without alarm. *)
Definition li_read : DevAnc350.longinRecord :=
  DevAnc350.LonginRecord (DevAnc350.DbCommon 0 0 0) 99.

(** A reply to message 1 whose length member declares 1000 bytes, and the
    transport on which the bytes [bs] are waiting. *)
Definition ack_1000 : list byte :=
  Int32_to_bytes 1000 ++ drop 4 (Sim.ack 1 2048).
Definition wire (bs : list byte) : world Sim.stream :=
  World (Sim.Stream bs) [].

(** The objects of a controller whose axis is at rest with a valid
    reference, at counter 1500, the reference being at 500. *)
Definition regs0 (a : Z) : Z :=
  if decide (a = ID_ANC_STATUS) then 0x0800
  else if decide (a = ID_ANC_AMPL) then 30000
  else if decide (a = ID_ANC_REFCOUNTER) then 500
  else if decide (a = ID_ANC_COUNTER) then 1500
  else 0.

(** The driver at start-up on that controller: with every mutex free, with
    every mutex held by someone else, and (for the device support) with a
    transport that refuses every write. *)
Definition bench0 : state (Sim.controller epicsMutexLockOK asynSuccess regs0) :=
  State 0 0 (World Sim.Controller []).
Definition bench_denied
  : state (Sim.controller epicsMutexLockTimeout asynSuccess regs0) :=
  State 0 0 (World Sim.Controller []).
Definition bench_mute : world (Sim.controller epicsMutexLockOK asynError regs0) :=
  World Sim.Controller [].

(** An axis on which a reference search is in progress. *)
Definition ax_homing : motorAxis := MotorAxis 0 5 1 5 ∅ 0 0 0 1 0.

(** A link with port L0, address 1 and parameter 404, and the blank that
    separates its parts. *)
Definition link_text : string := "L0 S1 404".
Definition blank : Ascii.ascii := Ascii.ascii_of_nat 32.

End Scenario.

(** * Properties *)

(** ** Machine integers, buffers and loops *)

Lemma Int32_wrap_small (z : Z) : - 2 ^ 31 ≤ z < 2 ^ 31 → Int32_wrap z = z.
Proof.
  intros Hz. unfold Int32_wrap.
  rewrite Z.mod_small by lia. lia.
Qed.

Lemma length_copy_raw (n off : nat) (src dst : list byte) :
  List.length (copy_raw n off src dst) = List.length dst.
Proof.
  unfold copy_raw. generalize (seq 0 n) as idx. intros idx. revert dst.
  induction idx as [|i idx IH]; intros dst; simpl; [done|].
  by rewrite IH, length_insert.
Qed.

Lemma ack_length_store (tel : list byte) :
  (4 ≤ List.length tel)%nat →
  UcProtocol.ack_length (store_Int32 UcProtocol.off_length 24 tel) = 24.
Proof.
  intros Hlen.
  destruct tel as [|b0 [|b1 [|b2 [|b3 tel]]]]; simpl in Hlen; try lia.
  reflexivity.
Qed.

(** A loop invariant holds when the loop is left. *)
Lemma while_inv {S} (I : S → Prop) (bound : nat) (cond : S → bool)
    (body : S → S) (s : S) :
  I s → (∀ s, I s → cond s = true → I (body s)) →
  I (while bound cond body s).
Proof.
  intros Hs Hstep. revert s Hs.
  induction bound as [|n IH]; intros s Hs; simpl; [done|].
  destruct (cond s) eqn:Hc; [|done]. apply IH. by apply Hstep.
Qed.

(** A loop whose condition implies [m s < B] and whose body increments [m]
    is left with its condition false when it is given [B - m s] iterations. *)
Lemma while_exits {S} (m : S → Z) (B : Z) (cond : S → bool) (body : S → S) :
  (∀ s, cond s = true → m s < B) →
  (∀ s, m (body s) = m s + 1) →
  ∀ s, cond (while (Z.to_nat (B - m s)) cond body s) = false.
Proof.
  intros Hlt Hinc s.
  remember (Z.to_nat (B - m s)) as n eqn:Hn. revert s Hn.
  induction n as [|n IH]; intros s Hn; simpl.
  - destruct (cond s) eqn:Hc; [|done]. apply Hlt in Hc. lia.
  - destruct (cond s) eqn:Hc; [|done]. apply IH. rewrite Hinc. lia.
Qed.

(** ** The message identifier *)

Lemma mid_increment_OK (mid : Z) :
  0 ≤ mid ≤ 10000 →
  mid_increment epicsMutexLockOK mid = (mid `mod` 10000 + 1, mid `mod` 10000 + 1).
Proof.
  intros Hm. unfold mid_increment.
  rewrite decide_True by done.
  rewrite Int32_wrap_small by lia.
  destruct (decide (mid = 10000)) as [->|Hne].
  - reflexivity.
  - rewrite decide_False by lia. rewrite Z.mod_small by lia. done.
Qed.

Lemma mid_increment_range (lk : epicsMutexLockStatus) (mid : Z) :
  0 ≤ mid ≤ 10000 →
  1 ≤ (mid_increment lk mid).1 ≤ 10000 ∧ 0 ≤ (mid_increment lk mid).2 ≤ 10000.
Proof.
  intros Hm. destruct (decide (lk = epicsMutexLockOK)) as [->|Hlk].
  - rewrite mid_increment_OK by done. simpl.
    pose proof (Z.mod_pos_bound mid 10000). lia.
  - unfold mid_increment. rewrite decide_False by done. simpl. lia.
Qed.

Lemma mid_calls_range (lks : list epicsMutexLockStatus) (mid : Z) :
  0 ≤ mid ≤ 10000 →
  Forall (λ id, 1 ≤ id ≤ 10000) (mid_calls lks mid).1.
Proof.
  revert mid. induction lks as [|lk lks IH]; intros mid Hm; cbn [mid_calls].
  - constructor.
  - pose proof (mid_increment_range lk mid Hm) as [H1 H2].
    destruct (mid_increment lk mid) as [id mid'].
    specialize (IH mid' H2).
    destruct (mid_calls lks mid') as [ids mid'']. simpl in *.
    by constructor.
Qed.

Lemma mid_calls_OK_lookup (n k : nat) (mid : Z) :
  0 ≤ mid ≤ 10000 → (k < n)%nat →
  (mid_calls (replicate n epicsMutexLockOK) mid).1 !! k
  = Some ((mid + Z.of_nat k) `mod` 10000 + 1).
Proof.
  revert k mid. induction n as [|n IH]; intros k mid Hm Hk; [lia|].
  cbn [replicate mid_calls]. rewrite mid_increment_OK by done.
  assert (0 ≤ mid `mod` 10000 + 1 ≤ 10000) as Hm'
    by (pose proof (Z.mod_pos_bound mid 10000); lia).
  specialize (IH (pred k) _ Hm').
  destruct (mid_calls (replicate n epicsMutexLockOK) (mid `mod` 10000 + 1))
    as [ids mid'] eqn:E.
  destruct k as [|k]; simpl.
  - by rewrite Z.add_0_r.
  - simpl in IH. rewrite IH by lia. f_equal. f_equal.
    replace (mid `mod` 10000 + 1 + Z.of_nat k)
      with (mid `mod` 10000 + (1 + Z.of_nat k)) by lia.
    rewrite Zplus_mod_idemp_l. f_equal. lia.
Qed.

(** C2. Starting from [mid = 0], the N-th of N consecutive executions of
    the [mid] block (the lock being taken each time) hands out N for every
    N up to 10000, the 10001st hands out 1, and whatever the outcomes of the
    locks no execution hands out 0 or a value outside 1..10000. *)
Theorem C2_mid_sequence :
  (∀ N : nat, 1 ≤ Z.of_nat N ≤ 10000 →
     (mid_calls (replicate N epicsMutexLockOK) 0).1 !! (N - 1)%nat
     = Some (Z.of_nat N))
  ∧ (mid_calls (replicate (Z.to_nat 10001) epicsMutexLockOK) 0).1
      !! Z.to_nat 10000 = Some 1
  ∧ (∀ lks : list epicsMutexLockStatus,
       Forall (λ id, id ≠ 0 ∧ 1 ≤ id ≤ 10000) (mid_calls lks 0).1).
Proof.
  split; [|split].
  - intros N HN. rewrite mid_calls_OK_lookup by lia.
    f_equal. rewrite Z.mod_small by lia. lia.
  - rewrite mid_calls_OK_lookup by lia.
    rewrite Z2Nat.id by lia. reflexivity.
  - intros lks. eapply Forall_impl; [apply mid_calls_range; lia|].
    simpl. lia.
Qed.

(** C2 at the third call. *)
Lemma C2_mid_sequence_witness :
  (mid_calls (replicate 3 epicsMutexLockOK) 0).1 !! 2%nat = Some 3.
Proof.
  exact (proj1 C2_mid_sequence 3%nat ltac:(lia)).
Defined.

Lemma transmissions_app (t1 t2 : list io_event) :
  transmissions (t1 ++ t2) = (transmissions t1 + transmissions t2)%nat.
Proof. unfold transmissions. by rewrite List.filter_app, length_app. Qed.

(** ** The motor driver: one exchange *)

Section MotorFacts.
Import Anc350AsynMotor.
Context {W : Type} `{!Externals W}.

(** What a step leaves unchanged. *)
Lemma alloca_frame (n : nat) (s : state W) :
  mid (liftW (alloca n) s).2 = mid s
  ∧ comms (liftW (alloca n) s).2 = comms s
  ∧ trace (io (liftW (alloca n) s).2) = trace (io s).
Proof.
  unfold liftW, alloca. destruct (indeterminate n (ext (io s))); done.
Qed.

Lemma lock_frame (m : mutexId) (s : state W) :
  mid (liftW (lock m) s).2 = mid s
  ∧ comms (liftW (lock m) s).2 = comms s
  ∧ trace (io (liftW (lock m) s).2) = trace (io s).
Proof.
  unfold liftW, lock. destruct (epicsMutexLock m (ext (io s))); done.
Qed.

Lemma next_localMid_frame (s : state W) :
  comms (next_localMid s).2 = comms s
  ∧ trace (io (next_localMid s).2) = trace (io s).
Proof.
  unfold next_localMid, bind.
  pose proof (lock_frame midMutexId s) as (_ & Hc & Ht).
  destruct (liftW (lock midMutexId) s) as [lk s1]. simpl in *.
  destruct (mid_increment lk (mid s1)); done.
Qed.

Lemma writeRead_frame (u : asynUser) (msg : list byte) (n : nat) (s : state W) :
  mid (liftW (call_syncio_writeRead u msg n) s).2 = mid s
  ∧ comms (liftW (call_syncio_writeRead u msg n) s).2 = comms s
  ∧ trace (io (liftW (call_syncio_writeRead u msg n) s).2)
    = trace (io s) ++ [EvWriteRead u msg n].
Proof.
  unfold liftW, call_syncio_writeRead.
  destruct (syncio_writeRead u msg n (ext (io s))) as [[[st k] bs] e]; done.
Qed.

Lemma syncio_write_frame (u : asynUser) (msg : list byte) (s : state W) :
  mid (liftW (call_syncio_write u msg) s).2 = mid s
  ∧ comms (liftW (call_syncio_write u msg) s).2 = comms s
  ∧ trace (io (liftW (call_syncio_write u msg) s).2)
    = trace (io s) ++ [EvSyncWrite u msg].
Proof.
  unfold liftW, call_syncio_write.
  destruct (syncio_write u msg (ext (io s))) as [[st k] e]; done.
Qed.

Lemma record_comms_spec (pAxis : motorAxis) (status : asynStatus) (s : state W) :
  mid (record_comms pAxis status s).2 = mid s
  ∧ io (record_comms pAxis status s).2 = io s
  ∧ (record_comms pAxis status s).1
    = (if decide (status ≠ asynSuccess) then
         (MOTOR_AXIS_ERROR,
          if decide (Int32_wrap (comms s + 1) > 200)
          then set_param pAxis motorAxisCommError 1 else pAxis)
       else (MOTOR_AXIS_OK, set_param pAxis motorAxisCommError 0))
  ∧ comms (record_comms pAxis status s).2
    = if decide (status ≠ asynSuccess) then Int32_wrap (comms s + 1) else 0.
Proof. unfold record_comms. destruct (decide (status ≠ asynSuccess)); done. Qed.

Lemma motorAxisGet_spec (pAxis : motorAxis) (location value logGlobal : Z) (s : state W) :
  let g := (motorAxisGet pAxis location value logGlobal s).1 in
  let s' := (motorAxisGet pAxis location value logGlobal s).2 in
  transmissions (trace (io s')) = (transmissions (trace (io s)) + 1)%nat
  ∧ ((ret_status g = MOTOR_AXIS_OK ∧ io_status g = asynSuccess ∧ matched g = 1
      ∧ UcProtocol.ack_correlationNumber (tel g) = localMid g
      ∧ value_out g = UcProtocol.ack_data0 (tel g)
      ∧ comms s' = 0
      ∧ axis_out g = set_param pAxis motorAxisCommError 0)
     ∨ (ret_status g = MOTOR_AXIS_ERROR ∧ matched g = 0 ∧ value_out g = value
        ∧ (io_status g = asynSuccess →
           UcProtocol.ack_correlationNumber (tel g) ≠ localMid g)
        ∧ comms s' = Int32_wrap (comms s + 1)
        ∧ axis_out g = if decide (comms s' > 200)
                       then set_param pAxis motorAxisCommError 1 else pAxis)).
Proof.
  unfold motorAxisGet, bind.
  pose proof (alloca_frame 512 s) as (_ & Hc1 & Ht1).
  destruct (liftW (alloca 512) s) as [raw0 s1].
  pose proof (alloca_frame UcProtocol.sizeof_UcAckTelegram s1) as (_ & Hc2 & Ht2).
  destruct (liftW (alloca UcProtocol.sizeof_UcAckTelegram) s1) as [tel0 s2].
  pose proof (next_localMid_frame s2) as (Hc3 & Ht3).
  destruct (next_localMid s2) as [lm s3].
  match goal with |- context [liftW (call_syncio_writeRead ?u ?m ?n) s3] =>
    pose proof (writeRead_frame u m n s3) as (_ & Hc4 & Ht4);
    destruct (liftW (call_syncio_writeRead u m n) s3) as [[st bs] s4] end.
  simpl in Hc1, Ht1, Hc2, Ht2, Hc3, Ht3, Hc4, Ht4.
  set (tel1 := copy_raw _ _ _ _).
  destruct (decide (st = asynSuccess)) as [Hst|Hst];
    [destruct (decide (UcProtocol.ack_correlationNumber tel1 = lm)) as [Hm|Hm]|].
  all: match goal with |- context [record_comms ?a ?x ?s] =>
         pose proof (record_comms_spec a x s) as (_ & Hio & Hr & Hc5);
         destruct (record_comms a x s) as [[r a'] s5] end.
  all: simpl in Hio, Hr, Hc5 |- *.
  all: rewrite Hio, Ht4, Ht3, Ht2, Ht1, transmissions_app; split; [done|].
  - rewrite decide_False in Hr by (subst st; auto).
    rewrite decide_False in Hc5 by (subst st; auto).
    inversion Hr; subst r a'. left. repeat split; done.
  - inversion Hr; subst r a'. right. rewrite Hc5, Hc4, Hc3, Hc2, Hc1.
    repeat split; done.
  - rewrite decide_True in Hr by done. rewrite decide_True in Hc5 by done.
    inversion Hr; subst r a'. right. rewrite Hc5, Hc4, Hc3, Hc2, Hc1.
    repeat split; done.
Qed.

Lemma comm_error_set (a : motorAxis) (v : Z) :
  comm_error (set_param a motorAxisCommError v) = bool_decide (v = 1).
Proof.
  unfold comm_error, set_param, setInteger. simpl.
  rewrite lookup_insert_eq.
  apply bool_decide_ext. split; congruence.
Qed.

Lemma motorAxisGet_seq_errors (pAxis : motorAxis) (locs : list Z) (value : Z)
    (s : state W) :
  let r := motorAxisGet_seq pAxis locs value s in
  Forall (λ st, st = MOTOR_AXIS_ERROR) r.1.1.1 →
  0 ≤ comms s → comms s + Z.of_nat (List.length locs) < 2 ^ 31 →
  comms r.2 = comms s + Z.of_nat (List.length locs)
  ∧ r.1.1.2 = value
  ∧ comm_error r.1.2
    = comm_error pAxis
      || (bool_decide (locs ≠ [])
          && bool_decide (comms s + Z.of_nat (List.length locs) > 200)).
Proof.
  revert pAxis value s.
  induction locs as [|loc locs IH]; intros pAxis value s; cbn [motorAxisGet_seq].
  - unfold ret. simpl. intros _ _ _. split; [lia|]. split; [done|].
    by rewrite orb_false_r.
  - unfold bind.
    pose proof (motorAxisGet_spec pAxis loc value 0 s) as Hg.
    destruct (motorAxisGet pAxis loc value 0 s) as [g s1].
    cbn zeta in Hg. simpl in Hg. destruct Hg as [_ Hg].
    specialize (IH (axis_out g) (value_out g) s1).
    destruct (motorAxisGet_seq (axis_out g) locs (value_out g) s1)
      as [[[rs v] a] s2].
    cbn zeta in IH. simpl in IH. unfold ret. cbn [length]. simpl.
    intros Hall Hc Hb. apply Forall_cons in Hall as [Hr Hall].
    destruct Hg as [(Hok & _)|(_ & _ & Hv & _ & Hc1 & Ha)].
    { rewrite Hr in Hok. discriminate. }
    rewrite Int32_wrap_small in Hc1 by lia.
    destruct (IH Hall) as (Hc2 & Hv2 & Hf); [lia|lia|].
    split; [lia|]. split; [congruence|].
    rewrite Hf, Ha, Hc1.
    destruct locs as [|loc' locs'].
    + rewrite (bool_decide_false ([] ≠ [])) by (intros Hne; by apply Hne).
      cbn [length andb]. rewrite orb_false_r.
      destruct (decide (comms s + 1 > 200)).
      * rewrite comm_error_set. rewrite !bool_decide_true by lia.
        by rewrite orb_true_r.
      * rewrite !bool_decide_false by lia. by rewrite !orb_false_r.
    + rewrite (bool_decide_true (loc' :: locs' ≠ [])) by done.
      cbn [length andb] in *.
      destruct (decide (comms s + 1 > 200)).
      * rewrite comm_error_set. rewrite !bool_decide_true by lia.
        by rewrite !orb_true_r.
      * f_equal. apply bool_decide_ext. lia.
Qed.
End MotorFacts.

(** ** The motor driver: the axis poll *)

Section PollFacts.
Import Anc350AsynMotor.
Context {W : Type} `{!Externals W}.

Lemma keeps_refl (fs : list motorAxisParam_t) (a : motorAxis) : keeps fs a a.
Proof. by repeat split. Qed.

Lemma keeps_trans (fs1 fs2 fs : list motorAxisParam_t) (a b c : motorAxis) :
  keeps fs1 a b → keeps fs2 b c → fs1 ⊆ fs → fs2 ⊆ fs → keeps fs a c.
Proof.
  intros (Hp1 & Hd1 & Hr1 & Hf1) (Hp2 & Hd2 & Hr2 & Hf2) H1 H2.
  repeat split; try congruence.
  intros f Hf. rewrite Hf2, Hf1; [done| |]; intros Hin; apply Hf; auto.
Qed.

Lemma keeps_weaken (fs fs' : list motorAxisParam_t) (a b : motorAxis) :
  keeps fs a b → fs ⊆ fs' → keeps fs' a b.
Proof. intros K Hs. eapply keeps_trans; [exact K|apply keeps_refl|done|done]. Qed.

Lemma keeps_set_param (fs : list motorAxisParam_t) (a b : motorAxis)
    (f : motorAxisParam_t) (v : Z) :
  keeps fs a b → f ∈ fs → keeps fs a (set_param b f v).
Proof.
  intros (Hp & Hd & Hr & Hf) Hin. repeat split; try done.
  intros f' Hf'. unfold set_param, setInteger. simpl.
  rewrite lookup_insert_ne by (intros ->; done). by apply Hf.
Qed.

Lemma keeps_with_amplitude (fs : list motorAxisParam_t) (a b : motorAxis) (v : Z) :
  keeps fs a b → keeps fs a (with_amplitude b v).
Proof. intros (Hp & Hd & Hr & Hf). by repeat split. Qed.

Lemma keeps_with_reference_search (fs : list motorAxisParam_t) (a b : motorAxis)
    (v : Z) :
  keeps fs a b → keeps fs a (with_reference_search b v).
Proof. intros (Hp & Hd & Hr & Hf). by repeat split. Qed.

Ltac mem_tac :=
  first [ by repeat first [apply list_elem_of_here | apply list_elem_of_further]
        | let x := fresh in let Hx := fresh in
          intros x Hx; rewrite ?elem_of_cons, ?elem_of_nil in *; tauto ].

Ltac keeps_tac :=
  repeat first
    [ apply keeps_set_param; [|mem_tac]
    | apply keeps_with_amplitude
    | apply keeps_with_reference_search ];
  first [ apply keeps_refl
        | eapply keeps_weaken; [eassumption|mem_tac] ].

Lemma motorAxisGet_keeps (pAxis : motorAxis) (location value logGlobal : Z)
    (s : state W) :
  keeps [motorAxisCommError] pAxis
        (axis_out (motorAxisGet pAxis location value logGlobal s).1).
Proof.
  destruct (motorAxisGet_spec pAxis location value logGlobal s)
    as [_ [(_ & _ & _ & _ & _ & _ & ->)|(_ & _ & _ & _ & _ & ->)]].
  - keeps_tac.
  - case_decide; keeps_tac.
Qed.

Lemma decode_status_keeps (pAxis : motorAxis) (value : Z) (s : state W) :
  keeps [motorAxisDone; motorAxisHomed; motorAxisHomeSignal] pAxis
        (decode_status pAxis value s).1.1.
Proof.
  unfold decode_status, bind, ret.
  set (a1 := if decide (Z.land value ANC_STATUS_RUNNING = 0)
             then set_param pAxis motorAxisDone 1
             else set_param pAxis motorAxisDone 0).
  assert (keeps [motorAxisDone] pAxis a1) as H1
    by (subst a1; case_decide; keeps_tac).
  clearbody a1.
  destruct (decide (Z.land value ANC_STATUS_REF_VALID ≫ 11 = 0));
    [|destruct (decide (reference_search a1 = 1))]; simpl.
  - keeps_tac.
  - destruct (motorAxisSet _ _ _ _ s) as [r s1]. simpl. keeps_tac.
  - keeps_tac.
Qed.

Local Arguments update_position : simpl never.
Local Arguments update_limits : simpl never.
Local Arguments set_param : simpl never.

(** The poll as a composition: [a1] is the axis after the four reads, to
    which the position and limit blocks are then applied. *)
Lemma poll_spec (pAxis : motorAxis) (globalStatus : Z) (s : state W) (p : poll) :
  let r := drvAnc350GetAxisStatus pAxis globalStatus s in
  r.1.2 = Some p →
  ∃ a1 : motorAxis,
    keeps [motorAxisCommError; motorAxisDone; motorAxisHomed; motorAxisHomeSignal]
          pAxis a1
    ∧ (humpstatus p ≠ asynSuccess_int →
       keeps [motorAxisCommError] pAxis a1 ∧ hump p = 0)
    ∧ (ref_status p ≠ asynSuccess_int →
       reference_used p = reference_position pAxis)
    ∧ r.1.1 =
        set_param
          (update_limits
             (if decide (pos_status p = asynSuccess_int)
              then (update_position a1 (value p) (reference_used p)).1.1
              else a1)
             (hump p) (humpstatus p) (direction p))
          motorAxisProblem globalStatus
    ∧ position p =
        (if decide (pos_status p = asynSuccess_int)
         then Some (update_position a1 (value p) (reference_used p)).1.2
         else None)
    ∧ direction p =
        (if decide (pos_status p = asynSuccess_int)
         then (update_position a1 (value p) (reference_used p)).2
         else 0).
Proof.
  unfold drvAnc350GetAxisStatus, bind.
  destruct (liftW (lock _) s) as [lk s0].
  destruct (decide (lk = epicsMutexLockOK)) as [Hlk|Hlk]; [|done].
  destruct (liftW (alloca 4) s0) as [v0 s1].
  pose proof (motorAxisGet_keeps pAxis ID_ANC_STATUS (Int32_of_bytes v0) 0 s1) as K1.
  destruct (motorAxisGet pAxis ID_ANC_STATUS (Int32_of_bytes v0) 0 s1) as [g s2].
  simpl in K1.
  set (blk := if decide (ret_status g = asynSuccess_int)
              then decode_status (axis_out g) (value_out g)
              else ret (axis_out g, 0)).
  assert (keeps [motorAxisCommError; motorAxisDone; motorAxisHomed;
                 motorAxisHomeSignal] pAxis (blk s2).1.1
          ∧ (ret_status g ≠ asynSuccess_int →
             keeps [motorAxisCommError] pAxis (blk s2).1.1 ∧ (blk s2).1.2 = 0))
    as [K2 K2'].
  { subst blk. destruct (decide (ret_status g = asynSuccess_int)).
    - split; [|done].
      eapply keeps_trans; [exact K1|apply decode_status_keeps| |]; mem_tac.
    - split; [simpl; keeps_tac|done]. }
  destruct (blk s2) as [[a2 hmp] s3]. simpl in K2, K2'.
  pose proof (motorAxisGet_keeps a2 ID_ANC_AMPL (value_out g) 0 s3) as K3.
  destruct (motorAxisGet a2 ID_ANC_AMPL (value_out g) 0 s3) as [ga s4].
  simpl in K3.
  pose proof (motorAxisGet_keeps (with_amplitude (axis_out ga) (value_out ga))
                ID_ANC_REFCOUNTER (value_out ga) 0 s4) as K4.
  destruct (motorAxisGet (with_amplitude (axis_out ga) (value_out ga))
              ID_ANC_REFCOUNTER (value_out ga) 0 s4) as [gr s5].
  simpl in K4.
  pose proof (motorAxisGet_keeps (axis_out gr) ID_ANC_COUNTER (value_out gr) 0 s5)
    as K5.
  destruct (motorAxisGet (axis_out gr) ID_ANC_COUNTER (value_out gr) 0 s5)
    as [gp s6].
  simpl in K5.
  assert (keeps [motorAxisCommError] a2 (axis_out gr)) as K34.
  { eapply keeps_trans; [|exact K4|reflexivity|reflexivity]. keeps_tac. }
  assert (keeps [motorAxisCommError] a2 (axis_out gp)) as K35.
  { eapply keeps_trans; [exact K34|exact K5| |]; mem_tac. }
  destruct (decide (ret_status gp = asynSuccess_int)) as [Hp|Hp].
  - destruct (update_position (axis_out gp) (value_out gp) _)
      as [[ap po] d] eqn:Eu.
    unfold ret. cbn [fst snd]. intros [= <-].
    cbn [value reference_used pos_status humpstatus ref_status hump direction
         position].
    exists (axis_out gp).
    rewrite !(decide_True (P := ret_status gp = asynSuccess_int)) by done.
    rewrite Eu. cbn [fst snd].
    split; [eapply keeps_trans; [exact K2|exact K35| |]; mem_tac|].
    split; [intros Hh; destruct (K2' Hh) as [K Hz]; split; [|done];
            eapply keeps_trans; [exact K|exact K35| |]; mem_tac|].
    split; [|done].
    intros Hr. rewrite decide_False by done. symmetry.
    destruct K34 as (_ & _ & Href & _). destruct K2 as (_ & _ & Href2 & _).
    congruence.
  - unfold ret. cbn [fst snd]. intros [= <-].
    cbn [value reference_used pos_status humpstatus ref_status hump direction
         position].
    exists (axis_out gp).
    rewrite !(decide_False (P := ret_status gp = asynSuccess_int)) by done.
    split; [eapply keeps_trans; [exact K2|exact K35| |]; mem_tac|].
    split; [intros Hh; destruct (K2' Hh) as [K Hz]; split; [|done];
            eapply keeps_trans; [exact K|exact K35| |]; mem_tac|].
    split; [|done].
    intros Hr. rewrite decide_False by done. symmetry.
    destruct K34 as (_ & _ & Href & _). destruct K2 as (_ & _ & Href2 & _).
    congruence.
Qed.

Lemma update_limits_keeps (fs : list motorAxisParam_t) (a b : motorAxis)
    (hump humpstatus direction : Z) :
  keeps fs a b → motorAxisHighHardLimit ∈ fs → motorAxisLowHardLimit ∈ fs →
  keeps fs a (update_limits b hump humpstatus direction).
Proof.
  intros K Hh Hl. unfold update_limits.
  repeat case_decide; repeat apply keeps_set_param; done.
Qed.

Lemma update_limits_no_hump (a : motorAxis) (hump humpstatus direction : Z) :
  hump = 0 ∨ humpstatus ≠ asynSuccess_int →
  params (update_limits a hump humpstatus direction) !! motorAxisHighHardLimit
  = Some 0
  ∧ params (update_limits a hump humpstatus direction) !! motorAxisLowHardLimit
    = Some 0.
Proof.
  intros Hh. unfold update_limits.
  rewrite decide_False by (intros [? ?]; destruct Hh; done).
  unfold set_param, setInteger. simpl.
  rewrite lookup_insert_eq. rewrite lookup_insert_ne by done.
  by rewrite lookup_insert_eq.
Qed.

Lemma update_position_spec (a : motorAxis) (value reference_position : Z) :
  let r := update_position a value reference_position in
  r.1.2 = value - reference_position
  ∧ r.2 = (if decide (r.1.2 - previous_position a > 500) then 1
           else if decide (r.1.2 - previous_position a < -500) then 0
           else previous_direction a)
  ∧ previous_position r.1.1 = r.1.2
  ∧ previous_direction r.1.1 = r.2
  ∧ Anc350AsynMotor.reference_position r.1.1 = reference_position
  ∧ params r.1.1 !! motorAxisDirection = Some r.2
  ∧ ∀ f, f ∉ [motorAxisDirection; motorAxisPosition; motorAxisEncoderPosn] →
         params r.1.1 !! f = params a !! f.
Proof.
  unfold update_position, set_param, setInteger, setDouble. simpl.
  repeat split; try done.
  - rewrite !lookup_insert_ne by done. by rewrite lookup_insert_eq.
  - intros f Hf. rewrite !elem_of_cons, elem_of_nil in Hf.
    rewrite !lookup_insert_ne by (intros <-; apply Hf; auto). done.
Qed.

(** C6. In a poll that reads the counter, with cached previous position [P]
    and previous direction [D], and with [pos] the position of this poll
    (the counter reading minus the reference position in effect; the
    reading itself when that is 0): if [pos] is within [P ± 499] the
    published direction is [D]; if [pos ≥ P + 501] it is 1 (forward); if
    [pos ≤ P - 501] it is 0 (backward); and the cached previous position and
    direction become [pos] and the published direction. *)
Theorem C6_direction_deadband (pAxis : motorAxis) (globalStatus : Z)
    (s : state W) (p : poll) (pos : Z) :
  let r := drvAnc350GetAxisStatus pAxis globalStatus s in
  let P := previous_position pAxis in
  let D := previous_direction pAxis in
  r.1.2 = Some p → position p = Some pos →
  pos_status p = asynSuccess_int
  ∧ pos = value p - reference_used p
  ∧ (P - 499 ≤ pos ≤ P + 499 → params r.1.1 !! motorAxisDirection = Some D)
  ∧ (P + 501 ≤ pos → params r.1.1 !! motorAxisDirection = Some 1)
  ∧ (pos ≤ P - 501 → params r.1.1 !! motorAxisDirection = Some 0)
  ∧ previous_position r.1.1 = pos
  ∧ params r.1.1 !! motorAxisDirection = Some (previous_direction r.1.1)
  ∧ direction p = previous_direction r.1.1.
Proof.
  intros r P D Hp Hpos.
  destruct (poll_spec pAxis globalStatus s p Hp)
    as (a1 & K & _ & _ & Hr & Hposn & Hdir).
  fold r in Hr. rewrite Hpos in Hposn.
  destruct (decide (pos_status p = asynSuccess_int)) as [Hok|Hok]; [|done].
  injection Hposn as Hposn.
  pose proof (update_position_spec a1 (value p) (reference_used p)) as U.
  cbn zeta in U. destruct U as (U1 & U2 & U3 & U4 & _ & U6 & _).
  set (u := update_position a1 (value p) (reference_used p)) in *.
  assert (keeps [motorAxisHighHardLimit; motorAxisLowHardLimit; motorAxisProblem]
            u.1.1 r.1.1) as (Kp & Kd & _ & Kf).
  { rewrite Hr. apply keeps_set_param; [|mem_tac].
    apply update_limits_keeps; [apply keeps_refl|mem_tac|mem_tac]. }
  assert (params r.1.1 !! motorAxisDirection = Some u.2) as Hd.
  { rewrite Kf; [done|]. rewrite !elem_of_cons, elem_of_nil.
    intros [?|[?|[?|[]]]]; done. }
  destruct K as (Kp1 & Kd1 & _ & _).
  rewrite Hd, Kp, Kd, U3, U4, Hdir. subst pos.
  split; [done|]. split; [done|].
  rewrite U2, Kp1, Kd1. fold P D.
  split; [|split; [|split]]; [..|done].
  - intros HP. by rewrite !decide_False by lia.
  - intros HP. by rewrite decide_True by lia.
  - intros HP. rewrite decide_False by lia. by rewrite decide_True by lia.
Qed.

(** C7 (as amended). In a poll, a failed status read leaves the done, homed
    and home-signal parameters unchanged and puts both hard-limit parameters
    to 0; a failed reference-position read leaves the cached reference
    position unchanged; a failed position read leaves the cached position
    and direction and the published direction and positions unchanged. *)
Theorem C7_failed_reads_keep_cache (pAxis : motorAxis) (globalStatus : Z)
    (s : state W) (p : poll) :
  let r := drvAnc350GetAxisStatus pAxis globalStatus s in
  r.1.2 = Some p →
  (humpstatus p ≠ asynSuccess_int →
     params r.1.1 !! motorAxisDone = params pAxis !! motorAxisDone
     ∧ params r.1.1 !! motorAxisHomed = params pAxis !! motorAxisHomed
     ∧ params r.1.1 !! motorAxisHomeSignal = params pAxis !! motorAxisHomeSignal
     ∧ params r.1.1 !! motorAxisHighHardLimit = Some 0
     ∧ params r.1.1 !! motorAxisLowHardLimit = Some 0)
  ∧ (ref_status p ≠ asynSuccess_int →
       reference_position r.1.1 = reference_position pAxis)
  ∧ (pos_status p ≠ asynSuccess_int →
       previous_position r.1.1 = previous_position pAxis
       ∧ previous_direction r.1.1 = previous_direction pAxis
       ∧ params r.1.1 !! motorAxisDirection = params pAxis !! motorAxisDirection
       ∧ params r.1.1 !! motorAxisPosition = params pAxis !! motorAxisPosition
       ∧ params r.1.1 !! motorAxisEncoderPosn
         = params pAxis !! motorAxisEncoderPosn).
Proof.
  intros r Hp.
  destruct (poll_spec pAxis globalStatus s p Hp)
    as (a1 & K & Khump & Kref & Hr & _ & _).
  fold r in Hr.
  pose proof (update_position_spec a1 (value p) (reference_used p)) as U.
  cbn zeta in U. destruct U as (_ & _ & _ & _ & U5 & _ & U7).
  set (u := update_position a1 (value p) (reference_used p)) in *.
  set (a2 := if decide (pos_status p = asynSuccess_int) then u.1.1 else a1) in *.
  assert (keeps [motorAxisHighHardLimit; motorAxisLowHardLimit; motorAxisProblem]
            a2 r.1.1) as (Kp & Kd & Kr & Kf).
  { rewrite Hr. apply keeps_set_param; [|mem_tac].
    apply update_limits_keeps; [apply keeps_refl|mem_tac|mem_tac]. }
  split; [|split].
  - intros Hh. destruct (Khump Hh) as [(_ & _ & _ & Kf1) Hz].
    assert (∀ f, f ∈ [motorAxisDone; motorAxisHomed; motorAxisHomeSignal] →
                 params r.1.1 !! f = params pAxis !! f) as Hsame.
    { intros f Hf. rewrite !elem_of_cons, elem_of_nil in Hf.
      rewrite Kf by (rewrite !elem_of_cons, elem_of_nil;
                     intros [->|[->|[->|[]]]]; destruct Hf as [?|[?|[?|[]]]]; done).
      subst a2. case_decide.
      - rewrite U7 by (rewrite !elem_of_cons, elem_of_nil;
                       intros [->|[->|[->|[]]]]; destruct Hf as [?|[?|[?|[]]]]; done).
        apply Kf1. rewrite !elem_of_cons, elem_of_nil.
        intros [->|[]]; destruct Hf as [?|[?|[?|[]]]]; done.
      - apply Kf1. rewrite !elem_of_cons, elem_of_nil.
        intros [->|[]]; destruct Hf as [?|[?|[?|[]]]]; done. }
    rewrite !Hsame by mem_tac.
    split; [done|]. split; [done|]. split; [done|].
    assert (∀ a, params (set_param a motorAxisProblem globalStatus)
                 !! motorAxisHighHardLimit = params a !! motorAxisHighHardLimit
               ∧ params (set_param a motorAxisProblem globalStatus)
                 !! motorAxisLowHardLimit = params a !! motorAxisLowHardLimit)
      as Hpb.
    { intros a. unfold set_param, setInteger. simpl.
      by rewrite !lookup_insert_ne by done. }
    rewrite Hr. destruct (Hpb (update_limits a2 (hump p) (humpstatus p) (direction p)))
      as [-> ->].
    apply update_limits_no_hump. by left.
  - intros Hrf. rewrite Kr. subst a2. case_decide.
    + rewrite U5. by apply Kref.
    + by destruct K as (_ & _ & ? & _).
  - intros Hps. subst a2. rewrite decide_False in * by done.
    destruct K as (Kp1 & Kd1 & _ & Kf1).
    rewrite Kp, Kd.
    rewrite !Kf by (rewrite !elem_of_cons, elem_of_nil;
                    intros [?|[?|[?|[]]]]; done).
    rewrite !Kf1 by (rewrite !elem_of_cons, elem_of_nil;
                     intros [?|[?|[?|[?|[]]]]]; done).
    done.
Qed.
End PollFacts.

(** ** The motor driver: communication health and set operations *)

Section HealthTheorems.
Import Anc350AsynMotor.
Context {W : Type} `{!Externals W}.

(** C4 (as amended). Starting from a zero consecutive-failure count and a
    clear comm-error flag, up to 200 consecutive failed get exchanges leave
    the flag clear (the count being the number of failures); from the 201st
    consecutive failure on the flag is set; and one subsequent successful
    exchange puts the count back to zero and clears the flag. *)
Theorem C4_comm_error_latch (pAxis : motorAxis) (locs : list Z) (value : Z)
    (s : state W) :
  let r := motorAxisGet_seq pAxis locs value s in
  comms s = 0 → comm_error pAxis = false →
  Forall (λ st, st = MOTOR_AXIS_ERROR) r.1.1.1 →
  Z.of_nat (List.length locs) < 2 ^ 31 →
  comms r.2 = Z.of_nat (List.length locs)
  ∧ (Z.of_nat (List.length locs) ≤ 200 → comm_error r.1.2 = false)
  ∧ (200 < Z.of_nat (List.length locs) → comm_error r.1.2 = true)
  ∧ ∀ location : Z,
      let g := motorAxisGet r.1.2 location r.1.1.2 0 r.2 in
      ret_status g.1 = MOTOR_AXIS_OK →
      comms g.2 = 0
      ∧ params (axis_out g.1) !! motorAxisCommError = Some 0
      ∧ comm_error (axis_out g.1) = false.
Proof.
  intros r Hc Hf Hall Hlen.
  destruct (motorAxisGet_seq_errors pAxis locs value s Hall) as (Hc' & _ & Hf');
    [lia|lia|].
  fold r in Hc', Hf'. rewrite Hc, Hf in *. simpl in Hf'.
  split; [lia|]. split; [|split].
  - intros Hle. rewrite Hf'.
    rewrite (bool_decide_false (_ > 200)) by lia. by rewrite andb_false_r.
  - intros Hgt. rewrite Hf'.
    rewrite (bool_decide_true (_ > 200)) by lia.
    rewrite bool_decide_true; [done|]. intros ->. simpl in Hgt. lia.
  - intros location g Hok.
    destruct (motorAxisGet_spec r.1.2 location r.1.1.2 0 r.2)
      as [_ [(_ & _ & _ & _ & _ & Hc0 & Ha)|(Herr & _)]].
    + fold g in Hc0, Ha. rewrite Hc0, Ha, comm_error_set.
      split; [done|]. split; [|done].
      unfold set_param, setInteger. simpl. by rewrite lookup_insert_eq.
    + fold g in Herr. rewrite Herr in Hok. discriminate.
Qed.

Lemma motorAxisSet_trace (pAxis : motorAxis) (location value logGlobal : Z)
    (s : state W) :
  ∃ (u : asynUser) (msg : list byte),
    trace (io (motorAxisSet pAxis location value logGlobal s).2)
    = trace (io s) ++ [EvSyncWrite u msg].
Proof.
  unfold motorAxisSet, bind.
  pose proof (next_localMid_frame s) as (_ & Ht1).
  destruct (next_localMid s) as [lm s1].
  match goal with |- context [liftW (call_syncio_write ?u ?m) ?s] =>
    pose proof (syncio_write_frame u m s) as (_ & _ & Ht2);
    destruct (liftW (call_syncio_write u m) s) as [[st n] s2];
    exists u, m end.
  cbn beta iota.
  cbn [snd] in Ht1, Ht2.
  destruct (decide (st ≠ asynSuccess)); unfold ret; cbn [snd]; by rewrite Ht2, Ht1.
Qed.

Lemma axis_at_store_ne (pFirstDrv : list drvAnc350) (h h' : AXIS_HDL)
    (a : motorAxis) :
  h' ≠ h → axis_at (axis_store pFirstDrv h a) h' = axis_at pFirstDrv h'.
Proof.
  intros Hne. unfold axis_at, axis_store.
  destruct (decide (h.1 = h'.1)) as [Heq|Hd].
  - rewrite <- Heq. rewrite list_lookup_alter. rewrite decide_True by done.
    destruct (pFirstDrv !! h.1) as [d|]; simpl; [|done].
    apply list_lookup_insert_ne. intros H2. apply Hne.
    destruct h, h'; simpl in *; congruence.
  - by rewrite list_lookup_alter_ne.
Qed.

(** C9 (as amended). The consecutive-failure count is one file-scope
    counter shared by all controllers: a get exchange on any axis of any
    controller puts it to zero (success) or increments it (failure).  The
    exchange changes nothing of any other axis, of the same or of another
    controller, and of its own axis only the comm-error parameter. *)
Theorem C9_shared_failure_count (h : AXIS_HDL) (location value : Z)
    (pFirstDrv : list drvAnc350) (s : state W) :
  let r := motorAxisGet_at h location value pFirstDrv s in
  (∀ h' : AXIS_HDL, h' ≠ h → axis_at r.1.2 h' = axis_at pFirstDrv h')
  ∧ (∀ g : get_result, r.1.1 = Some g →
       comms r.2 = (if decide (ret_status g = MOTOR_AXIS_OK) then 0
                    else Int32_wrap (comms s + 1))
       ∧ ∃ pAxis, axis_at pFirstDrv h = Some pAxis
           ∧ keeps [motorAxisCommError] pAxis (axis_out g))
  ∧ (r.1.1 = None → r.2 = s ∧ r.1.2 = pFirstDrv).
Proof.
  unfold motorAxisGet_at.
  destruct (axis_at pFirstDrv h) as [pAxis|] eqn:Hax.
  - unfold bind, ret.
    pose proof (motorAxisGet_spec pAxis location value 0 s) as Hg.
    pose proof (motorAxisGet_keeps pAxis location value 0 s) as Hk.
    destruct (motorAxisGet pAxis location value 0 s) as [g s1].
    cbn zeta in Hg. simpl in Hg, Hk |- *.
    split; [intros h' Hne; by apply axis_at_store_ne|].
    split; [|done].
    intros g' [= <-]. split; [|by exists pAxis].
    destruct Hg as [_ [(Hok & _ & _ & _ & _ & Hc & _)|(Herr & _ & _ & _ & Hc & _)]].
    + by rewrite decide_True.
    + rewrite decide_False; [done|]. rewrite Herr. done.
  - unfold ret. simpl. done.
Qed.
End HealthTheorems.

(** ** The motor driver on concrete runs *)

Import Anc350AsynMotor Scenario.

(** C4, as stated, fails: after 200 consecutive failed exchanges from a zero
    count the comm-error flag is not set. *)
Lemma C4_comm_error_latch_counterexample :
  let r := motorAxisGet_seq ax0 (status_reads 200) 0 (st0 (timeouts 200)) in
  comms (st0 (timeouts 200)) = 0 ∧ comm_error ax0 = false
  ∧ r.1.1.1 = replicate 200 MOTOR_AXIS_ERROR
  ∧ comm_error r.1.2 ≠ true.
Proof. vm_compute. repeat split; congruence. Qed.

(** C4 on a run of 201 time-outs followed by a matching reply. *)
Lemma C4_comm_error_latch_witness :
  let s := st0 (timeouts 201 ++ [(asynSuccess, Sim.ack 202 7)]) in
  let r := motorAxisGet_seq ax0 (status_reads 201) 0 s in
  let g := motorAxisGet r.1.2 ID_ANC_STATUS r.1.1.2 0 r.2 in
  comms r.2 = 201 ∧ comm_error r.1.2 = true
  ∧ ret_status g.1 = MOTOR_AXIS_OK ∧ comms g.2 = 0
  ∧ comm_error (axis_out g.1) = false.
Proof.
  intros s r g.
  assert (Forall (λ st, st = MOTOR_AXIS_ERROR) r.1.1.1) as Hall.
  { apply (bool_decide_unpack _). vm_compute. exact I. }
  assert (Z.of_nat (List.length (status_reads 201)) < 2 ^ 31) as Hlen
    by (vm_compute; reflexivity).
  destruct (C4_comm_error_latch ax0 (status_reads 201) 0 s eq_refl eq_refl Hall Hlen)
    as (Hc & _ & Ht & Hs).
  assert (ret_status g.1 = MOTOR_AXIS_OK) as Hok by (vm_compute; reflexivity).
  destruct (Hs ID_ANC_STATUS Hok) as (Hc0 & _ & Hf).
  split; [exact Hc|]. split; [apply Ht; vm_compute; reflexivity|].
  split; [exact Hok|]. split; [exact Hc0|exact Hf].
Defined.

(** C8. [motorAxisSet] makes one transport call, the write of the request,
    and reads no acknowledgement; on a transport that accepts the write
    and never replies it returns [MOTOR_AXIS_OK]. *)
Theorem C8_motorAxisSet_ok_without_ack :
  (∀ (W : Type) (E : Externals W) (pAxis : motorAxis)
     (location value logGlobal : Z) (s : state W),
     ∃ (u : asynUser) (msg : list byte),
       trace (io (motorAxisSet pAxis location value logGlobal s).2)
       = trace (io s) ++ [EvSyncWrite u msg])
  ∧ (let r := motorAxisSet ax0 ID_ANC_SGL_FWD 1 0 (st0 []) in
     Sim.reads (ext (io (st0 []))) = []
     ∧ r.1 = MOTOR_AXIS_OK
     ∧ read_requests (trace (io r.2)) = []
     ∧ transmissions (trace (io r.2)) = 1%nat).
Proof.
  split.
  - intros W E pAxis location value logGlobal s. apply motorAxisSet_trace.
  - vm_compute. done.
Qed.

(** C9, as stated, fails: 200 failed exchanges on controller 0 leave the axis
    of controller 1 untouched, yet the first failed exchange on controller 1
    then raises its comm error, which it does not when controller 0 had no
    failures. *)
Lemma C9_shared_failure_count_counterexample :
  let s0 := st0 [] in
  let A := motorAxisGet_at_n 200 (0, 0)%nat ID_ANC_STATUS 0 two_cards s0 in
  let after_A := motorAxisGet_at (1, 0)%nat ID_ANC_STATUS 0 A.1 A.2 in
  let alone := motorAxisGet_at (1, 0)%nat ID_ANC_STATUS 0 two_cards s0 in
  axis_at A.1 (1, 0)%nat = axis_at two_cards (1, 0)%nat
  ∧ comms s0 = 0 ∧ comms A.2 = 200
  ∧ comm_error <$> axis_at after_A.1.2 (1, 0)%nat = Some true
  ∧ comm_error <$> axis_at alone.1.2 (1, 0)%nat = Some false.
Proof. vm_compute. done. Qed.

(** C9 on a failed exchange on controller 0 of two. *)
Lemma C9_shared_failure_count_witness :
  let r := motorAxisGet_at (0, 0)%nat ID_ANC_STATUS 0 two_cards (st0 []) in
  axis_at r.1.2 (1, 0)%nat = axis_at two_cards (1, 0)%nat
  ∧ comms r.2 = 1.
Proof.
  intros r.
  destruct (C9_shared_failure_count (0, 0)%nat ID_ANC_STATUS 0 two_cards (st0 []))
    as (Hother & Hcount & _).
  split.
  - apply Hother. intros [=].
  - destruct r.1.1 as [g|] eqn:Hg; [|vm_compute in Hg; discriminate].
    destruct (Hcount g Hg) as [Hc _]. fold r in Hc. rewrite Hc.
    assert (ret_status g = MOTOR_AXIS_ERROR) as ->.
    { vm_compute in Hg. by injection Hg as <-. }
    reflexivity.
Defined.

(** C7, as stated, fails: a failed status read clears a hard-limit flag that
    was set; and a failed amplitude read replaces the cached amplitude by
    what [value] still holds (here the status word read before). *)
Lemma C7_failed_reads_keep_cache_counterexample :
  (let r := drvAnc350GetAxisStatus ax_limit 0 (st0 []) in
   humpstatus <$> r.1.2 = Some MOTOR_AXIS_ERROR
   ∧ params ax_limit !! motorAxisHighHardLimit = Some 1
   ∧ params r.1.1 !! motorAxisHighHardLimit = Some 0)
  ∧ (let r := drvAnc350GetAxisStatus ax_limit 0
                (st0 [(asynSuccess, Sim.ack 1 2048)]) in
     ampl_status <$> r.1.2 = Some MOTOR_AXIS_ERROR
     ∧ amplitude ax_limit = 30000
     ∧ amplitude r.1.1 = 2048).
Proof. vm_compute. done. Qed.

(** C7 on a poll in which every read times out. *)
Lemma C7_failed_reads_keep_cache_witness :
  let r := drvAnc350GetAxisStatus ax_limit 0 (st0 []) in
  params r.1.1 !! motorAxisDone = params ax_limit !! motorAxisDone
  ∧ params r.1.1 !! motorAxisLowHardLimit = Some 0
  ∧ reference_position r.1.1 = reference_position ax_limit
  ∧ previous_position r.1.1 = previous_position ax_limit.
Proof.
  intros r.
  assert (r.1.2 = Some (Poll (-1) (-1) (-1) (-1) 0 None 0 0 0)) as Hp
    by (vm_compute; reflexivity).
  destruct (C7_failed_reads_keep_cache ax_limit 0 (st0 []) _ Hp) as (H1 & H2 & H3).
  destruct H1 as (Hd & _ & _ & _ & Hl); [vm_compute; discriminate|].
  destruct H3 as (Hpp & _); [vm_compute; discriminate|].
  split; [exact Hd|]. split; [exact Hl|]. split; [|exact Hpp].
  apply H2. vm_compute; discriminate.
Defined.

(** C6 on a poll that reads reference position 100 and counter 700 with
    nothing cached. *)
Lemma C6_direction_deadband_witness :
  let s := st0 [(asynSuccess, Sim.ack 1 0); (asynSuccess, Sim.ack 2 30000);
                (asynSuccess, Sim.ack 3 100); (asynSuccess, Sim.ack 4 700)] in
  let r := drvAnc350GetAxisStatus ax0 0 s in
  params r.1.1 !! motorAxisDirection = Some 1
  ∧ previous_position r.1.1 = 600.
Proof.
  intros s r.
  assert (r.1.2 = Some (Poll 0 0 0 0 700 (Some 600) 100 1 0)) as Hp
    by (vm_compute; reflexivity).
  destruct (C6_direction_deadband ax0 0 s _ 600 Hp eq_refl)
    as (_ & _ & _ & Hfwd & _ & Hprev & _).
  split; [apply Hfwd; vm_compute; discriminate|exact Hprev].
Defined.

(** ** The device support: reading a reply *)

Section DevFacts.
Import DevAnc350.
Context {W : Type} `{!Externals W}.

Lemma alloca_spec (n : nat) (w : world W) :
  trace (alloca n w).2 = trace w ∧ List.length (alloca n w).1 = n.
Proof.
  unfold alloca. destruct (indeterminate n (ext w)) as [bs e]. simpl.
  split; [done|]. rewrite length_take, length_app, length_replicate. lia.
Qed.

Lemma lock_spec (m : mutexId) (w : world W) : trace (lock m w).2 = trace w.
Proof. unfold lock. by destruct (epicsMutexLock m (ext w)). Qed.

Lemma flushIt_spec (u : asynUser) (w : world W) :
  trace (flushIt u w).2 = trace w ++ [EvFlush u].
Proof. unfold flushIt, call_flush. by destruct (octet_flush u (ext w)). Qed.

Lemma writeIt_spec (u : asynUser) (precord : dbCommon) (message : list byte)
    (nbytes : nat) (w : world W) :
  trace (writeIt u precord message nbytes w).2
  = trace w ++ [EvWrite u (take nbytes message)]
  ∧ udf (writeIt u precord message nbytes w).1.2 = udf precord.
Proof.
  unfold writeIt, call_write, bind, ret, recGblSetSevr.
  destruct (octet_write u (take nbytes message) (ext w)) as [[st n] e].
  repeat case_decide; done.
Qed.

Lemma read_step_spec (u : asynUser) (maxBytes : locals → nat) (l : locals)
    (w : world W) :
  let r := read_step u maxBytes (l, w) in
  tel r.1 = tel l ∧ matched r.1 = matched l ∧ msgretries r.1 = msgretries l
  ∧ retries r.1 = retries l + 1
  ∧ trace r.2 = trace w ++ [EvRead u (maxBytes l)].
Proof.
  unfold read_step, readIt, call_read, bind, ret.
  destruct (octet_read u (maxBytes l) (ext w)) as [[st bs] e]. done.
Qed.

Lemma read_prefix_spec (u : asynUser) (l : locals) (w : world W) :
  retries l = 0 → nBytesRead l = 0%nat →
  let r := read_prefix u (l, w) in
  tel r.1 = tel l ∧ matched r.1 = matched l ∧ msgretries r.1 = msgretries l
  ∧ trace r.2 = trace w ++ [EvRead u 4] ∧ prefix_cond r = false.
Proof.
  intros Hr Hn. unfold read_prefix. cbn [fst]. rewrite Hr.
  change (Z.to_nat (1 - 0)) with 1%nat. cbn [while].
  assert (prefix_cond (l, w) = true) as ->.
  { unfold prefix_cond. cbn [fst]. rewrite Hr, Hn.
    by rewrite !bool_decide_true by done. }
  pose proof (read_step_spec u (λ _, UcProtocol.sizeof_Int32) l w)
    as (Ht & Hm & Hms & Hrt & Htr).
  destruct (read_step u _ (l, w)) as [l' w']. cbn [fst snd] in *.
  repeat split; try done.
  unfold prefix_cond. cbn [fst]. rewrite Hrt, Hr.
  rewrite (bool_decide_false (0 + 1 < 1)) by lia. apply andb_false_r.
Qed.

Lemma read_body_spec (u : asynUser) (bound : Z) (l : locals) (w : world W) :
  retries l = 0 → 0 ≤ bound →
  let r := read_body u bound (l, w) in
  tel r.1 = tel l ∧ matched r.1 = matched l ∧ msgretries r.1 = msgretries l
  ∧ (∃ k : nat,
       Z.of_nat k ≤ bound
       ∧ trace r.2
         = trace w
           ++ replicate k (EvRead u (Z.to_nat (UcProtocol.ack_length (tel l)))))
  ∧ body_cond bound r = false.
Proof.
  intros Hr Hb r.
  assert (body_cond bound r = false) as Hexit.
  { subst r. unfold read_body.
    apply (while_exits (λ s : locals * world W, retries s.1) bound).
    - intros [l' w']. unfold body_cond. cbn [fst]. intros Hc.
      apply andb_true_iff in Hc as [_ Hc]. by apply bool_decide_eq_true in Hc.
    - intros [l' w']. cbn [fst].
      by destruct (read_step_spec u (λ l, Z.to_nat (UcProtocol.ack_length (tel l)))
                     l' w') as (_ & _ & _ & ? & _). }
  enough (tel r.1 = tel l ∧ matched r.1 = matched l ∧ msgretries r.1 = msgretries l
          ∧ 0 ≤ retries r.1 ≤ bound
          ∧ trace r.2
            = trace w
              ++ replicate (Z.to_nat (retries r.1))
                   (EvRead u (Z.to_nat (UcProtocol.ack_length (tel l)))))
    as (Ht & Hm & Hms & Hrt & Htr).
  { repeat split; try done. exists (Z.to_nat (retries r.1)). split; [lia|done]. }
  subst r. unfold read_body.
  apply (while_inv (λ s : locals * world W,
           tel s.1 = tel l ∧ matched s.1 = matched l ∧ msgretries s.1 = msgretries l
           ∧ 0 ≤ retries s.1 ≤ bound
           ∧ trace s.2
             = trace w
               ++ replicate (Z.to_nat (retries s.1))
                    (EvRead u (Z.to_nat (UcProtocol.ack_length (tel l)))))).
  - cbn [fst snd]. rewrite Hr. simpl. rewrite app_nil_r. repeat split; done || lia.
  - intros [l' w'] (Ht & Hm & Hms & Hrt & Htr) Hc. cbn [fst snd] in *.
    unfold body_cond in Hc. cbn [fst] in Hc.
    apply andb_true_iff in Hc as [_ Hc]. apply bool_decide_eq_true in Hc.
    destruct (read_step_spec u (λ l, Z.to_nat (UcProtocol.ack_length (tel l))) l' w')
      as (Ht' & Hm' & Hms' & Hrt' & Htr').
    destruct (read_step u _ (l', w')) as [l'' w'']. cbn [fst snd] in *.
    rewrite Ht', Hm', Hms', Hrt', Htr', Htr, Ht.
    repeat split; try done; try lia.
    rewrite <- app_assoc. f_equal.
    replace (Z.to_nat (retries l' + 1)) with (S (Z.to_nat (retries l'))) by lia.
    by rewrite replicate_S_end.
Qed.

Lemma begin_body_spec (l : locals) :
  (4 ≤ List.length (tel l))%nat →
  UcProtocol.ack_length (tel (begin_body l)) = 24
  ∧ retries (begin_body l) = 0 ∧ matched (begin_body l) = matched l
  ∧ msgretries (begin_body l) = msgretries l ∧ status (begin_body l) = status l.
Proof.
  intros Hlen. unfold begin_body. cbn [tel retries matched msgretries status].
  repeat split.
  set (tel1 := copy_raw _ _ _ _).
  assert (4 ≤ List.length tel1)%nat as Hlen1
    by (subst tel1; by rewrite length_copy_raw).
  destruct (decide (UcProtocol.ack_length tel1 ≠ 24)) as [Hne|He].
  - by apply ack_length_store.
  - destruct (decide (UcProtocol.ack_length tel1 = 24)); [done|]. by destruct He.
Qed.

Lemma end_body_spec (l : locals) :
  status (end_body l) = status l ∧ matched (end_body l) = matched l
  ∧ msgretries (end_body l) = msgretries l.
Proof. unfold end_body. by case_decide. Qed.

Lemma reply_loop_spec {R} (u : asynUser) (localMid bound : Z)
    (on_match : list byte → R → R) (l : locals) (r : R) (w : world W) :
  retries l = 0 → nBytesRead l = 0%nat → matched l = 0 → msgretries l = 0 →
  0 ≤ bound → (4 ≤ List.length (tel l))%nat →
  let x := reply_loop u localMid bound on_match (l, r, w) in
  (if decide (UcProtocol.ack_correlationNumber (tel x.1.1) = localMid
              ∧ status x.1.1 = asynSuccess)
   then matched x.1.1 = 1 ∧ x.1.2 = on_match (tel x.1.1) r
   else matched x.1.1 = 0 ∧ x.1.2 = r)
  ∧ (∃ k : nat,
       Z.of_nat k ≤ bound
       ∧ trace x.2 = trace w ++ EvRead u 4 :: replicate k (EvRead u 24))
  ∧ reply_cond x = false.
Proof.
  intros Hr Hn Hm Hms Hb Hlen. unfold reply_loop. cbn [fst]. rewrite Hms.
  change (Z.to_nat (1 - 0)) with 1%nat. cbn [while].
  assert (reply_cond (l, r, w) = true) as ->.
  { unfold reply_cond. cbn [fst]. rewrite Hm, Hms.
    by rewrite !bool_decide_true by done. }
  unfold reply_pass.
  pose proof (read_prefix_spec u l w Hr Hn) as (Ht1 & Hm1 & Hms1 & Htr1 & _).
  destruct (read_prefix u (l, w)) as [l1 w1]. cbn [fst snd] in *.
  assert (4 ≤ List.length (tel l1))%nat as Hlen1 by (by rewrite Ht1).
  destruct (decide (status l1 = asynSuccess)) as [Hs1|Hs1].
  - pose proof (begin_body_spec l1 Hlen1) as (H24 & Hr2 & Hm2 & Hms2 & _).
    pose proof (read_body_spec u bound (begin_body l1) w1 Hr2 Hb)
      as (Ht3 & Hm3 & Hms3 & (k & Hk & Htr3) & _).
    destruct (read_body u bound (begin_body l1, w1)) as [l3 w3].
    cbn [fst snd] in *.
    pose proof (end_body_spec l3) as (_ & Hm4 & Hms4).
    rewrite H24 in Htr3. change (Z.to_nat 24) with 24%nat in Htr3.
    destruct (decide (UcProtocol.ack_correlationNumber (tel (end_body l3)) = localMid
                      ∧ status (end_body l3) = asynSuccess)) as [Hok|Hno];
      cbn [fst snd tel status matched msgretries].
    + rewrite decide_True by done. split; [by split|]. split.
      * exists k. split; [done|]. rewrite Htr3, Htr1, <- app_assoc. done.
      * unfold reply_cond. cbn [fst matched]. done.
    + rewrite decide_False by done. split; [split; [congruence|done]|]. split.
      * exists k. split; [done|]. rewrite Htr3, Htr1, <- app_assoc. done.
      * unfold reply_cond. cbn [fst matched msgretries].
        rewrite Hms4, Hms3, Hms2, Hms1, Hms.
        rewrite (bool_decide_false (0 + 1 < 1)) by lia. apply andb_false_r.
  - destruct (decide (UcProtocol.ack_correlationNumber (tel l1) = localMid
                      ∧ status l1 = asynSuccess)) as [[_ ?]|_]; [done|].
    cbn [fst snd tel status matched msgretries].
    rewrite decide_False by (intros [_ ?]; done).
    split; [split; [congruence|done]|]. split.
    + exists 0%nat. split; [lia|]. by rewrite Htr1.
    + unfold reply_cond. cbn [fst matched msgretries]. rewrite Hms1, Hms.
      rewrite (bool_decide_false (0 + 1 < 1)) by lia. apply andb_false_r.
Qed.

(** What a callback does, by cases on the link parameter. *)
Lemma callbackLiRead_spec (pdevPvt : devPvt) (pli : longinRecord) (mid : Z)
    (w : world W) :
  let x := callbackLiRead pdevPvt pli mid w in
  let o := x.1.2 in
  (∃ lk, mid_increment lk mid = (localMid o, x.1.1))
  ∧ match userParam pdevPvt with
    | None =>
        frame o = None ∧ li_val (rec o) = li_val pli
        ∧ udf (li_common (rec o)) = udf (li_common pli)
        ∧ trace x.2 = trace w
    | Some _ =>
        ∃ l : locals,
          frame o = Some l
          ∧ (if decide (UcProtocol.ack_correlationNumber (tel l) = localMid o
                        ∧ status l = asynSuccess)
             then matched l = 1 ∧ li_val (rec o) = UcProtocol.ack_data0 (tel l)
                  ∧ udf (li_common (rec o)) = 0
             else matched l = 0 ∧ li_val (rec o) = li_val pli
                  ∧ udf (li_common (rec o)) = udf (li_common pli))
          ∧ ∃ (msg : list byte) (reads : list io_event),
              trace x.2
              = trace w ++ [EvFlush (pasynUser pdevPvt);
                            EvWrite (pasynUser pdevPvt) msg] ++ reads
              ∧ (reads = [] ∧ status l ≠ asynSuccess
                 ∨ ∃ k : nat,
                     Z.of_nat k ≤ 3
                     ∧ reads = EvRead (pasynUser pdevPvt) 4
                               :: replicate k (EvRead (pasynUser pdevPvt) 24))
    end.
Proof.
  unfold callbackLiRead, bind.
  pose proof (alloca_spec MAX_STRING_SIZE w) as [Ht1 _].
  destruct (alloca MAX_STRING_SIZE w) as [raw0 w1].
  pose proof (alloca_spec UcProtocol.sizeof_UcAckTelegram w1) as [Ht2 Hlen].
  destruct (alloca UcProtocol.sizeof_UcAckTelegram w1) as [tel0 w2].
  pose proof (alloca_spec 4 w2) as [Ht3 _].
  destruct (alloca 4 w2) as [cmd0 w3].
  pose proof (lock_spec midMutexId w3) as Ht4.
  destruct (lock midMutexId w3) as [lk w4].
  cbn [fst snd] in *.
  destruct (mid_increment lk mid) as [lm mid'] eqn:Hmid.
  destruct (userParam pdevPvt) as [param|].
  - pose proof (flushIt_spec (pasynUser pdevPvt) w4) as Ht5.
    destruct (flushIt (pasynUser pdevPvt) w4) as [fs w5].
    match goal with |- context [writeIt ?u ?c ?m ?n w5] =>
      pose proof (writeIt_spec u c m n w5) as [Ht6 Hudf];
      destruct (writeIt u c m n w5) as [[st c'] w6];
      set (msg := take n m) in * end.
    cbn [fst snd] in *.
    assert (trace w6 = trace w ++ [EvFlush (pasynUser pdevPvt);
                                   EvWrite (pasynUser pdevPvt) msg]) as Htw.
    { rewrite Ht6, Ht5, Ht4, Ht3, Ht2, Ht1, <- app_assoc. done. }
    destruct (decide (st = asynSuccess)) as [Hst|Hst].
    + pose proof (reply_loop_spec (pasynUser pdevPvt) lm 3 li_store
                    (Locals st 0 raw0 0 0 0 tel0) (LonginRecord c' (li_val pli)) w6
                    eq_refl eq_refl eq_refl eq_refl) as Hloop.
      cbn zeta in Hloop.
      destruct (reply_loop _ _ _ _ _) as [[l r] w7]. cbn [fst snd] in *.
      destruct Hloop as (Hmatch & (k & Hk & Htr) & _);
        [lia|cbn [tel]; rewrite Hlen; unfold UcProtocol.sizeof_UcAckTelegram; lia|].
      split; [by exists lk|]. exists l. split; [done|]. split.
      * destruct (decide (_ ∧ _)); destruct Hmatch as [Hm ->]; cbn; by repeat split.
      * exists msg, (EvRead (pasynUser pdevPvt) 4
                      :: replicate k (EvRead (pasynUser pdevPvt) 24)).
        split; [by rewrite Htr, Htw, <- !app_assoc|]. right. by exists k.
    + unfold ret. cbn [fst snd frame rec localMid].
      split; [by exists lk|]. eexists. split; [done|]. cbn [tel status matched].
      rewrite decide_False by (intros [_ ?]; done).
      split; [by repeat split|].
      exists msg, []. split; [by rewrite app_nil_r|by left].
  - unfold ret. cbn [fst snd frame rec localMid].
    split; [by exists lk|]. repeat split; try done.
    + unfold recGblSetSevr. by case_decide.
    + by rewrite Ht4, Ht3, Ht2, Ht1.
Qed.

Lemma callbackLoWrite_spec (pdevPvt : devPvt) (plo : longoutRecord) (mid : Z)
    (w : world W) :
  let x := callbackLoWrite pdevPvt plo mid w in
  let o := x.1.2 in
  (∃ lk, mid_increment lk mid = (localMid o, x.1.1))
  ∧ match userParam pdevPvt with
    | None =>
        frame o = None ∧ udf (lo_common (rec o)) = udf (lo_common plo)
        ∧ trace x.2 = trace w
    | Some _ =>
        ∃ l : locals,
          frame o = Some l
          ∧ (if decide (UcProtocol.ack_correlationNumber (tel l) = localMid o
                        ∧ status l = asynSuccess)
             then matched l = 1 ∧ udf (lo_common (rec o)) = 0
             else matched l = 0 ∧ udf (lo_common (rec o)) = udf (lo_common plo))
          ∧ ∃ (msg : list byte) (reads : list io_event),
              trace x.2
              = trace w ++ [EvFlush (pasynUser pdevPvt);
                            EvWrite (pasynUser pdevPvt) msg] ++ reads
              ∧ (reads = [] ∧ status l ≠ asynSuccess
                 ∨ ∃ k : nat,
                     Z.of_nat k ≤ 1
                     ∧ reads = EvRead (pasynUser pdevPvt) 4
                               :: replicate k (EvRead (pasynUser pdevPvt) 24))
    end.
Proof.
  unfold callbackLoWrite, bind.
  pose proof (alloca_spec MAX_STRING_SIZE w) as [Ht1 _].
  destruct (alloca MAX_STRING_SIZE w) as [raw0 w1].
  pose proof (alloca_spec UcProtocol.sizeof_UcAckTelegram w1) as [Ht2 Hlen].
  destruct (alloca UcProtocol.sizeof_UcAckTelegram w1) as [tel0 w2].
  pose proof (lock_spec midMutexId w2) as Ht4.
  destruct (lock midMutexId w2) as [lk w4].
  cbn [fst snd] in *.
  destruct (mid_increment lk mid) as [lm mid'] eqn:Hmid.
  destruct (userParam pdevPvt) as [param|].
  - pose proof (flushIt_spec (pasynUser pdevPvt) w4) as Ht5.
    destruct (flushIt (pasynUser pdevPvt) w4) as [fs w5].
    match goal with |- context [writeIt ?u ?c ?m ?n w5] =>
      pose proof (writeIt_spec u c m n w5) as [Ht6 Hudf];
      destruct (writeIt u c m n w5) as [[st c'] w6];
      set (msg := take n m) in * end.
    cbn [fst snd] in *.
    assert (trace w6 = trace w ++ [EvFlush (pasynUser pdevPvt);
                                   EvWrite (pasynUser pdevPvt) msg]) as Htw.
    { rewrite Ht6, Ht5, Ht4, Ht2, Ht1, <- app_assoc. done. }
    destruct (decide (st = asynSuccess)) as [Hst|Hst].
    + pose proof (reply_loop_spec (pasynUser pdevPvt) lm 1 lo_store
                    (Locals st 0 raw0 0 0 0 tel0) (LongoutRecord c' (lo_val plo)) w6
                    eq_refl eq_refl eq_refl eq_refl) as Hloop.
      cbn zeta in Hloop.
      destruct (reply_loop _ _ _ _ _) as [[l r] w7]. cbn [fst snd] in *.
      destruct Hloop as (Hmatch & (k & Hk & Htr) & _);
        [lia|cbn [tel]; rewrite Hlen; unfold UcProtocol.sizeof_UcAckTelegram; lia|].
      split; [by exists lk|]. exists l. split; [done|]. split.
      * destruct (decide (_ ∧ _)); destruct Hmatch as [Hm ->]; cbn; by repeat split.
      * exists msg, (EvRead (pasynUser pdevPvt) 4
                      :: replicate k (EvRead (pasynUser pdevPvt) 24)).
        split; [by rewrite Htr, Htw, <- !app_assoc|]. right. by exists k.
    + unfold ret. cbn [fst snd frame rec localMid].
      split; [by exists lk|]. eexists. split; [done|]. cbn [tel status matched].
      rewrite decide_False by (intros [_ ?]; done).
      split; [by repeat split|].
      exists msg, []. split; [by rewrite app_nil_r|by left].
  - unfold ret. cbn [fst snd frame rec localMid].
    split; [by exists lk|]. repeat split; try done.
    + unfold recGblSetSevr. by case_decide.
    + by rewrite Ht4, Ht2, Ht1.
Qed.

(** The overlay of the body, which starts at byte 4, leaves the length
    member of the reply buffer alone. *)
Lemma ack_length_copy_raw_4 (n : nat) (src dst : list byte) :
  UcProtocol.ack_length (copy_raw n 4 src dst) = UcProtocol.ack_length dst.
Proof.
  unfold UcProtocol.ack_length, load_Int32, UcProtocol.off_length, copy_raw.
  rewrite !drop_0. f_equal. generalize (seq 0 n) as idx. intros idx. revert dst.
  induction idx as [|i idx IH]; intros dst; simpl; [done|].
  rewrite IH. apply take_insert_ge. lia.
Qed.

Lemma end_body_length (l : locals) :
  UcProtocol.ack_length (tel (end_body l)) = UcProtocol.ack_length (tel l).
Proof.
  unfold end_body. case_decide; [|done]. cbn [tel]. apply ack_length_copy_raw_4.
Qed.

(** The status with which the prefix loop is left is the one of its read. *)
Lemma read_prefix_status (u : asynUser) (l : locals) (w : world W) :
  retries l = 0 → nBytesRead l = 0%nat →
  status (read_prefix u (l, w)).1 = (octet_read u 4 (ext w)).1.1.
Proof.
  intros Hr Hn. unfold read_prefix. cbn [fst]. rewrite Hr.
  change (Z.to_nat (1 - 0)) with 1%nat. cbn [while].
  assert (prefix_cond (l, w) = true) as ->.
  { unfold prefix_cond. cbn [fst]. rewrite Hr, Hn.
    by rewrite !bool_decide_true by done. }
  unfold read_step, readIt, call_read, bind, ret, UcProtocol.sizeof_Int32.
  by destruct (octet_read u 4 (ext w)) as [[st bs] e].
Qed.

(** The body loop, entered with nothing read yet, issues its read at least
    once. *)
Lemma read_body_once (u : asynUser) (bound : Z) (l : locals) (w : world W) :
  retries l = 0 → nBytesRead l = 0%nat → 1 ≤ bound →
  UcProtocol.ack_length (tel l) = 24 →
  ∃ k : nat,
    (1 ≤ k)%nat ∧ Z.of_nat k ≤ bound
    ∧ trace (read_body u bound (l, w)).2 = trace w ++ replicate k (EvRead u 24).
Proof.
  intros Hr Hn Hb H24.
  destruct (read_body_spec u bound l w Hr ltac:(lia)) as (_ & _ & _ & (k & Hk & Htr) & _).
  rewrite H24 in Htr. change (Z.to_nat 24) with 24%nat in Htr.
  exists k. split; [|done].
  destruct k as [|k]; [|lia]. exfalso.
  simpl in Htr. rewrite app_nil_r in Htr.
  revert Htr. unfold read_body. cbn [fst]. rewrite Hr.
  replace (Z.to_nat (bound - 0)) with (S (Z.to_nat (bound - 1))) by lia.
  cbn [while].
  assert (body_cond bound (l, w) = true) as ->.
  { unfold body_cond. cbn [fst]. rewrite Hn, H24, Hr.
    rewrite !bool_decide_true by lia. done. }
  pose proof (read_step_spec u (λ l, Z.to_nat (UcProtocol.ack_length (tel l))) l w)
    as (_ & _ & _ & _ & Htr1).
  destruct (read_step u _ (l, w)) as [l1 w1]. cbn [fst snd] in *.
  intros Htr.
  assert (List.length (trace w) < List.length (trace w1))%nat as Hlt
    by (rewrite Htr1, length_app; simpl; lia).
  enough (List.length (trace w1)
          ≤ List.length (trace (while (Z.to_nat (bound - 1)) (body_cond bound)
                                  (read_step u (λ l, Z.to_nat (UcProtocol.ack_length (tel l))))
                                  (l1, w1)).2))%nat as Hle
    by (rewrite Htr in Hle; lia).
  apply (while_inv (λ s : locals * world W,
                      (List.length (trace w1) ≤ List.length (trace s.2))%nat)).
  - done.
  - intros [l' w'] Hle _. cbn [snd] in *.
    pose proof (read_step_spec u (λ l, Z.to_nat (UcProtocol.ack_length (tel l))) l' w')
      as (_ & _ & _ & _ & Htr').
    destruct (read_step u _ (l', w')) as [l'' w'']. cbn [snd] in *.
    rewrite Htr', length_app. lia.
Qed.

(** The reply loop, run by run: its reads, by the status of the read of
    the length prefix. *)
Lemma reply_loop_reads {R} (u : asynUser) (localMid bound : Z)
    (on_match : list byte → R → R) (st : asynStatus) (raw0 tel0 : list byte)
    (r : R) (w : world W) :
  1 ≤ bound → (4 ≤ List.length tel0)%nat →
  let x := reply_loop u localMid bound on_match
             (Locals st 0 raw0 0 0 0 tel0, r, w) in
  ∃ k : nat,
    trace x.2 = trace w ++ EvRead u 4 :: replicate k (EvRead u 24)
    ∧ Z.of_nat k ≤ bound
    ∧ if decide ((octet_read u 4 (ext w)).1.1 = asynSuccess)
      then (1 ≤ k)%nat ∧ UcProtocol.ack_length (tel x.1.1) = 24
      else k = 0%nat ∧ status x.1.1 = (octet_read u 4 (ext w)).1.1.
Proof.
  intros Hb Hlen. unfold reply_loop. cbn [fst msgretries].
  change (Z.to_nat (1 - 0)) with 1%nat. cbn [while].
  assert (reply_cond (Locals st 0 raw0 0 0 0 tel0, r, w) = true) as -> by done.
  unfold reply_pass.
  pose proof (read_prefix_spec u (Locals st 0 raw0 0 0 0 tel0) w eq_refl eq_refl)
    as (Ht1 & _ & _ & Htr1 & _).
  pose proof (read_prefix_status u (Locals st 0 raw0 0 0 0 tel0) w eq_refl eq_refl)
    as Hst1.
  destruct (read_prefix u (_, w)) as [l1 w1]. cbn [fst snd tel] in *.
  rewrite <- Hst1.
  assert (4 ≤ List.length (tel l1))%nat as Hlen1 by (by rewrite Ht1).
  destruct (decide (status l1 = asynSuccess)) as [Hs1|Hs1].
  - pose proof (begin_body_spec l1 Hlen1) as (H24 & Hr2 & _).
    destruct (read_body_once u bound (begin_body l1) w1 Hr2 eq_refl Hb H24)
      as (k & Hk1 & Hk & Htr3).
    pose proof (read_body_spec u bound (begin_body l1) w1 Hr2 ltac:(lia))
      as (Ht3 & _).
    destruct (read_body u bound (begin_body l1, w1)) as [l3 w3].
    cbn [fst snd] in *.
    exists k. split; [|split; [done|]].
    + case_decide; cbn [snd]; rewrite Htr3, Htr1, <- app_assoc; done.
    + split; [done|].
      case_decide; cbn [fst tel]; rewrite end_body_length; congruence.
  - exists 0%nat. split; [|split; [lia|]].
    + case_decide; cbn [snd]; by rewrite Htr1.
    + split; [done|]. case_decide; done.
Qed.

(** [writeIt] by the outcome of the write. *)
Lemma writeIt_status (u : asynUser) (precord : dbCommon) (message : list byte)
    (nbytes : nat) (w : world W) :
  let x := writeIt u precord message nbytes w in
  let wr := (octet_write u (take nbytes message) (ext w)).1 in
  ext x.2 = (octet_write u (take nbytes message) (ext w)).2
  ∧ if decide (wr = (asynSuccess, nbytes))
    then x.1 = (asynSuccess, precord)
    else x.1.1 ≠ asynSuccess.
Proof.
  unfold writeIt, call_write, bind, ret.
  destruct (octet_write u (take nbytes message) (ext w)) as [[st n] e].
  cbn [fst snd]. split; [by repeat case_decide|].
  repeat case_decide; cbn [fst snd]; try done; try congruence.
  all: exfalso; match goal with H : ¬ _ = _ |- _ => apply H end; congruence.
Qed.

(** A callback whose record has a link parameter, as the reply loop started
    after the request was written. *)
Lemma callbackLiRead_loop (pdevPvt : devPvt) (pli : longinRecord) (mid : Z)
    (w : world W) :
  is_Some (userParam pdevPvt) →
  let u := pasynUser pdevPvt in
  let x := callbackLiRead pdevPvt pli mid w in
  ∃ (msg raw0 tel0 : list byte) (e : W) (w0 : world W),
    List.length msg = 20%nat ∧ List.length tel0 = 28%nat
    ∧ trace w0 = trace w ++ [EvFlush u; EvWrite u msg]
    ∧ ext w0 = (octet_write u msg e).2
    ∧ if decide ((octet_write u msg e).1 = (asynSuccess, 20%nat)) then
        let y := reply_loop u (localMid x.1.2) 3 li_store
                   (Locals asynSuccess 0 raw0 0 0 0 tel0, pli, w0) in
        frame x.1.2 = Some y.1.1 ∧ rec x.1.2 = y.1.2 ∧ x.2 = y.2
      else
        x.2 = w0 ∧ ∃ l, frame x.1.2 = Some l ∧ status l ≠ asynSuccess.
Proof.
  intros [param Hp]. unfold callbackLiRead, bind. rewrite Hp.
  pose proof (alloca_spec MAX_STRING_SIZE w) as [Ht1 _].
  destruct (alloca MAX_STRING_SIZE w) as [raw0 w1].
  pose proof (alloca_spec UcProtocol.sizeof_UcAckTelegram w1) as [Ht2 Hlen].
  destruct (alloca UcProtocol.sizeof_UcAckTelegram w1) as [tel0 w2].
  pose proof (alloca_spec 4 w2) as [Ht3 _].
  destruct (alloca 4 w2) as [cmd0 w3].
  pose proof (lock_spec midMutexId w3) as Ht4.
  destruct (lock midMutexId w3) as [lk w4].
  cbn [fst snd] in *.
  destruct (mid_increment lk mid) as [lm mid'] eqn:Hmid.
  pose proof (flushIt_spec (pasynUser pdevPvt) w4) as Ht5.
  destruct (flushIt (pasynUser pdevPvt) w4) as [fs w5].
  match goal with |- context [writeIt ?u ?c ?m ?n w5] =>
    pose proof (writeIt_spec u c m n w5) as [Ht6 _];
    pose proof (writeIt_status u c m n w5) as [He Hw];
    destruct (writeIt u c m n w5) as [[st c'] w6];
    set (msg := take n m) in * end.
  cbn [fst snd] in *. cbn zeta in Hw.
  exists msg, raw0, tel0, (ext w5), w6.
  split; [done|]. split; [done|]. split.
  { rewrite Ht6, Ht5, Ht4, Ht3, Ht2, Ht1, <- app_assoc. done. }
  split; [done|].
  change UcProtocol.sizeof_UcGetTelegram with 20%nat in Hw.
  destruct (decide ((octet_write (pasynUser pdevPvt) msg (ext w5)).1
                    = (asynSuccess, 20%nat))) as [Hok|Hno].
  - injection Hw as -> ->. rewrite decide_True by done.
    destruct pli as [c v]. cbn [li_common li_val].
    destruct (reply_loop _ _ _ _ _) as [[l r] w7] eqn:E.
    cbn [fst snd localMid frame rec]. rewrite E. done.
  - cbn [fst] in Hw. rewrite decide_False by done. unfold ret. cbn [fst snd frame].
    split; [done|]. eexists. split; [done|]. done.
Qed.

Lemma callbackLoWrite_loop (pdevPvt : devPvt) (plo : longoutRecord) (mid : Z)
    (w : world W) :
  is_Some (userParam pdevPvt) →
  let u := pasynUser pdevPvt in
  let x := callbackLoWrite pdevPvt plo mid w in
  ∃ (msg raw0 tel0 : list byte) (e : W) (w0 : world W),
    List.length msg = 24%nat ∧ List.length tel0 = 28%nat
    ∧ trace w0 = trace w ++ [EvFlush u; EvWrite u msg]
    ∧ ext w0 = (octet_write u msg e).2
    ∧ if decide ((octet_write u msg e).1 = (asynSuccess, 24%nat)) then
        let y := reply_loop u (localMid x.1.2) 1 lo_store
                   (Locals asynSuccess 0 raw0 0 0 0 tel0, plo, w0) in
        frame x.1.2 = Some y.1.1 ∧ rec x.1.2 = y.1.2 ∧ x.2 = y.2
      else
        x.2 = w0 ∧ ∃ l, frame x.1.2 = Some l ∧ status l ≠ asynSuccess.
Proof.
  intros [param Hp]. unfold callbackLoWrite, bind. rewrite Hp.
  pose proof (alloca_spec MAX_STRING_SIZE w) as [Ht1 _].
  destruct (alloca MAX_STRING_SIZE w) as [raw0 w1].
  pose proof (alloca_spec UcProtocol.sizeof_UcAckTelegram w1) as [Ht2 Hlen].
  destruct (alloca UcProtocol.sizeof_UcAckTelegram w1) as [tel0 w2].
  pose proof (lock_spec midMutexId w2) as Ht4.
  destruct (lock midMutexId w2) as [lk w4].
  cbn [fst snd] in *.
  destruct (mid_increment lk mid) as [lm mid'] eqn:Hmid.
  pose proof (flushIt_spec (pasynUser pdevPvt) w4) as Ht5.
  destruct (flushIt (pasynUser pdevPvt) w4) as [fs w5].
  match goal with |- context [writeIt ?u ?c ?m ?n w5] =>
    pose proof (writeIt_spec u c m n w5) as [Ht6 _];
    pose proof (writeIt_status u c m n w5) as [He Hw];
    destruct (writeIt u c m n w5) as [[st c'] w6];
    set (msg := take n m) in * end.
  cbn [fst snd] in *. cbn zeta in Hw.
  exists msg, raw0, tel0, (ext w5), w6.
  split; [done|]. split; [done|]. split.
  { rewrite Ht6, Ht5, Ht4, Ht2, Ht1, <- app_assoc. done. }
  split; [done|].
  change UcProtocol.sizeof_UcSetTelegram with 24%nat in Hw.
  destruct (decide ((octet_write (pasynUser pdevPvt) msg (ext w5)).1
                    = (asynSuccess, 24%nat))) as [Hok|Hno].
  - injection Hw as -> ->. rewrite decide_True by done.
    destruct plo as [c v]. cbn [lo_common lo_val].
    destruct (reply_loop _ _ _ _ _) as [[l r] w7] eqn:E.
    cbn [fst snd localMid frame rec]. rewrite E. done.
  - cbn [fst] in Hw. rewrite decide_False by done. unfold ret. cbn [fst snd frame].
    split; [done|]. eexists. split; [done|]. done.
Qed.
End DevFacts.

(** ** The exchanges: matching, retransmission, and what a read requests *)

Lemma read_requests_app (t1 t2 : list io_event) :
  read_requests (t1 ++ t2) = read_requests t1 ++ read_requests t2.
Proof. unfold read_requests. apply omap_app. Qed.

Lemma read_requests_replicate (u : asynUser) (n k : nat) :
  read_requests (replicate k (EvRead u n)) = replicate k n.
Proof. induction k as [|k IH]; [done|]. simpl. by rewrite IH. Qed.

Lemma transmissions_replicate_read (u : asynUser) (n k : nat) :
  transmissions (replicate k (EvRead u n)) = 0%nat.
Proof. induction k as [|k IH]; [done|]. simpl. exact IH. Qed.

(** C1 (as amended). In a get exchange, when the correlationNumber of the
    reply buffer differs from the identifier sent, the exchange is not
    matched and the data word received is not stored, whatever the
    transport calls returned, in particular when all of them succeeded.
    [motorAxisGet] reports this to its caller: it returns
    [MOTOR_AXIS_ERROR], and leaves [*value] as it was.  [callbackLiRead]
    reports nothing: it leaves [match] at 0, does not write the record's
    value and undefined flag and raises no alarm; once the request has been
    written and a read issued, the record is finished exactly as it was
    found. *)
Theorem C1_mismatch_is_unmatched :
  (∀ (W : Type) (E : Externals W) (pAxis : Anc350AsynMotor.motorAxis)
     (location value logGlobal : Z) (s : Anc350AsynMotor.state W),
     let g := (Anc350AsynMotor.motorAxisGet pAxis location value logGlobal s).1 in
     UcProtocol.ack_correlationNumber (Anc350AsynMotor.tel g)
     ≠ Anc350AsynMotor.localMid g →
     Anc350AsynMotor.ret_status g = Anc350AsynMotor.MOTOR_AXIS_ERROR
     ∧ Anc350AsynMotor.matched g = 0
     ∧ Anc350AsynMotor.value_out g = value)
  ∧ (∀ (W : Type) (E : Externals W) (pdevPvt : DevAnc350.devPvt)
       (pli : DevAnc350.longinRecord) (mid : Z) (w : world W)
       (l : DevAnc350.locals),
       let x := DevAnc350.callbackLiRead pdevPvt pli mid w in
       let o := x.1.2 in
       DevAnc350.frame o = Some l →
       UcProtocol.ack_correlationNumber (DevAnc350.tel l) ≠ DevAnc350.localMid o →
       DevAnc350.matched l = 0
       ∧ DevAnc350.li_val (DevAnc350.rec o) = DevAnc350.li_val pli
       ∧ DevAnc350.udf (DevAnc350.li_common (DevAnc350.rec o))
         = DevAnc350.udf (DevAnc350.li_common pli)
       ∧ (read_requests (drop (List.length (trace w)) (trace x.2)) ≠ [] →
          DevAnc350.rec o = pli)).
Proof.
  split.
  - intros W E pAxis location value logGlobal s g Hne.
    destruct (motorAxisGet_spec pAxis location value logGlobal s)
      as [_ [(_ & _ & _ & Heq & _)|(Herr & Hm & Hv & _)]].
    + by destruct Hne.
    + done.
  - intros W E pdevPvt pli mid w l x o Hf Hne.
    pose proof (callbackLiRead_spec pdevPvt pli mid w) as [_ Hs].
    cbn zeta in Hs. fold x o in Hs.
    destruct (DevAnc350.userParam pdevPvt) as [param|] eqn:Hp.
    + destruct Hs as (l' & Hf' & Hm & _). rewrite Hf in Hf'.
      injection Hf' as <-. rewrite decide_False in Hm by (intros [? _]; done).
      destruct Hm as (Hm & Hv & Hu). repeat split; try done.
      intros Hreads.
      destruct (callbackLiRead_loop pdevPvt pli mid w)
        as (msg & raw0 & tel0 & e & w0 & _ & Hlen & Htr & _ & Hloop).
      { rewrite Hp. by eexists. }
      cbn zeta in Hloop. fold x o in Hloop.
      destruct (decide _) as [_|_] in Hloop.
      * destruct Hloop as (Hfr & Hrec & _).
        pose proof (reply_loop_spec (DevAnc350.pasynUser pdevPvt)
                      (DevAnc350.localMid o) 3 DevAnc350.li_store
                      (DevAnc350.Locals asynSuccess 0 raw0 0 0 0 tel0) pli w0
                      eq_refl eq_refl eq_refl eq_refl) as Hl.
        cbn zeta in Hl.
        destruct Hl as (Hmatch & _); [lia|cbn [DevAnc350.tel]; lia|].
        rewrite Hf in Hfr. injection Hfr as Hl. rewrite <- Hl in Hmatch.
        rewrite decide_False in Hmatch by (intros [? _]; done).
        rewrite Hrec. by destruct Hmatch.
      * destruct Hloop as (Hx & _). destruct Hreads.
        rewrite Hx, Htr, drop_app_length. done.
    + destruct Hs as (Hf' & _). rewrite Hf in Hf'. discriminate.
Qed.

(** C3. Between the two reads the length member of the reply buffer is put
    to 24 whatever the four bytes received were, and the reads that follow
    the length prefix ask for 24 bytes.  Run by run, for the reply loop of
    both callbacks: when the read of the prefix returns [asynSuccess],
    whatever bytes it delivered, at least one read of 24 bytes follows (at
    most [bound] of them: three when reading, one when writing) and the loop
    is left with length 24 in the buffer; when it returns another status,
    no read follows.  For the callbacks: no read asks for another size; a
    callback that ends with the status [asynSuccess] has asked for 24 bytes
    and holds length 24 in its buffer; and on a transport that takes every
    write in full and on which the reads of four bytes succeed, a callback
    whose record has a link parameter asks for 24 bytes at least once. *)
Theorem C3_body_reads_ask_24 :
  (∀ l : DevAnc350.locals,
     (4 ≤ List.length (DevAnc350.tel l))%nat →
     UcProtocol.ack_length (DevAnc350.tel (DevAnc350.begin_body l)) = 24)
  ∧ (∀ (W : Type) (E : Externals W) (R : Type) (u : asynUser)
       (localMid bound : Z) (on_match : list byte → R → R)
       (st : asynStatus) (raw0 tel0 : list byte) (r : R) (w : world W),
       1 ≤ bound → (4 ≤ List.length tel0)%nat →
       let prefix := (octet_read u 4 (ext w)).1 in
       let x := DevAnc350.reply_loop u localMid bound on_match
                  (DevAnc350.Locals st 0 raw0 0 0 0 tel0, r, w) in
       ∃ k : nat,
         trace x.2 = trace w ++ EvRead u 4 :: replicate k (EvRead u 24)
         ∧ Z.of_nat k ≤ bound
         ∧ (prefix.1 = asynSuccess →
            (1 ≤ k)%nat ∧ UcProtocol.ack_length (DevAnc350.tel x.1.1) = 24)
         ∧ (prefix.1 ≠ asynSuccess → k = 0%nat))
  ∧ (∀ (W : Type) (E : Externals W) (pdevPvt : DevAnc350.devPvt)
       (pli : DevAnc350.longinRecord) (mid : Z) (w : world W),
       let u := DevAnc350.pasynUser pdevPvt in
       let x := DevAnc350.callbackLiRead pdevPvt pli mid w in
       ∃ (evs : list io_event) (k : nat),
         trace x.2 = trace w ++ evs
         ∧ Z.of_nat k ≤ 3
         ∧ (read_requests evs = []
            ∨ read_requests evs = 4%nat :: replicate k 24%nat)
         ∧ (∀ l : DevAnc350.locals,
              DevAnc350.frame x.1.2 = Some l →
              DevAnc350.status l = asynSuccess →
              (1 ≤ k)%nat
              ∧ read_requests evs = 4%nat :: replicate k 24%nat
              ∧ UcProtocol.ack_length (DevAnc350.tel l) = 24)
         ∧ (is_Some (DevAnc350.userParam pdevPvt) →
            (∀ (msg : list byte) (e : W),
               (octet_write u msg e).1 = (asynSuccess, List.length msg)) →
            (∀ e : W, (octet_read u 4 e).1.1 = asynSuccess) →
            (1 ≤ k)%nat ∧ read_requests evs = 4%nat :: replicate k 24%nat))
  ∧ (∀ (W : Type) (E : Externals W) (pdevPvt : DevAnc350.devPvt)
       (plo : DevAnc350.longoutRecord) (mid : Z) (w : world W),
       let u := DevAnc350.pasynUser pdevPvt in
       let x := DevAnc350.callbackLoWrite pdevPvt plo mid w in
       ∃ (evs : list io_event) (k : nat),
         trace x.2 = trace w ++ evs
         ∧ Z.of_nat k ≤ 1
         ∧ (read_requests evs = []
            ∨ read_requests evs = 4%nat :: replicate k 24%nat)
         ∧ (∀ l : DevAnc350.locals,
              DevAnc350.frame x.1.2 = Some l →
              DevAnc350.status l = asynSuccess →
              (1 ≤ k)%nat
              ∧ read_requests evs = 4%nat :: replicate k 24%nat
              ∧ UcProtocol.ack_length (DevAnc350.tel l) = 24)
         ∧ (is_Some (DevAnc350.userParam pdevPvt) →
            (∀ (msg : list byte) (e : W),
               (octet_write u msg e).1 = (asynSuccess, List.length msg)) →
            (∀ e : W, (octet_read u 4 e).1.1 = asynSuccess) →
            (1 ≤ k)%nat ∧ read_requests evs = 4%nat :: replicate k 24%nat)).
Proof.
  split; [|split; [|split]].
  - intros l Hlen. by apply begin_body_spec.
  - intros W E R u localMid bound on_match st raw0 tel0 r w Hb Hlen prefix x.
    destruct (reply_loop_reads u localMid bound on_match st raw0 tel0 r w Hb Hlen)
      as (k & Htr & Hk & Hcase).
    fold x prefix in Htr, Hcase. exists k. split; [done|]. split; [done|].
    destruct (decide (prefix.1 = asynSuccess)) as [Hok|Hno].
    + split; [done|]. by intros [].
    + split; [by intros ?|]. intros _. by destruct Hcase.
  - intros W E pdevPvt pli mid w u x.
    destruct (DevAnc350.userParam pdevPvt) as [param|] eqn:Hp.
    + destruct (callbackLiRead_loop pdevPvt pli mid w)
        as (msg & raw0 & tel0 & e & w0 & Hmsg & Hlen & Htr & He & Hloop).
      { rewrite Hp. by eexists. }
      cbn zeta in Hloop. fold u x in Hloop, Htr, He.
      destruct (decide ((octet_write u msg e).1 = (asynSuccess, 20%nat)))
        as [Hwr|Hwr].
      * destruct Hloop as (Hfr & _ & Hx).
        destruct (reply_loop_reads u (DevAnc350.localMid x.1.2) 3
                    DevAnc350.li_store asynSuccess raw0 tel0 pli w0)
          as (k & Htr' & Hk & Hcase); [lia|lia|].
        cbn zeta in Htr', Hcase.
        exists ([EvFlush u; EvWrite u msg]
                ++ EvRead u 4 :: replicate k (EvRead u 24)), k.
        assert (read_requests ([EvFlush u; EvWrite u msg]
                               ++ EvRead u 4 :: replicate k (EvRead u 24))
                = 4%nat :: replicate k 24%nat) as Hrr.
        { rewrite read_requests_app. simpl. by rewrite read_requests_replicate. }
        split; [by rewrite Hx, Htr', Htr, <- app_assoc|].
        split; [done|]. split; [by right|]. split.
        -- intros l Hf Hst. rewrite Hf in Hfr. injection Hfr as Hl.
           rewrite <- Hl in Hcase.
           destruct (decide _) as [_|Hno] in Hcase.
           ++ destruct Hcase. done.
           ++ destruct Hcase as [_ Hst']. destruct Hno. congruence.
        -- intros _ Hw Hr. split; [|done].
           rewrite He in Hcase. rewrite decide_True in Hcase by apply Hr.
           by destruct Hcase.
      * destruct Hloop as (Hx & l0 & Hfr & Hst0).
        exists [EvFlush u; EvWrite u msg], 0%nat.
        split; [by rewrite Hx|]. split; [lia|]. split; [by left|]. split.
        -- intros l Hf Hst. congruence.
        -- intros _ Hw _. destruct Hwr. by rewrite Hw, Hmsg.
    + pose proof (callbackLiRead_spec pdevPvt pli mid w) as [_ Hs].
      cbn zeta in Hs. fold x in Hs. rewrite Hp in Hs.
      destruct Hs as (Hf & _ & _ & Htr).
      exists [], 0%nat. rewrite app_nil_r. split; [done|]. split; [lia|].
      split; [by left|]. split.
      * intros l Hf'. congruence.
      * intros [? ?]. done.
  - intros W E pdevPvt plo mid w u x.
    destruct (DevAnc350.userParam pdevPvt) as [param|] eqn:Hp.
    + destruct (callbackLoWrite_loop pdevPvt plo mid w)
        as (msg & raw0 & tel0 & e & w0 & Hmsg & Hlen & Htr & He & Hloop).
      { rewrite Hp. by eexists. }
      cbn zeta in Hloop. fold u x in Hloop, Htr, He.
      destruct (decide ((octet_write u msg e).1 = (asynSuccess, 24%nat)))
        as [Hwr|Hwr].
      * destruct Hloop as (Hfr & _ & Hx).
        destruct (reply_loop_reads u (DevAnc350.localMid x.1.2) 1
                    DevAnc350.lo_store asynSuccess raw0 tel0 plo w0)
          as (k & Htr' & Hk & Hcase); [lia|lia|].
        cbn zeta in Htr', Hcase.
        exists ([EvFlush u; EvWrite u msg]
                ++ EvRead u 4 :: replicate k (EvRead u 24)), k.
        assert (read_requests ([EvFlush u; EvWrite u msg]
                               ++ EvRead u 4 :: replicate k (EvRead u 24))
                = 4%nat :: replicate k 24%nat) as Hrr.
        { rewrite read_requests_app. simpl. by rewrite read_requests_replicate. }
        split; [by rewrite Hx, Htr', Htr, <- app_assoc|].
        split; [done|]. split; [by right|]. split.
        -- intros l Hf Hst. rewrite Hf in Hfr. injection Hfr as Hl.
           rewrite <- Hl in Hcase.
           destruct (decide _) as [_|Hno] in Hcase.
           ++ destruct Hcase. done.
           ++ destruct Hcase as [_ Hst']. destruct Hno. congruence.
        -- intros _ Hw Hr. split; [|done].
           rewrite He in Hcase. rewrite decide_True in Hcase by apply Hr.
           by destruct Hcase.
      * destruct Hloop as (Hx & l0 & Hfr & Hst0).
        exists [EvFlush u; EvWrite u msg], 0%nat.
        split; [by rewrite Hx|]. split; [lia|]. split; [by left|]. split.
        -- intros l Hf Hst. congruence.
        -- intros _ Hw _. destruct Hwr. by rewrite Hw, Hmsg.
    + pose proof (callbackLoWrite_spec pdevPvt plo mid w) as [_ Hs].
      cbn zeta in Hs. fold x in Hs. rewrite Hp in Hs.
      destruct Hs as (Hf & _ & Htr).
      exists [], 0%nat. rewrite app_nil_r. split; [done|]. split; [lia|].
      split; [by left|]. split.
      * intros l Hf'. congruence.
      * intros [? ?]. done.
Qed.

(** C5 (as amended). A get or set operation performs its exchange once: it
    runs the [mid] block once and transmits the request exactly once (not at
    all when the record has no link parameter), whether the exchange ends
    matched, unmatched or failed; a failure is returned without a second
    transmission. *)
Theorem C5_single_transmission :
  (∀ (W : Type) (E : Externals W) (pAxis : Anc350AsynMotor.motorAxis)
     (location value logGlobal : Z) (s : Anc350AsynMotor.state W),
     transmissions
       (trace (Anc350AsynMotor.io
                 (Anc350AsynMotor.motorAxisGet pAxis location value logGlobal s).2))
     = (transmissions (trace (Anc350AsynMotor.io s)) + 1)%nat)
  ∧ (∀ (W : Type) (E : Externals W) (pAxis : Anc350AsynMotor.motorAxis)
       (location value logGlobal : Z) (s : Anc350AsynMotor.state W),
       transmissions
         (trace (Anc350AsynMotor.io
                   (Anc350AsynMotor.motorAxisSet pAxis location value logGlobal s).2))
       = (transmissions (trace (Anc350AsynMotor.io s)) + 1)%nat)
  ∧ (∀ (W : Type) (E : Externals W) (pdevPvt : DevAnc350.devPvt)
       (pli : DevAnc350.longinRecord) (mid : Z) (w : world W),
       let x := DevAnc350.callbackLiRead pdevPvt pli mid w in
       transmissions (trace x.2)
       = (transmissions (trace w)
          + if DevAnc350.userParam pdevPvt is Some _ then 1 else 0)%nat
       ∧ ∃ lk, mid_increment lk mid = (DevAnc350.localMid x.1.2, x.1.1))
  ∧ (∀ (W : Type) (E : Externals W) (pdevPvt : DevAnc350.devPvt)
       (plo : DevAnc350.longoutRecord) (mid : Z) (w : world W),
       let x := DevAnc350.callbackLoWrite pdevPvt plo mid w in
       transmissions (trace x.2)
       = (transmissions (trace w)
          + if DevAnc350.userParam pdevPvt is Some _ then 1 else 0)%nat
       ∧ ∃ lk, mid_increment lk mid = (DevAnc350.localMid x.1.2, x.1.1)).
Proof.
  split; [|split; [|split]].
  - intros W E pAxis location value logGlobal s.
    by destruct (motorAxisGet_spec pAxis location value logGlobal s) as [? _].
  - intros W E pAxis location value logGlobal s.
    destruct (motorAxisSet_trace pAxis location value logGlobal s) as (u & msg & ->).
    by rewrite transmissions_app.
  - intros W E pdevPvt pli mid w x.
    pose proof (callbackLiRead_spec pdevPvt pli mid w) as [Hmid Hs].
    cbn zeta in Hs, Hmid. fold x in Hs, Hmid. split; [|exact Hmid].
    destruct (DevAnc350.userParam pdevPvt).
    + destruct Hs as (l & _ & _ & msg & reads & -> & Hreads).
      rewrite !transmissions_app.
      destruct Hreads as [[-> _]|(k & _ & ->)]; [done|].
      change (EvRead ?u 4 :: ?t) with ([EvRead u 4] ++ t).
      rewrite transmissions_app, transmissions_replicate_read. done.
    + destruct Hs as (_ & _ & _ & ->). lia.
  - intros W E pdevPvt plo mid w x.
    pose proof (callbackLoWrite_spec pdevPvt plo mid w) as [Hmid Hs].
    cbn zeta in Hs, Hmid. fold x in Hs, Hmid. split; [|exact Hmid].
    destruct (DevAnc350.userParam pdevPvt).
    + destruct Hs as (l & _ & _ & msg & reads & -> & Hreads).
      rewrite !transmissions_app.
      destruct Hreads as [[-> _]|(k & _ & ->)]; [done|].
      change (EvRead ?u 4 :: ?t) with ([EvRead u 4] ++ t).
      rewrite transmissions_app, transmissions_replicate_read. done.
    + destruct Hs as (_ & _ & ->). lia.
Qed.


(** ** The exchanges on concrete runs *)

(** C1, as stated, fails for [callbackLiRead]: a reply that carries
    identifier 9 where 1 was sent is rejected while every transport call
    succeeds, and the record is finished as it was found, holding the value
    of the earlier read, defined and without alarm.  Nothing tells the
    caller that the exchange failed. *)
Lemma C1_mismatch_is_unmatched_counterexample :
  let x := DevAnc350.callbackLiRead Scenario.link0 Scenario.li_read 0
             (Sim.fresh [(asynSuccess, take 4 (Sim.ack 9 2048));
                         (asynSuccess, drop 4 (Sim.ack 9 2048))]) in
  let o := x.1.2 in
  DevAnc350.localMid o = 1
  ∧ (UcProtocol.ack_correlationNumber ∘ DevAnc350.tel) <$> DevAnc350.frame o = Some 9
  ∧ DevAnc350.status <$> DevAnc350.frame o = Some asynSuccess
  ∧ DevAnc350.matched <$> DevAnc350.frame o = Some 0
  ∧ read_requests (trace x.2) = [4; 24]%nat
  ∧ DevAnc350.rec o = DevAnc350.LonginRecord (DevAnc350.DbCommon 0 0 0) 99.
Proof. vm_compute. done. Qed.

(** C1 on replies that carry identifier 9 where 1 was sent, every transport
    call succeeding. *)
Lemma C1_mismatch_is_unmatched_witness :
  (let g := (Anc350AsynMotor.motorAxisGet Scenario.ax0
               Anc350AsynMotor.ID_ANC_STATUS 77 0
               (Scenario.st0 [(asynSuccess, Sim.ack 9 2048)])).1 in
   Anc350AsynMotor.io_status g = asynSuccess
   ∧ Anc350AsynMotor.ret_status g = Anc350AsynMotor.MOTOR_AXIS_ERROR
   ∧ Anc350AsynMotor.value_out g = 77)
  ∧ (let o := (DevAnc350.callbackLiRead Scenario.link0 Scenario.li0 0
                 (Sim.fresh [(asynSuccess, take 4 (Sim.ack 9 2048));
                             (asynSuccess, drop 4 (Sim.ack 9 2048))])).1.2 in
     DevAnc350.status <$> DevAnc350.frame o = Some asynSuccess
     ∧ DevAnc350.matched <$> DevAnc350.frame o = Some 0
     ∧ DevAnc350.li_val (DevAnc350.rec o) = 99
     ∧ DevAnc350.rec o = Scenario.li0).
Proof.
  destruct C1_mismatch_is_unmatched as [Hmotor Hdev].
  split.
  - intros g. split; [vm_compute; reflexivity|].
    destruct (Hmotor Sim.sim _ Scenario.ax0 Anc350AsynMotor.ID_ANC_STATUS 77 0
                (Scenario.st0 [(asynSuccess, Sim.ack 9 2048)])) as (Hr & _ & Hv).
    + vm_compute. discriminate.
    + split; [exact Hr|exact Hv].
  - intros o.
    destruct (DevAnc350.frame o) as [l|] eqn:Hf; [|vm_compute in Hf; discriminate].
    destruct (Hdev Sim.sim _ Scenario.link0 Scenario.li0 0
                (Sim.fresh [(asynSuccess, take 4 (Sim.ack 9 2048));
                            (asynSuccess, drop 4 (Sim.ack 9 2048))]) l Hf)
      as (Hm & Hv & _ & Hrec).
    + vm_compute in Hf. injection Hf as <-. vm_compute. discriminate.
    + fold o in Hv, Hrec. split; [|split; [|split]].
      * vm_compute in Hf. injection Hf as <-. reflexivity.
      * change (Some (DevAnc350.matched l) = Some 0). by rewrite Hm.
      * rewrite Hv. reflexivity.
      * apply Hrec. vm_compute. discriminate.
Defined.

(** C3 on replies whose length prefix declares 1000 bytes: in the reply
    loop, in [callbackLiRead] on a scripted transport, and in
    [callbackLoWrite] on a transport without failures. *)
Lemma C3_body_reads_ask_24_witness :
  (let l := DevAnc350.Locals asynSuccess 4 (Int32_to_bytes 1000) 1 0 0
              (replicate 28 "000"%byte) in
   UcProtocol.ack_length (copy_raw 4 0 (DevAnc350.raw l) (DevAnc350.tel l)) = 1000
   ∧ UcProtocol.ack_length (DevAnc350.tel (DevAnc350.begin_body l)) = 24)
  ∧ (let w := Sim.fresh [(asynSuccess, Int32_to_bytes 1000);
                         (asynSuccess, drop 4 (Sim.ack 1 2048))] in
     let x := DevAnc350.reply_loop 7 1 1 DevAnc350.lo_store
                (DevAnc350.Locals asynSuccess 0 (replicate 40 "000"%byte) 0 0 0
                   (replicate 28 "000"%byte), Scenario.lo0, w) in
     (octet_read 7 4 (ext w)).1 = (asynSuccess, Int32_to_bytes 1000)
     ∧ trace x.2 = [EvRead 7 4; EvRead 7 24]
     ∧ UcProtocol.ack_length (DevAnc350.tel x.1.1) = 24)
  ∧ (let x := DevAnc350.callbackLiRead Scenario.link0 Scenario.li0 0
                (Sim.fresh [(asynSuccess, Int32_to_bytes 1000);
                            (asynSuccess, drop 4 (Sim.ack 1 2048))]) in
     DevAnc350.status <$> DevAnc350.frame x.1.2 = Some asynSuccess
     ∧ (UcProtocol.ack_length ∘ DevAnc350.tel) <$> DevAnc350.frame x.1.2 = Some 24
     ∧ ∃ k : nat, (1 ≤ k)%nat ∧ Z.of_nat k ≤ 3
                  ∧ read_requests (trace x.2) = 4%nat :: replicate k 24%nat)
  ∧ (let x := DevAnc350.callbackLoWrite Scenario.link0 Scenario.lo0 0
                (Scenario.wire Scenario.ack_1000) in
     UcProtocol.ack_length Scenario.ack_1000 = 1000
     ∧ read_requests (trace x.2) = [4; 24]%nat).
Proof.
  destruct C3_body_reads_ask_24 as (Hbegin & Hloop & Hli & Hlo).
  split; [|split; [|split]].
  - intros l. split; [vm_compute; reflexivity|].
    apply (Hbegin l). vm_compute. lia.
  - intros w x. split; [reflexivity|].
    destruct (Hloop Sim.sim _ _ 7 1 1 DevAnc350.lo_store asynSuccess
                (replicate 40 "000"%byte) (replicate 28 "000"%byte)
                Scenario.lo0 w) as (k & Htr & Hk & Hok & _); [lia|simpl; lia|].
    fold x in Htr, Hok. destruct Hok as [Hk1 H24]; [reflexivity|].
    assert (k = 1%nat) as -> by lia.
    split; [exact Htr|exact H24].
  - intros x.
    destruct (Hli Sim.sim _ Scenario.link0 Scenario.li0 0
                (Sim.fresh [(asynSuccess, Int32_to_bytes 1000);
                            (asynSuccess, drop 4 (Sim.ack 1 2048))]))
      as (evs & k & Htr & Hk & _ & Hfin & _).
    fold x in Htr, Hfin.
    destruct (DevAnc350.frame x.1.2) as [l|] eqn:Hf;
      [|vm_compute in Hf; discriminate].
    assert (DevAnc350.status l = asynSuccess) as Hst
      by (vm_compute in Hf; injection Hf as <-; reflexivity).
    destruct (Hfin l eq_refl Hst) as (Hk1 & Hrr & H24).
    split; [simpl; by rewrite Hst|]. split; [simpl; by rewrite H24|].
    exists k. split; [done|]. split; [done|]. rewrite Htr. exact Hrr.
  - intros x.
    destruct (Hlo Sim.stream _ Scenario.link0 Scenario.lo0 0
                (Scenario.wire Scenario.ack_1000))
      as (evs & k & Htr & Hk & _ & _ & Henv).
    fold x in Htr.
    destruct Henv as [Hk1 Hrr]; [by eexists|reflexivity|reflexivity|].
    assert (k = 1%nat) as -> by lia.
    split; [reflexivity|]. rewrite Htr. exact Hrr.
Defined.

(** C5, as stated, fails: when no reply arrives, and when the reply carries
    another identifier, the operation ends unmatched after one transmission
    of the request. *)
Lemma C5_single_transmission_counterexample :
  (let x := DevAnc350.callbackLiRead Scenario.link0 Scenario.li0 0 (Sim.fresh []) in
   DevAnc350.matched <$> DevAnc350.frame x.1.2 = Some 0
   ∧ transmissions (trace x.2) = 1%nat)
  ∧ (let x := DevAnc350.callbackLoWrite Scenario.link0 Scenario.lo0 0
                (Sim.fresh [(asynSuccess, take 4 (Sim.ack 9 0));
                            (asynSuccess, drop 4 (Sim.ack 9 0))]) in
     DevAnc350.matched <$> DevAnc350.frame x.1.2 = Some 0
     ∧ transmissions (trace x.2) = 1%nat)
  ∧ (let x := Anc350AsynMotor.motorAxisGet Scenario.ax0
                Anc350AsynMotor.ID_ANC_STATUS 0 0 (Scenario.st0 []) in
     Anc350AsynMotor.ret_status x.1 = Anc350AsynMotor.MOTOR_AXIS_ERROR
     ∧ transmissions (trace (Anc350AsynMotor.io x.2)) = 1%nat).
Proof. vm_compute. done. Qed.



(** * Further properties

    Properties of the code beyond the exchanges and the poll treated above:
    the layout of the requests, the motion commands, the poller task, the
    opening of an axis, and the parsing of the record link. *)

(** ** Machine integers and the words of a telegram *)

Lemma Z_of_byte_of_Z (z : Z) : Z_of_byte (byte_of_Z z) = z `mod` 256.
Proof.
  unfold Z_of_byte, byte_of_Z.
  assert (0 ≤ z `mod` 256 < 256) as Hr by (apply Z.mod_pos_bound; lia).
  destruct (Byte.of_N (Z.to_N (z `mod` 256))) as [b|] eqn:Hb.
  - apply Byte.to_of_N in Hb. simpl. rewrite Hb. lia.
  - apply Byte.of_N_None_iff in Hb. lia.
Qed.

Lemma Int32_wrap_range (z : Z) : - 2 ^ 31 ≤ Int32_wrap z < 2 ^ 31.
Proof.
  unfold Int32_wrap. pose proof (Z.mod_pos_bound (z + 2 ^ 31) (2 ^ 32)). lia.
Qed.

Lemma Int32_wrap_mod (z : Z) : Int32_wrap (z `mod` 2 ^ 32) = Int32_wrap z.
Proof.
  unfold Int32_wrap. f_equal.
  rewrite <- (Zplus_mod_idemp_l z). done.
Qed.

Lemma bytes_recombine (z : Z) :
  z `mod` 256 + (z / 2 ^ 8) `mod` 256 * 2 ^ 8 + (z / 2 ^ 16) `mod` 256 * 2 ^ 16
  + (z / 2 ^ 24) `mod` 256 * 2 ^ 24 = z `mod` 2 ^ 32.
Proof.
  change (2 ^ 32) with (256 * (256 * (256 * 256))).
  rewrite (Z.rem_mul_r z 256) by lia.
  rewrite (Z.rem_mul_r (z / 256) 256) by lia.
  rewrite (Z.rem_mul_r (z / 256 / 256) 256) by lia.
  rewrite !Z.div_div by lia.
  change (2 ^ 8) with 256. change (2 ^ 16) with 65536.
  change (2 ^ 24) with 16777216. change (256 * 256) with 65536.
  change (65536 * 256) with 16777216. lia.
Qed.

Lemma Int32_of_to_bytes_wrap (z : Z) :
  Int32_of_bytes (Int32_to_bytes z) = Int32_wrap z.
Proof.
  unfold Int32_to_bytes, Int32_of_bytes.
  rewrite !Z_of_byte_of_Z. rewrite !Z.shiftr_div_pow2, !Z.shiftl_mul_pow2 by lia.
  rewrite bytes_recombine. apply Int32_wrap_mod.
Qed.

Lemma Int32_of_bytes_range (bs : list byte) :
  - 2 ^ 31 ≤ Int32_of_bytes bs < 2 ^ 31.
Proof.
  unfold Int32_of_bytes.
  destruct bs as [|b0 [|b1 [|b2 [|b3 [|b4 bs]]]]];
    first [apply Int32_wrap_range | lia].
Qed.

Lemma words_Int32_cons (z : Z) (rest : list byte) :
  words (Int32_to_bytes z ++ rest) = Int32_wrap z :: words rest.
Proof. rewrite <- Int32_of_to_bytes_wrap. reflexivity. Qed.

Lemma Int32_wrap_idemp (z : Z) : Int32_wrap (Int32_wrap z) = Int32_wrap z.
Proof. apply Int32_wrap_small, Int32_wrap_range. Qed.

Lemma mid_increment_Int32 (lk : epicsMutexLockStatus) (mid : Z) :
  Int32_wrap (mid_increment lk mid).1 = (mid_increment lk mid).1.
Proof.
  unfold mid_increment. destruct (decide (lk = epicsMutexLockOK)); [|done].
  destruct (decide (Int32_wrap (mid + 1) > 10000)); [done|].
  apply Int32_wrap_idemp.
Qed.

Lemma sent_requests_app (t1 t2 : list io_event) :
  sent_requests (t1 ++ t2) = sent_requests t1 ++ sent_requests t2.
Proof. apply omap_app. Qed.

Lemma words_get (h : UcProtocol.UcTelegram) :
  words (take UcProtocol.sizeof_UcGetTelegram (UcProtocol.UcGetTelegram_bytes h))
  = [Int32_wrap (UcProtocol.length h); Int32_wrap (UcProtocol.opcode h);
     Int32_wrap (UcProtocol.address h); Int32_wrap (UcProtocol.index h);
     Int32_wrap (UcProtocol.correlationNumber h)].
Proof.
  rewrite take_ge by (unfold UcProtocol.sizeof_UcGetTelegram; reflexivity).
  unfold UcProtocol.UcGetTelegram_bytes, UcProtocol.hdr_bytes.
  rewrite <- (app_nil_r (Int32_to_bytes (UcProtocol.correlationNumber h))).
  by rewrite !words_Int32_cons.
Qed.

Lemma words_set (h : UcProtocol.UcTelegram) (v : Z) :
  words (take UcProtocol.sizeof_UcSetTelegram (UcProtocol.UcSetTelegram_bytes h v))
  = [Int32_wrap (UcProtocol.length h); Int32_wrap (UcProtocol.opcode h);
     Int32_wrap (UcProtocol.address h); Int32_wrap (UcProtocol.index h);
     Int32_wrap (UcProtocol.correlationNumber h); Int32_wrap v].
Proof.
  rewrite take_ge by (unfold UcProtocol.sizeof_UcSetTelegram; reflexivity).
  unfold UcProtocol.UcSetTelegram_bytes, UcProtocol.hdr_bytes.
  rewrite <- (app_nil_r (Int32_to_bytes v)).
  rewrite <- !app_assoc.
  by rewrite !words_Int32_cons.
Qed.

Lemma copy_raw_lookup (n off : nat) (src dst : list byte) (i : nat) :
  copy_raw n off src dst !! i
  = if decide ((off ≤ i < off + n)%nat ∧ (i < List.length dst)%nat)
    then Some (src !!! (i - off)%nat) else dst !! i.
Proof.
  unfold copy_raw. revert dst.
  induction n as [|n IH]; intros dst.
  - simpl. rewrite decide_False by lia. done.
  - rewrite seq_S, foldl_app. simpl.
    destruct (decide (i = (n + off)%nat)) as [->|Hne].
    + destruct (decide ((n + off < List.length dst)%nat)) as [Hlt|Hge].
      * rewrite list_lookup_insert_eq.
        2:{ fold (copy_raw n off src dst). rewrite length_copy_raw. done. }
        rewrite decide_True by lia. do 2 f_equal. lia.
      * rewrite list_insert_ge.
        2:{ fold (copy_raw n off src dst). rewrite length_copy_raw. lia. }
        rewrite IH. rewrite !decide_False by lia. done.
    + rewrite list_lookup_insert_ne by done. rewrite IH.
      destruct (decide ((off ≤ i < off + n)%nat ∧ (i < List.length dst)%nat)).
      * rewrite decide_True by lia. done.
      * rewrite decide_False by lia. done.
Qed.

Lemma copy_raw_all (n : nat) (src rest dst : list byte) :
  List.length src = n → List.length dst = n →
  copy_raw n 0 (src ++ rest) dst = src.
Proof.
  intros Hs Hd. apply list_eq. intros i. rewrite copy_raw_lookup.
  destruct (decide ((0 ≤ i < 0 + n)%nat ∧ (i < List.length dst)%nat)) as [Hi|Hi].
  - rewrite Nat.sub_0_r.
    assert (is_Some (src !! i)) as [b Hb] by (apply lookup_lt_is_Some; lia).
    rewrite Hb. f_equal. apply list_lookup_total_correct.
    by apply lookup_app_l_Some.
  - rewrite !lookup_ge_None_2 by lia. done.
Qed.

Lemma ack_fields (h : UcProtocol.UcTelegram) (reason data0 : Z) :
  let tel := UcProtocol.UcAckTelegram_bytes h reason data0 in
  UcProtocol.ack_length tel = Int32_wrap (UcProtocol.length h)
  ∧ UcProtocol.ack_correlationNumber tel
    = Int32_wrap (UcProtocol.correlationNumber h)
  ∧ UcProtocol.ack_reason tel = Int32_wrap reason
  ∧ UcProtocol.ack_data0 tel = Int32_wrap data0.
Proof.
  cbn zeta. rewrite <- !Int32_of_to_bytes_wrap. repeat split; reflexivity.
Qed.

Lemma length_reply_to (msg : list byte) (d : Z) : List.length (reply_to msg d) = 28%nat.
Proof. reflexivity. Qed.

Lemma load_Int32_range (off : nat) (buf : list byte) :
  Int32_wrap (load_Int32 off buf) = load_Int32 off buf.
Proof. apply Int32_wrap_small, Int32_of_bytes_range. Qed.

Lemma words_lookup_load (msg : list byte) (k : nat) (z : Z) :
  words msg !! k = Some z → load_Int32 (4 * k) msg = z.
Proof.
  revert msg. induction k as [|k IH]; intros msg.
  - destruct msg as [|b0 [|b1 [|b2 [|b3 rest]]]]; simpl; try done.
    intros [= <-]. unfold load_Int32. simpl. done.
  - destruct msg as [|b0 [|b1 [|b2 [|b3 rest]]]]; try done.
    cbn [words]. rewrite lookup_cons. intros Hk. apply IH in Hk.
    rewrite <- Hk. unfold load_Int32.
    replace (4 * S k)%nat with (4 + 4 * k)%nat by lia. reflexivity.
Qed.

Lemma request_kind_words (msg : list byte) (len op ad : Z) (rest : list Z) :
  words msg = len :: op :: ad :: rest → request_kind msg = (op, ad).
Proof.
  intros Hw. unfold request_kind.
  pose proof (words_lookup_load msg 1 op) as H1.
  pose proof (words_lookup_load msg 2 ad) as H2.
  rewrite Hw in H1, H2. f_equal; [by apply H1|by apply H2].
Qed.

Lemma request_data0_words (msg : list byte) (w0 w1 w2 w3 w4 d : Z) (rest : list Z) :
  words msg = w0 :: w1 :: w2 :: w3 :: w4 :: d :: rest → request_data0 msg = d.
Proof.
  intros Hw. unfold request_data0.
  pose proof (words_lookup_load msg 5 d) as H5.
  rewrite Hw in H5. by apply H5.
Qed.

Lemma sent_requests_reads (u : asynUser) (n k : nat) :
  sent_requests (replicate k (EvRead u n)) = [].
Proof. induction k; [done|]. simpl. exact IHk. Qed.

Ltac params_tac :=
  unfold update_limits;
  repeat match goal with |- context [decide ?P] => destruct (decide P) end;
  cbn [params previous_position previous_direction reference_position
       reference_search amplitude axis pasynUser pDrv_card pDrv_pasynUser
       set_param with_params with_previous
       with_reference_position with_reference_search with_amplitude];
  unfold setInteger, setDouble;
  repeat first [ rewrite lookup_insert_eq
               | rewrite lookup_insert_ne by (let H := fresh in intros H; discriminate H) ];
  try reflexivity.

Ltac const_range := unfold ID_ANC_STATUS, ID_ANC_AMPL, ID_ANC_REFCOUNTER,
  ID_ANC_COUNTER, ID_ANC_SGL_FWD, ID_ANC_TARGET, ID_ANC_RUN_TARGET,
  ID_ANC_CONT_FWD, ID_ANC_CONT_BKWD, ID_ANC_SGL_BKWD, ID_ANC_RUN_RELATIVE,
  ID_ANC_STOP_EN, ID_ANC_REGSPD_SELSP; lia.

(** ** The motor driver: the telegrams of one exchange *)

Section MotorIO.
Import Anc350AsynMotor.
Context {W : Type} `{!Externals W}.

Lemma alloca_length (n : nat) (s : state W) :
  List.length (liftW (alloca n) s).1 = n.
Proof.
  unfold liftW, alloca. destruct (indeterminate n (ext (io s))) as [bs e].
  simpl. rewrite length_take, length_app, length_replicate. lia.
Qed.

Lemma next_localMid_spec (s : state W) :
  ∃ lk, lk = (liftW (lock midMutexId) s).1
        ∧ ((next_localMid s).1, mid (next_localMid s).2) = mid_increment lk (mid s).
Proof.
  unfold next_localMid, bind.
  pose proof (lock_frame midMutexId s) as (Hm & _ & _).
  destruct (liftW (lock midMutexId) s) as [lk s1]. simpl in *.
  exists lk. split; [done|]. rewrite Hm.
  destruct (mid_increment lk (mid s)); done.
Qed.

(** Everything [motorAxisSet] does. *)
Lemma motorAxisSet_spec (pAxis : motorAxis) (location value logGlobal : Z)
    (s : state W) :
  let r := motorAxisSet pAxis location value logGlobal s in
  ∃ (lk : epicsMutexLockStatus) (msg : list byte),
    (r.1 = MOTOR_AXIS_OK ∨ r.1 = MOTOR_AXIS_ERROR)
    ∧ comms r.2 = comms s
    ∧ mid r.2 = (mid_increment lk (mid s)).2
    ∧ trace (io r.2)
      = trace (io s)
        ++ [EvSyncWrite (if decide (logGlobal ≠ 0) then pDrv_pasynUser pAxis
                         else pasynUser pAxis) msg]
    ∧ words msg = [20; UcProtocol.UC_SET; Int32_wrap location;
                   Int32_wrap (axis pAxis - 1);
                   (mid_increment lk (mid s)).1; Int32_wrap value].
Proof.
  unfold motorAxisSet, bind.
  pose proof (next_localMid_frame s) as (Hc1 & Ht1).
  pose proof (next_localMid_spec s) as (lk & _ & Hlk).
  destruct (next_localMid s) as [lm s1].
  match goal with |- context [liftW (call_syncio_write ?u ?m) ?s] =>
    pose proof (syncio_write_frame u m s) as (Hm2 & Hc2 & Ht2);
    destruct (liftW (call_syncio_write u m) s) as [[st n] s2];
    exists lk, m end.
  cbn beta iota zeta. cbn [fst snd] in *.
  rewrite <- Hlk. cbn [fst snd].
  assert (Int32_wrap lm = lm) as Hlm.
  { replace lm with (mid_increment lk (mid s)).1 by (by rewrite <- Hlk).
    apply mid_increment_Int32. }
  destruct (decide (st ≠ asynSuccess)); unfold ret; cbn [fst snd];
    rewrite Ht2, Ht1, Hc2, Hc1, Hm2, words_set; cbn;
    rewrite Int32_wrap_idemp, Hlm; repeat split; auto.
Qed.

(** What [motorAxisGet] sends, and the identifier it takes. *)
Lemma motorAxisGet_io (pAxis : motorAxis) (location value logGlobal : Z)
    (s : state W) :
  let r := motorAxisGet pAxis location value logGlobal s in
  ∃ (lk : epicsMutexLockStatus) (msg : list byte),
    (localMid r.1, mid r.2) = mid_increment lk (mid s)
    ∧ trace (io r.2)
      = trace (io s)
        ++ [EvWriteRead (if decide (logGlobal ≠ 0) then pDrv_pasynUser pAxis
                         else pasynUser pAxis) msg 28]
    ∧ words msg = [16; UcProtocol.UC_GET; Int32_wrap location;
                   Int32_wrap (axis pAxis - 1); localMid r.1]
    ∧ List.length msg = 20%nat.
Proof.
  unfold motorAxisGet, bind.
  pose proof (alloca_frame 512 s) as (Hm1 & _ & Ht1).
  destruct (liftW (alloca 512) s) as [raw0 s1].
  pose proof (alloca_frame UcProtocol.sizeof_UcAckTelegram s1) as (Hm2 & _ & Ht2).
  destruct (liftW (alloca UcProtocol.sizeof_UcAckTelegram) s1) as [tel0 s2].
  pose proof (next_localMid_frame s2) as (_ & Ht3).
  pose proof (next_localMid_spec s2) as (lk & _ & Hlk).
  destruct (next_localMid s2) as [lm s3].
  match goal with |- context [liftW (call_syncio_writeRead ?u ?m ?n) s3] =>
    pose proof (writeRead_frame u m n s3) as (Hm4 & _ & Ht4);
    assert (List.length m = 20%nat) as Hlen by reflexivity;
    destruct (liftW (call_syncio_writeRead u m n) s3) as [[st bs] s4];
    exists lk, m end.
  cbn [fst snd] in *.
  assert (Int32_wrap lm = lm) as Hlm.
  { replace lm with (mid_increment lk (mid s2)).1 by (by rewrite <- Hlk).
    apply mid_increment_Int32. }
  set (tel1 := copy_raw _ _ _ _).
  destruct (decide (st = asynSuccess)) as [Hst|Hst];
    [destruct (decide (UcProtocol.ack_correlationNumber tel1 = lm)) as [Hm|Hm]|].
  all: match goal with |- context [record_comms ?a ?x ?s] =>
         pose proof (record_comms_spec a x s) as (Hm5 & Hio & _ & _);
         destruct (record_comms a x s) as [[r a'] s5] end.
  all: cbn [fst snd localMid] in *; unfold ret; cbn [fst snd localMid].
  all: rewrite Hm5, Hm4, Hio, Ht4, Ht3, Ht2, Ht1, words_get; cbn.
  all: rewrite Int32_wrap_idemp, Hlm, <- Hm1, <- Hm2; repeat split; auto.
Qed.

End MotorIO.

Section Answered.
Import Anc350AsynMotor.
Context {W : Type} `{!Externals W}.

(** When the controller answers, [motorAxisGet] gives what the object
    addressed holds. *)
Lemma motorAxisGet_answered (regs : Z → Z) (pAxis : motorAxis)
    (location value logGlobal : Z) (s : state W) :
  answers regs →
  let r := motorAxisGet pAxis location value logGlobal s in
  ret_status r.1 = MOTOR_AXIS_OK
  ∧ value_out r.1 = Int32_wrap (regs (Int32_wrap location))
  ∧ axis_out r.1 = set_param pAxis motorAxisCommError 0
  ∧ comms r.2 = 0.
Proof.
  intros Hans r. subst r.
  destruct (motorAxisGet pAxis location value logGlobal s) as [g s'] eqn:E.
  cbn [fst snd]. revert E.
  pose proof (next_localMid_spec) as Hnl.
  unfold motorAxisGet, bind.
  pose proof (alloca_length 512 s) as Hl1.
  destruct (liftW (alloca 512) s) as [raw0 s1].
  pose proof (alloca_length UcProtocol.sizeof_UcAckTelegram s1) as Hl2.
  destruct (liftW (alloca UcProtocol.sizeof_UcAckTelegram) s1) as [tel0 s2].
  specialize (Hnl s2) as (lk & _ & Hlk).
  destruct (next_localMid s2) as [lm s3].
  cbn [fst snd] in *.
  assert (Int32_wrap lm = lm) as Hlm.
  { replace lm with (mid_increment lk (mid s2)).1 by (by rewrite <- Hlk).
    apply mid_increment_Int32. }
  match goal with |- context [liftW (call_syncio_writeRead ?u ?m ?n) s3] =>
    pose proof (words_get _ : words m = _) as Hw;
    set (msg := m) in *; set (usr := u) end.
  cbn [UcProtocol.length UcProtocol.opcode UcProtocol.address UcProtocol.index
       UcProtocol.correlationNumber] in Hw.
  pose proof (words_lookup_load msg 4 lm) as Hcn.
  pose proof (words_lookup_load msg 2 (Int32_wrap location)) as Had.
  rewrite Hw in Hcn, Had. cbn [lookup list_lookup] in Hcn, Had.
  rewrite Hlm in Hcn. specialize (Hcn eq_refl). specialize (Had eq_refl).
  change (4 * 4)%nat with UcProtocol.off_correlationNumber in Hcn.
  change (4 * 2)%nat with UcProtocol.off_address in Had.
  unfold liftW at 1, call_syncio_writeRead.
  destruct (Hans usr msg (ext (io s3))) as (n & e & ->).
  cbn [fst snd].
  rewrite Had.
  set (d := regs _).
  rewrite take_ge by (rewrite length_reply_to; lia).
  rewrite length_reply_to.
  rewrite (copy_raw_all 28 (reply_to msg d)) by done.
  rewrite decide_True by done.
  destruct (ack_fields
    {| UcProtocol.length := 24; UcProtocol.opcode := UcProtocol.UC_ACK;
       UcProtocol.address := load_Int32 UcProtocol.off_address msg;
       UcProtocol.index := load_Int32 UcProtocol.off_index msg;
       UcProtocol.correlationNumber :=
         load_Int32 UcProtocol.off_correlationNumber msg |} 0 d)
    as (_ & Hc & _ & Hd).
  cbn zeta in Hc, Hd. fold (reply_to msg d) in Hc, Hd.
  cbn [UcProtocol.correlationNumber] in Hc.
  rewrite load_Int32_range, Hcn in Hc.
  rewrite decide_True by done.
  match goal with |- context [record_comms ?a ?x ?s] =>
    pose proof (record_comms_spec a x s) as (_ & _ & Hr & Hcm);
    destruct (record_comms a x s) as [[r a'] s5] end.
  rewrite decide_False in Hr by (intros H; by apply H).
  rewrite decide_False in Hcm by (intros H; by apply H).
  injection Hr as -> ->. cbn [fst snd] in *. unfold ret.
  intros [= <- <-]. cbn [ret_status value_out axis_out]. by rewrite Hd.
Qed.
End Answered.

Section Exchange.
Import Anc350AsynMotor.
Context {W : Type} `{!Externals W}.

(** X1. [motorAxisGet] makes one transport call: a [writeRead] on the
    driver's asynUser when [logGlobal] is non-zero and on the axis' own
    otherwise, asking for a reply of at most 28 bytes.  The request is 20
    bytes long; its words are the length 16, the opcode [UC_GET], the
    location, the axis number less one, and the identifier handed out by
    the [mid] block, which the call runs once. *)
Theorem motorAxisGet_request (pAxis : motorAxis) (location value logGlobal : Z)
    (s : state W) :
  - 2 ^ 31 ≤ location < 2 ^ 31 → - 2 ^ 31 < axis pAxis ≤ 2 ^ 31 →
  let r := motorAxisGet pAxis location value logGlobal s in
  ∃ msg : list byte,
    trace (io r.2)
    = trace (io s)
      ++ [EvWriteRead (if decide (logGlobal ≠ 0) then pDrv_pasynUser pAxis
                       else pasynUser pAxis) msg 28]
    ∧ List.length msg = 20%nat
    ∧ words msg = [16; UcProtocol.UC_GET; location; axis pAxis - 1; localMid r.1]
    ∧ ∃ lk, mid_increment lk (mid s) = (localMid r.1, mid r.2).
Proof.
  intros Hloc Hax r. subst r.
  destruct (motorAxisGet_io pAxis location value logGlobal s)
    as (lk & msg & Hmid & Ht & Hw & Hlen).
  exists msg. rewrite !Int32_wrap_small in Hw by lia.
  repeat split; try done. by exists lk.
Qed.

(** X2. [motorAxisSet] makes one transport call, the write of a request
    whose six words are the length 20, the opcode [UC_SET], the location,
    the axis number less one, the identifier of the [mid] block and the
    value.  It returns [MOTOR_AXIS_OK] or [MOTOR_AXIS_ERROR], and it never
    changes the consecutive-failure count [comms]. *)
Theorem motorAxisSet_request (pAxis : motorAxis) (location value logGlobal : Z)
    (s : state W) :
  - 2 ^ 31 ≤ location < 2 ^ 31 → - 2 ^ 31 ≤ value < 2 ^ 31 →
  - 2 ^ 31 < axis pAxis ≤ 2 ^ 31 →
  let r := motorAxisSet pAxis location value logGlobal s in
  (r.1 = MOTOR_AXIS_OK ∨ r.1 = MOTOR_AXIS_ERROR)
  ∧ comms r.2 = comms s
  ∧ ∃ (msg : list byte) (lk : epicsMutexLockStatus),
      trace (io r.2)
      = trace (io s)
        ++ [EvSyncWrite (if decide (logGlobal ≠ 0) then pDrv_pasynUser pAxis
                         else pasynUser pAxis) msg]
      ∧ words msg = [20; UcProtocol.UC_SET; location; axis pAxis - 1;
                     (mid_increment lk (mid s)).1; value]
      ∧ mid r.2 = (mid_increment lk (mid s)).2.
Proof.
  intros Hloc Hval Hax r. subst r.
  destruct (motorAxisSet_spec pAxis location value logGlobal s)
    as (lk & msg & Hr & Hc & Hm & Ht & Hw).
  split; [done|]. split; [done|]. exists msg, lk.
  rewrite !Int32_wrap_small in Hw by lia. done.
Qed.

(** X3. When the controller answers every request with an acknowledgement
    that repeats the correlation number of the request and carries the
    content of the object addressed, [motorAxisGet] returns
    [MOTOR_AXIS_OK], stores that content in [*value], puts the
    consecutive-failure count to 0 and clears the comm-error parameter,
    whatever the count, the identifier counter and the outcome of the [mid]
    lock were. *)
Theorem motorAxisGet_reads_object (regs : Z → Z) (pAxis : motorAxis)
    (location value logGlobal : Z) (s : state W) :
  answers regs →
  - 2 ^ 31 ≤ location < 2 ^ 31 → - 2 ^ 31 ≤ regs location < 2 ^ 31 →
  let r := motorAxisGet pAxis location value logGlobal s in
  ret_status r.1 = MOTOR_AXIS_OK
  ∧ value_out r.1 = regs location
  ∧ comms r.2 = 0
  ∧ comm_error (axis_out r.1) = false.
Proof.
  intros Hans Hloc Hreg r. subst r.
  destruct (motorAxisGet_answered regs pAxis location value logGlobal s Hans)
    as (Hr & Hv & Ha & Hc).
  cbn zeta in *. rewrite Hv, Ha, comm_error_set.
  rewrite (Int32_wrap_small location) by done.
  rewrite Int32_wrap_small by done. done.
Qed.
End Exchange.

(** ** The message identifier: reuse *)

(** X4. While the [mid] lock is taken each time, two executions of the
    [mid] block less than 10000 executions apart hand out different
    identifiers, and two executions exactly 10000 apart hand out the same
    one. *)
Theorem mid_reuse_distance (n i j : nat) (mid : Z) :
  0 ≤ mid ≤ 10000 → (i < j)%nat → (j < n)%nat →
  let ids := (mid_calls (replicate n epicsMutexLockOK) mid).1 in
  (Z.of_nat j - Z.of_nat i < 10000 → ids !! i ≠ ids !! j)
  ∧ (Z.of_nat j - Z.of_nat i = 10000 → ids !! i = ids !! j).
Proof.
  intros Hm Hij Hjn ids. subst ids.
  rewrite !mid_calls_OK_lookup by (done || lia).
  split.
  - intros Hd [= Heq].
    assert ((mid + Z.of_nat j) `mod` 10000 = (mid + Z.of_nat i) `mod` 10000) as He
      by lia.
    apply Z.cong_iff_ex in He as (k & Hk). nia.
  - intros Hd. do 2 f_equal.
    replace (mid + Z.of_nat j) with (mid + Z.of_nat i + 1 * 10000) by lia.
    by rewrite Z_mod_plus_full.
Qed.

(** ** The motor driver: what a poll sends and publishes *)

Lemma bit_field (v : Z) (k : Z) :
  0 ≤ k → Z.land v (2 ^ k) ≫ k = Z.b2z (Z.testbit v k).
Proof.
  intros Hk. apply Z.bits_inj'. intros n Hn.
  rewrite Z.shiftr_spec, Z.land_spec, Z.pow2_bits_eqb by lia.
  destruct (decide (n = 0)) as [->|Hne].
  - rewrite Z.add_0_l, Z.eqb_refl, andb_true_r.
    destruct (Z.testbit v k); reflexivity.
  - rewrite (proj2 (Z.eqb_neq k (n + k))) by lia. rewrite andb_false_r.
    destruct (Z.testbit v k); simpl.
    + symmetry. apply (Z.bits_above_log2 1 n); simpl; lia.
    + symmetry. apply Z.bits_0.
Qed.

Section Decode.
Import Anc350AsynMotor.
Context {W : Type} `{!Externals W}.

Lemma referenced_bit (value : Z) :
  Z.land value ANC_STATUS_REF_VALID ≫ 11 = Z.b2z (Z.testbit value 11).
Proof. exact (bit_field value 11 ltac:(lia)). Qed.

Lemma decode_status_spec (pAxis : motorAxis) (value : Z) (s : state W) :
  let r := decode_status pAxis value s in
  let referenced := Z.b2z (Z.testbit value 11) in
  let a1 := set_param pAxis motorAxisDone
              (if decide (Z.land value ANC_STATUS_RUNNING = 0) then 1 else 0) in
  r.1.2 = Z.land value ANC_STATUS_HUMP ≫ 1
  ∧ ((Z.testbit value 11 = false ∧ r.2 = s
      ∧ r.1.1 = set_param (set_param a1 motorAxisHomed 0) motorAxisHomeSignal 0)
     ∨ (Z.testbit value 11 = true ∧ reference_search pAxis ≠ 1 ∧ r.2 = s
        ∧ r.1.1 = a1)
     ∨ (Z.testbit value 11 = true ∧ reference_search pAxis = 1
        ∧ r.2 = (motorAxisSet (with_reference_search a1 0) ID_ANC_SGL_FWD 1 0 s).2
        ∧ r.1.1 = set_param
                    (set_param
                       (set_param (with_reference_search a1 0) motorAxisDone 1)
                       motorAxisHomed 1)
                    motorAxisHomeSignal 1)).
Proof.
  unfold decode_status, bind, ret. rewrite referenced_bit.
  set (a1 := if decide (Z.land value ANC_STATUS_RUNNING = 0)
             then set_param pAxis motorAxisDone 1
             else set_param pAxis motorAxisDone 0).
  assert (a1 = set_param pAxis motorAxisDone
                 (if decide (Z.land value ANC_STATUS_RUNNING = 0) then 1 else 0))
    as <- by (subst a1; by case_decide).
  assert (reference_search a1 = reference_search pAxis) as Hrs
    by (subst a1; by case_decide).
  clearbody a1. cbn zeta.
  destruct (Z.testbit value 11); cbn [Z.b2z].
  - rewrite decide_False by done. rewrite Hrs.
    destruct (decide (reference_search pAxis = 1)) as [H1|H1].
    + destruct (motorAxisSet _ _ _ _ s) as [x s1]. cbn [fst snd].
      split; [done|]. right. right. done.
    + cbn [fst snd]. split; [done|]. right. left. done.
  - rewrite decide_True by done. cbn [fst snd]. split; [done|]. left. done.
Qed.
End Decode.

Section PollRequests.
Import Anc350AsynMotor.
Context {W : Type} `{!Externals W}.

Lemma motorAxisGet_sent (pAxis : motorAxis) (location value logGlobal : Z)
    (s : state W) :
  - 2 ^ 31 ≤ location < 2 ^ 31 →
  ∃ msg, sent_requests (trace (io (motorAxisGet pAxis location value logGlobal s).2))
         = sent_requests (trace (io s)) ++ [msg]
         ∧ request_kind msg = (UcProtocol.UC_GET, location).
Proof.
  intros Hloc.
  destruct (motorAxisGet_io pAxis location value logGlobal s)
    as (lk & msg & _ & Ht & Hw & _).
  exists msg. rewrite Ht, sent_requests_app. split; [done|].
  rewrite (request_kind_words _ _ _ _ _ Hw). by rewrite Int32_wrap_small.
Qed.

Lemma motorAxisSet_sent (pAxis : motorAxis) (location value logGlobal : Z)
    (s : state W) :
  - 2 ^ 31 ≤ location < 2 ^ 31 → - 2 ^ 31 ≤ value < 2 ^ 31 →
  ∃ msg, sent_requests (trace (io (motorAxisSet pAxis location value logGlobal s).2))
         = sent_requests (trace (io s)) ++ [msg]
         ∧ request_kind msg = (UcProtocol.UC_SET, location)
         ∧ request_data0 msg = value
         ∧ comms (motorAxisSet pAxis location value logGlobal s).2 = comms s.
Proof.
  intros Hloc Hval.
  destruct (motorAxisSet_spec pAxis location value logGlobal s)
    as (lk & msg & _ & Hc & _ & Ht & Hw).
  exists msg. rewrite Ht, sent_requests_app. split; [done|].
  rewrite (request_kind_words _ _ _ _ _ Hw).
  rewrite (request_data0_words _ _ _ _ _ _ _ _ Hw).
  by rewrite !Int32_wrap_small.
Qed.

Lemma lock_granted (m : mutexId) (s : state W) :
  locks_granted → (liftW (lock m) s).1 = epicsMutexLockOK.
Proof.
  intros Hl. unfold liftW, lock. specialize (Hl m (ext (io s))).
  destruct (epicsMutexLock m (ext (io s))). done.
Qed.

Lemma lock_denied (m : mutexId) (s : state W) :
  (∀ w, (epicsMutexLock m w).1 ≠ epicsMutexLockOK) →
  (liftW (lock m) s).1 ≠ epicsMutexLockOK.
Proof.
  intros Hl. unfold liftW, lock. specialize (Hl (ext (io s))).
  destruct (epicsMutexLock m (ext (io s))). done.
Qed.

(** X5. A poll that gets the axis mutex sends, in this order, a get of the
    status, of the amplitude, of the reference counter and of the counter,
    whatever the outcome of each (a failed read does not end the poll).  The
    only other request it can send is the set of a single step forward,
    right after the status read, and only when that read succeeded while a
    reference search was in progress.  A poll that does not get the axis
    mutex sends nothing and leaves the axis, the identifier counter and the
    failure count as they were. *)
Theorem poll_requests (pAxis : motorAxis) (globalStatus : Z) (s : state W) :
  let r := drvAnc350GetAxisStatus pAxis globalStatus s in
  match r.1.2 with
  | Some p =>
      ∃ msgs : list (list byte),
        sent_requests (trace (io r.2)) = sent_requests (trace (io s)) ++ msgs
        ∧ (request_kind <$> msgs
           = [(UcProtocol.UC_GET, ID_ANC_STATUS); (UcProtocol.UC_GET, ID_ANC_AMPL);
              (UcProtocol.UC_GET, ID_ANC_REFCOUNTER);
              (UcProtocol.UC_GET, ID_ANC_COUNTER)]
           ∨ request_kind <$> msgs
             = [(UcProtocol.UC_GET, ID_ANC_STATUS);
                (UcProtocol.UC_SET, ID_ANC_SGL_FWD);
                (UcProtocol.UC_GET, ID_ANC_AMPL);
                (UcProtocol.UC_GET, ID_ANC_REFCOUNTER);
                (UcProtocol.UC_GET, ID_ANC_COUNTER)]
             ∧ reference_search pAxis = 1 ∧ humpstatus p = MOTOR_AXIS_OK)
  | None =>
      r.1.1 = pAxis ∧ trace (io r.2) = trace (io s)
      ∧ mid r.2 = mid s ∧ comms r.2 = comms s
  end.
Proof.
  unfold drvAnc350GetAxisStatus, bind.
  pose proof (lock_frame (axisMutex (pDrv_card pAxis) (axis pAxis)) s)
    as (Hm0 & Hc0 & Ht0).
  destruct (liftW (lock _) s) as [lk s0].
  destruct (decide (lk = epicsMutexLockOK)) as [Hlk|Hlk]; [|done].
  pose proof (alloca_frame 4 s0) as (_ & _ & Ht1).
  destruct (liftW (alloca 4) s0) as [v0 s1].
  pose proof (motorAxisGet_sent pAxis ID_ANC_STATUS (Int32_of_bytes v0) 0 s1
                ltac:(const_range)) as (m1 & T1 & K1).
  pose proof (motorAxisGet_spec pAxis ID_ANC_STATUS (Int32_of_bytes v0) 0 s1)
    as (_ & Hsp).
  destruct (motorAxisGet pAxis ID_ANC_STATUS (Int32_of_bytes v0) 0 s1) as [g s2].
  cbn [fst snd] in *.
  set (blk := if decide (ret_status g = asynSuccess_int)
              then decode_status (axis_out g) (value_out g)
              else ret (axis_out g, 0)).
  assert (sent_requests (trace (io (blk s2).2)) = sent_requests (trace (io s2))
          ∨ ∃ m, sent_requests (trace (io (blk s2).2))
                 = sent_requests (trace (io s2)) ++ [m]
                 ∧ request_kind m = (UcProtocol.UC_SET, ID_ANC_SGL_FWD)
                 ∧ reference_search pAxis = 1
                 ∧ ret_status g = MOTOR_AXIS_OK) as Hblk.
  { subst blk. destruct (decide (ret_status g = asynSuccess_int)) as [Hg|Hg];
      [|by left].
    destruct (decode_status_spec (axis_out g) (value_out g) s2)
      as (_ & [(_ & -> & _)|[(_ & _ & -> & _)|(_ & Hrs & -> & _)]]);
      [by left|by left|].
    right.
    match goal with |- context [motorAxisSet ?a ?l ?v ?lg ?s] =>
      destruct (motorAxisSet_sent a l v lg s ltac:(const_range) ltac:(lia))
        as (m & Hm & Hk & _) end.
    exists m. repeat split; try done.
    destruct Hsp as [(_ & _ & _ & _ & _ & _ & Ha)|(Hr & _)].
    - rewrite Ha in Hrs. exact Hrs.
    - rewrite Hr in Hg. discriminate. }
  destruct (blk s2) as [[a2 hmp] s3]. cbn [fst snd] in *.
  pose proof (motorAxisGet_sent a2 ID_ANC_AMPL (value_out g) 0 s3
                ltac:(const_range)) as (m2 & T2 & K2).
  destruct (motorAxisGet a2 ID_ANC_AMPL (value_out g) 0 s3) as [ga s4].
  cbn [fst snd] in *.
  pose proof (motorAxisGet_sent (with_amplitude (axis_out ga) (value_out ga))
                ID_ANC_REFCOUNTER (value_out ga) 0 s4 ltac:(const_range))
    as (m3 & T3 & K3).
  destruct (motorAxisGet (with_amplitude (axis_out ga) (value_out ga))
              ID_ANC_REFCOUNTER (value_out ga) 0 s4) as [gr s5].
  cbn [fst snd] in *.
  pose proof (motorAxisGet_sent (axis_out gr) ID_ANC_COUNTER (value_out gr) 0 s5
                ltac:(const_range)) as (m4 & T4 & K4).
  destruct (motorAxisGet (axis_out gr) ID_ANC_COUNTER (value_out gr) 0 s5)
    as [gp s6].
  cbn [fst snd] in *.
  assert (sent_requests (trace (io s1)) = sent_requests (trace (io s))) as T0
    by (by rewrite Ht1, Ht0).
  destruct (decide (ret_status gp = asynSuccess_int));
    [destruct (update_position _ _ _) as [[ap po] d]|];
    unfold ret; cbn [fst snd humpstatus].
  all: destruct Hblk as [Tb|(m & Tb & Kb & Hrs & Hg)].
  all: rewrite T4, T3, T2, Tb, T1, T0, <- !app_assoc.
  all: eexists; (split; [reflexivity|]); cbn [fmap list_fmap app].
  all: rewrite ?K1, ?K2, ?K3, ?K4, ?Kb; auto.
Qed.
End PollRequests.

Section Homing.
Import Anc350AsynMotor.
Context {W : Type} `{!Externals W}.

(** What [motorAxisGet] leaves of the axis. *)
Lemma motorAxisGet_frame (pAxis : motorAxis) (location value logGlobal : Z)
    (s : state W) :
  let a := axis_out (motorAxisGet pAxis location value logGlobal s).1 in
  reference_search a = reference_search pAxis
  ∧ amplitude a = amplitude pAxis
  ∧ axis a = axis pAxis
  ∧ pDrv_card a = pDrv_card pAxis
  ∧ ∀ f, f ≠ motorAxisCommError → params a !! f = params pAxis !! f.
Proof.
  destruct (motorAxisGet_spec pAxis location value logGlobal s)
    as [_ [(_ & _ & _ & _ & _ & _ & Ha)|(_ & _ & _ & _ & _ & Ha)]];
    cbn zeta; rewrite Ha; [|case_decide]; repeat split; try done;
    intros f Hf; cbn [set_param with_params params]; unfold setInteger;
    by rewrite lookup_insert_ne.
Qed.

(** The part of the poll after the status block leaves alone everything
    but the parameters it publishes. *)
Lemma poll_tail_frame (a : motorAxis) (pos_ok : bool) (v rf hmp hs d gs : Z) :
  let a' := set_param
              (update_limits
                 (if pos_ok then (update_position a v rf).1.1 else a) hmp hs d)
              motorAxisProblem gs in
  reference_search a' = reference_search a
  ∧ amplitude a' = amplitude a
  ∧ ∀ f, f ∈ [motorAxisDone; motorAxisHomed; motorAxisHomeSignal;
              motorAxisCommError; motorAxisHasEncoder] →
         params a' !! f = params a !! f.
Proof.
  cbn zeta. unfold update_position. destruct pos_ok; cbn [fst snd].
  - split; [by params_tac|]. split; [by params_tac|].
    intros f Hf. rewrite !elem_of_cons, elem_of_nil in Hf.
    destruct Hf as [->|[->|[->|[->|[->|[]]]]]]; by params_tac.
  - split; [by params_tac|]. split; [by params_tac|].
    intros f Hf. rewrite !elem_of_cons, elem_of_nil in Hf.
    destruct Hf as [->|[->|[->|[->|[->|[]]]]]]; by params_tac.
Qed.

(** The poll as its status block followed by the three other reads and
    the publication. *)
Lemma poll_shape (pAxis : motorAxis) (globalStatus : Z) (s : state W) (p : poll) :
  let r := drvAnc350GetAxisStatus pAxis globalStatus s in
  r.1.2 = Some p →
  ∃ (s1 : state W) (v0 : Z) (a2 a3 : motorAxis) (s3 : state W) (v rf : Z),
    let g := (motorAxisGet pAxis ID_ANC_STATUS v0 0 s1).1 in
    let s2 := (motorAxisGet pAxis ID_ANC_STATUS v0 0 s1).2 in
    humpstatus p = ret_status g
    ∧ (a2, hump p, s3)
      = (if decide (ret_status g = asynSuccess_int)
         then decode_status (axis_out g) (value_out g) s2
         else (axis_out g, 0, s2))
    ∧ reference_search a3 = reference_search a2
    ∧ (∀ f, f ≠ motorAxisCommError → params a3 !! f = params a2 !! f)
    ∧ r.1.1 = set_param
                (update_limits
                   (if bool_decide (pos_status p = asynSuccess_int)
                    then (update_position a3 v rf).1.1 else a3)
                   (hump p) (humpstatus p) (direction p))
                motorAxisProblem globalStatus
    ∧ (pos_status p ≠ asynSuccess_int → direction p = 0)
    ∧ (pos_status p = asynSuccess_int → - 2 ^ 31 ≤ value p < 2 ^ 31)
    ∧ trace (io s1) = trace (io s)
    ∧ ∃ post : list (list byte),
        sent_requests (trace (io r.2)) = sent_requests (trace (io s3)) ++ post.
Proof.
  unfold drvAnc350GetAxisStatus, bind.
  pose proof (lock_frame (axisMutex (pDrv_card pAxis) (axis pAxis)) s)
    as (_ & _ & Ht0).
  destruct (liftW (lock _) s) as [lk s0].
  destruct (decide (lk = epicsMutexLockOK)) as [Hlk|Hlk]; [|done].
  pose proof (alloca_frame 4 s0) as (_ & _ & Ht1).
  destruct (liftW (alloca 4) s0) as [v0 s1].
  intros Hr. exists s1, (Int32_of_bytes v0). revert Hr.
  destruct (motorAxisGet pAxis ID_ANC_STATUS (Int32_of_bytes v0) 0 s1) as [g s2].
  cbn [fst snd].
  set (blk := if decide (ret_status g = asynSuccess_int)
              then decode_status (axis_out g) (value_out g)
              else ret (axis_out g, 0)).
  assert (blk s2 = if decide (ret_status g = asynSuccess_int)
                   then decode_status (axis_out g) (value_out g) s2
                   else (axis_out g, 0, s2)) as Hblk
    by (subst blk; by case_decide).
  destruct (blk s2) as [[a2 hmp] s3]. cbn [fst snd].
  pose proof (motorAxisGet_frame a2 ID_ANC_AMPL (value_out g) 0 s3)
    as (F1 & _ & _ & _ & P1).
  pose proof (motorAxisGet_sent a2 ID_ANC_AMPL (value_out g) 0 s3
                ltac:(const_range)) as (m2 & T2 & _).
  destruct (motorAxisGet a2 ID_ANC_AMPL (value_out g) 0 s3) as [ga s4].
  pose proof (motorAxisGet_frame (with_amplitude (axis_out ga) (value_out ga))
                ID_ANC_REFCOUNTER (value_out ga) 0 s4) as (F2 & _ & _ & _ & P2).
  pose proof (motorAxisGet_sent (with_amplitude (axis_out ga) (value_out ga))
                ID_ANC_REFCOUNTER (value_out ga) 0 s4 ltac:(const_range))
    as (m3 & T3 & _).
  destruct (motorAxisGet (with_amplitude (axis_out ga) (value_out ga))
              ID_ANC_REFCOUNTER (value_out ga) 0 s4) as [gr s5].
  pose proof (motorAxisGet_frame (axis_out gr) ID_ANC_COUNTER (value_out gr) 0 s5)
    as (F3 & _ & _ & _ & P3).
  pose proof (motorAxisGet_sent (axis_out gr) ID_ANC_COUNTER (value_out gr) 0 s5
                ltac:(const_range)) as (m4 & T4 & _).
  pose proof (motorAxisGet_spec (axis_out gr) ID_ANC_COUNTER (value_out gr) 0 s5)
    as (_ & Hgp).
  destruct (motorAxisGet (axis_out gr) ID_ANC_COUNTER (value_out gr) 0 s5)
    as [gp s6].
  cbn [fst snd] in *.
  intros Hr.
  exists a2, (axis_out gp), s3, (value_out gp),
    (if decide (ret_status gr = asynSuccess_int) then value_out gr
     else reference_position (axis_out gr)).
  revert Hr.
  assert (reference_search (axis_out gp) = reference_search a2) as F
    by (rewrite F3, F2; exact F1).
  assert (∀ f, f ≠ motorAxisCommError →
               params (axis_out gp) !! f = params a2 !! f) as P.
  { intros f Hf. rewrite P3, P2 by done. cbn [with_amplitude params]. by apply P1. }
  destruct (decide (ret_status gp = asynSuccess_int)) as [Hp|Hp].
  - destruct (update_position _ _ _) as [[ap po] d] eqn:Eu.
    unfold ret. cbn [fst snd]. intros [= <-].
    cbn [humpstatus hump pos_status direction].
    rewrite bool_decide_true by done. cbn [fst snd value].
    assert (- 2 ^ 31 ≤ value_out gp < 2 ^ 31) as Hv.
    { destruct Hgp as [(_ & _ & _ & _ & -> & _)|(Hx & _)].
      - apply Int32_of_bytes_range.
      - rewrite Hx in Hp. discriminate. }
    repeat split; try done; try (by rewrite Ht1, Ht0); try apply Hv.
    exists [m2; m3; m4]. rewrite T4, T3, T2, <- !app_assoc. done.
  - unfold ret. cbn [fst snd]. intros [= <-].
    cbn [humpstatus hump pos_status direction].
    rewrite bool_decide_false by done. cbn [value].
    repeat split; try done; try (by rewrite Ht1, Ht0).
    exists [m2; m3; m4]. rewrite T4, T3, T2, <- !app_assoc. done.
Qed.

End Homing.

Section PollAnswered.
Import Anc350AsynMotor.
Context {W : Type} `{!Externals W}.

(** X6. When the controller answers every request, a poll publishes as
    position and as encoder position the counter less the reference
    counter; it caches that position, the reference counter and the
    amplitude; it clears the comm-error parameter and the failure count and
    publishes [globalStatus] as the problem parameter; when no reference
    search is in progress it publishes done as the complement of the
    running bit; and it raises a hard limit exactly when the hump bit is
    set: the high one when the direction of the poll is 1, the low one
    otherwise. *)
Theorem poll_answered (regs : Z → Z) (pAxis : motorAxis) (globalStatus : Z)
    (s : state W) (p : poll) :
  answers regs → (∀ a, - 2 ^ 31 ≤ regs a < 2 ^ 31) →
  let r := drvAnc350GetAxisStatus pAxis globalStatus s in
  let pos := regs ID_ANC_COUNTER - regs ID_ANC_REFCOUNTER in
  r.1.2 = Some p →
  position p = Some pos
  ∧ params r.1.1 !! motorAxisPosition = Some pos
  ∧ params r.1.1 !! motorAxisEncoderPosn = Some pos
  ∧ previous_position r.1.1 = pos
  ∧ reference_position r.1.1 = regs ID_ANC_REFCOUNTER
  ∧ amplitude r.1.1 = regs ID_ANC_AMPL
  ∧ params r.1.1 !! motorAxisCommError = Some 0
  ∧ params r.1.1 !! motorAxisProblem = Some globalStatus
  ∧ comms r.2 = 0
  ∧ (reference_search pAxis ≠ 1 →
     params r.1.1 !! motorAxisDone
     = Some (if decide (Z.land (regs ID_ANC_STATUS) ANC_STATUS_RUNNING = 0)
             then 1 else 0))
  ∧ hump p = Z.land (regs ID_ANC_STATUS) ANC_STATUS_HUMP ≫ 1
  ∧ params r.1.1 !! motorAxisHighHardLimit
    = Some (if decide (hump p ≠ 0 ∧ direction p = 1) then 1 else 0)
  ∧ params r.1.1 !! motorAxisLowHardLimit
    = Some (if decide (hump p ≠ 0 ∧ direction p ≠ 1) then 1 else 0).
Proof.
  intros Hans Hrange r pos. subst r pos.
  assert (∀ loc, - 2 ^ 31 ≤ loc < 2 ^ 31 → Int32_wrap (regs (Int32_wrap loc)) = regs loc)
    as Hreg.
  { intros loc Hloc. rewrite (Int32_wrap_small loc) by done.
    by apply Int32_wrap_small. }
  unfold drvAnc350GetAxisStatus, bind.
  destruct (liftW (lock _) s) as [lk s0].
  destruct (decide (lk = epicsMutexLockOK)) as [Hlk|Hlk]; [|done].
  destruct (liftW (alloca 4) s0) as [v0 s1].
  pose proof (motorAxisGet_answered regs pAxis ID_ANC_STATUS (Int32_of_bytes v0) 0 s1 Hans)
    as (G1 & V1 & A1 & _).
  destruct (motorAxisGet pAxis ID_ANC_STATUS (Int32_of_bytes v0) 0 s1) as [g s2].
  cbn [fst snd] in *. rewrite Hreg in V1 by (cbv; split; congruence).
  rewrite (decide_True (P := ret_status g = asynSuccess_int)) by done.
  pose proof (decode_status_spec (axis_out g) (value_out g) s2) as (Hh & Hd).
  destruct (decode_status (axis_out g) (value_out g) s2) as [[a2 hmp] s3].
  cbn [fst snd] in *.
  pose proof (motorAxisGet_answered regs a2 ID_ANC_AMPL (value_out g) 0 s3 Hans)
    as (G2 & V2 & A2 & _).
  destruct (motorAxisGet a2 ID_ANC_AMPL (value_out g) 0 s3) as [ga s4].
  cbn [fst snd] in *. rewrite Hreg in V2 by (cbv; split; congruence).
  pose proof (motorAxisGet_answered regs (with_amplitude (axis_out ga) (value_out ga))
                ID_ANC_REFCOUNTER (value_out ga) 0 s4 Hans) as (G3 & V3 & A3 & _).
  destruct (motorAxisGet (with_amplitude (axis_out ga) (value_out ga))
              ID_ANC_REFCOUNTER (value_out ga) 0 s4) as [gr s5].
  cbn [fst snd] in *. rewrite Hreg in V3 by (cbv; split; congruence).
  pose proof (motorAxisGet_answered regs (axis_out gr) ID_ANC_COUNTER (value_out gr)
                0 s5 Hans) as (G4 & V4 & A4 & C4).
  destruct (motorAxisGet (axis_out gr) ID_ANC_COUNTER (value_out gr) 0 s5)
    as [gp s6].
  cbn [fst snd] in *. rewrite Hreg in V4 by (cbv; split; congruence).
  rewrite (decide_True (P := ret_status gr = asynSuccess_int)) by done.
  rewrite (decide_True (P := ret_status gp = asynSuccess_int)) by done.
  rewrite V3, V4, A4, A3, A2, V2, G1. unfold ret. cbn [fst snd].
  destruct (update_position _ _ _) as [[ap po] d] eqn:Eu.
  cbn [fst snd]. intros [= <-]. cbn [position hump direction].
  revert Eu. unfold update_position. intros [= <- <- <-].
  rewrite Hh, V1.
  split; [done|].
  split; [by params_tac|]. split; [by params_tac|].
  split; [by params_tac|]. split; [by params_tac|].
  split; [by params_tac|]. split; [by params_tac|].
  split; [by params_tac|]. split; [done|].
  split.
  { intros Hrs. rewrite A1, V1 in Hd.
    destruct Hd as [(_ & _ & ->)|[(_ & _ & _ & ->)|(_ & Hx & _)]];
      [by params_tac|by params_tac|done]. }
  split; [done|].
  match goal with |- context [update_limits ?X ?h ?hs ?d] =>
    generalize d; intros dir end.
  match goal with |- context [update_limits ?X ?h ?hs ?d] =>
    generalize X; intros ax; generalize h; intros hmp' end.
  unfold asynSuccess_int, MOTOR_AXIS_OK.
  split; params_tac; first [done | exfalso; tauto].
Qed.
End PollAnswered.

Section PollEdge.
Import Anc350AsynMotor.
Context {W : Type} `{!Externals W}.

(** X9. When the status read of a poll succeeds with the hump bit set and
    the position read of the same poll fails, the low hard limit is raised
    and the high one cleared, whatever direction is cached for the axis
    ([direction] is still at its initial 0). *)
Theorem hump_without_position_is_low_limit (pAxis : motorAxis) (globalStatus : Z)
    (s : state W) (p : poll) :
  let r := drvAnc350GetAxisStatus pAxis globalStatus s in
  r.1.2 = Some p →
  humpstatus p = MOTOR_AXIS_OK → hump p ≠ 0 → pos_status p ≠ MOTOR_AXIS_OK →
  params r.1.1 !! motorAxisHighHardLimit = Some 0
  ∧ params r.1.1 !! motorAxisLowHardLimit = Some 1.
Proof.
  intros r Hp Hh Hhump Hpos.
  destruct (poll_shape pAxis globalStatus s p Hp)
    as (s1 & v0 & a2 & a3 & s3 & v & rf & _ & _ & _ & _ & Hr & Hd & _ & _).
  fold r in Hr. rewrite Hr, Hh, (Hd Hpos).
  rewrite bool_decide_false by done.
  unfold update_limits. rewrite decide_True by done.
  rewrite decide_False by done. split; by params_tac.
Qed.

(** X10. The reference position read by a poll is cached by the position
    block only: when the position read fails, the cached reference position
    is the one from before the poll, even if the reference read succeeded;
    when it succeeds, the cached reference position is the one the poll
    used, and the position is the counter less it. *)
Theorem reference_cached_with_position (pAxis : motorAxis) (globalStatus : Z)
    (s : state W) (p : poll) :
  let r := drvAnc350GetAxisStatus pAxis globalStatus s in
  r.1.2 = Some p →
  (pos_status p ≠ MOTOR_AXIS_OK →
     reference_position r.1.1 = reference_position pAxis)
  ∧ (pos_status p = MOTOR_AXIS_OK →
       reference_position r.1.1 = reference_used p
       ∧ position p = Some (value p - reference_used p)).
Proof.
  intros r Hp.
  destruct (poll_spec pAxis globalStatus s p Hp)
    as (a1 & (_ & _ & Href & _) & _ & _ & Hr & Hpo & _).
  fold r in Hr. rewrite Hr, Hpo. unfold asynSuccess_int, MOTOR_AXIS_OK.
  split; intros Hs.
  - rewrite decide_False by done. rewrite <- Href. by params_tac.
  - rewrite !decide_True by done.
    destruct (update_position_spec a1 (value p) (reference_used p))
      as (Hv & _ & _ & _ & Hrp & _).
    cbn zeta in *. rewrite Hv. split; [|done].
    rewrite <- Hrp. set (a := (update_position _ _ _).1.1). by params_tac.
Qed.

(** X8. A poll of an axis on which no reference search is in progress
    never turns the homed or the home-signal parameter on: it leaves both
    as they were or puts both to 0, and it leaves [reference_search] as it
    was. *)
Theorem poll_never_raises_homed (pAxis : motorAxis) (globalStatus : Z)
    (s : state W) (p : poll) :
  let r := drvAnc350GetAxisStatus pAxis globalStatus s in
  r.1.2 = Some p → reference_search pAxis ≠ 1 →
  reference_search r.1.1 = reference_search pAxis
  ∧ (params r.1.1 !! motorAxisHomed = params pAxis !! motorAxisHomed
     ∧ params r.1.1 !! motorAxisHomeSignal = params pAxis !! motorAxisHomeSignal
     ∨ params r.1.1 !! motorAxisHomed = Some 0
       ∧ params r.1.1 !! motorAxisHomeSignal = Some 0).
Proof.
  intros r Hp Hrs.
  destruct (poll_shape pAxis globalStatus s p Hp)
    as (s1 & v0 & a2 & a3 & s3 & v & rf & _ & Hblk & F3 & P3 & Hr & _ & _).
  fold r in Hr.
  destruct (poll_tail_frame a3 (bool_decide (pos_status p = asynSuccess_int))
              v rf (hump p) (humpstatus p) (direction p) globalStatus)
    as (Ft & _ & Pt).
  cbn zeta in *. rewrite <- Hr in Ft, Pt.
  pose proof (motorAxisGet_frame pAxis ID_ANC_STATUS v0 0 s1) as (F1 & _ & _ & _ & P1).
  cbn zeta in *.
  set (g := (motorAxisGet pAxis ID_ANC_STATUS v0 0 s1).1) in *.
  set (s2 := (motorAxisGet pAxis ID_ANC_STATUS v0 0 s1).2) in *.
  rewrite Ft, F3. rewrite !Pt by (rewrite !elem_of_cons; auto).
  rewrite !P3 by done.
  destruct (decide (ret_status g = asynSuccess_int)) as [Hg|Hg].
  - destruct (decode_status_spec (axis_out g) (value_out g) s2)
      as (_ & [(_ & _ & Ha)|[(_ & _ & _ & Ha)|(_ & Hx & _)]]).
    + rewrite <- Hblk in Ha. cbn [fst snd] in Ha. subst a2.
      split; [by params_tac|]. right. split; by params_tac.
    + rewrite <- Hblk in Ha. cbn [fst snd] in Ha. subst a2.
      split; [by params_tac|]. left.
      cbn [set_param with_params params]. unfold setInteger.
      rewrite !lookup_insert_ne by done. by rewrite !P1.
    + rewrite F1 in Hx. done.
  - injection Hblk as -> _ _. split; [done|]. left. by rewrite !P1.
Qed.

(** X7. When the controller answers and reports a valid reference while a
    reference search is in progress, the poll ends the search: it clears
    [reference_search], sends the set of a single step forward (data 1),
    and publishes homed, home signal and done as 1; done is 1 whatever the
    running bit says. *)
Theorem poll_completes_homing (regs : Z → Z) (pAxis : motorAxis)
    (globalStatus : Z) (s : state W) (p : poll) :
  answers regs →
  - 2 ^ 31 ≤ regs ID_ANC_STATUS < 2 ^ 31 →
  Z.testbit (regs ID_ANC_STATUS) 11 = true →
  reference_search pAxis = 1 →
  let r := drvAnc350GetAxisStatus pAxis globalStatus s in
  r.1.2 = Some p →
  reference_search r.1.1 = 0
  ∧ params r.1.1 !! motorAxisHomed = Some 1
  ∧ params r.1.1 !! motorAxisHomeSignal = Some 1
  ∧ params r.1.1 !! motorAxisDone = Some 1
  ∧ ∃ pre msg post,
      sent_requests (trace (io r.2))
      = sent_requests (trace (io s)) ++ pre ++ msg :: post
      ∧ request_kind msg = (UcProtocol.UC_SET, ID_ANC_SGL_FWD)
      ∧ request_data0 msg = 1.
Proof.
  intros Hans Hrange Hbit Hrs r Hp.
  destruct (poll_shape pAxis globalStatus s p Hp)
    as (s1 & v0 & a2 & a3 & s3 & v & rf & _ & Hblk & F3 & P3 & Hr & _ & _ & Ht1
        & post & Hpost).
  fold r in Hr, Hpost.
  destruct (poll_tail_frame a3 (bool_decide (pos_status p = asynSuccess_int))
              v rf (hump p) (humpstatus p) (direction p) globalStatus)
    as (Ft & _ & Pt).
  cbn zeta in *. rewrite <- Hr in Ft, Pt.
  pose proof (motorAxisGet_frame pAxis ID_ANC_STATUS v0 0 s1) as (F1 & _ & _ & _ & P1).
  pose proof (motorAxisGet_sent pAxis ID_ANC_STATUS v0 0 s1 ltac:(const_range))
    as (m1 & T1 & _).
  pose proof (motorAxisGet_answered regs pAxis ID_ANC_STATUS v0 0 s1 Hans)
    as (G1 & V1 & _ & _).
  cbn zeta in *.
  set (g := (motorAxisGet pAxis ID_ANC_STATUS v0 0 s1).1) in *.
  set (s2 := (motorAxisGet pAxis ID_ANC_STATUS v0 0 s1).2) in *.
  rewrite (Int32_wrap_small ID_ANC_STATUS) in V1 by const_range.
  rewrite Int32_wrap_small in V1 by done.
  rewrite decide_True in Hblk by done.
  destruct (decode_status_spec (axis_out g) (value_out g) s2)
    as (_ & [(Hb & _)|[(_ & Hx & _)|(_ & _ & Hs3 & Ha)]]).
  { rewrite V1, Hbit in Hb. discriminate. }
  { rewrite F1 in Hx. done. }
  rewrite <- Hblk in Ha, Hs3. cbn [fst snd] in Ha, Hs3.
  rewrite Ft, F3. rewrite !Pt by (rewrite !elem_of_cons; auto).
  rewrite !P3 by done. subst a2.
  split; [by params_tac|]. split; [by params_tac|].
  split; [by params_tac|]. split; [by params_tac|].
  match type of Hs3 with _ = (motorAxisSet ?a ?l ?x ?lg ?s).2 =>
    destruct (motorAxisSet_sent a l x lg s ltac:(const_range) ltac:(lia))
      as (msg & Tm & Km & Dm & _) end.
  exists [m1], msg, post.
  rewrite Hpost, Hs3, Tm. fold s2. rewrite T1, Ht1, <- !app_assoc. done.
Qed.
End PollEdge.

(** ** The motor driver: the motion commands *)

(** One [motorAxisSet], resp. one lock, of the goal. *)
Ltac step_set m T K D C s' :=
  match goal with |- context [motorAxisSet ?a ?l ?v ?lg ?s] =>
    let r := fresh "r" in
    destruct (motorAxisSet_sent a l v lg s) as (m & T & K & D & C);
    [first [const_range | case_decide; const_range]
    |first [lia | done | apply Int32_wrap_range]|];
    destruct (motorAxisSet a l v lg s) as [r s']; cbn [fst snd] in T, C
  end.

Ltac step_lock lk s' :=
  match goal with |- context [liftW (lock ?m) ?s] =>
    let F := fresh "F" in
    pose proof (lock_frame m s) as (_ & F);
    destruct (liftW (lock m) s) as [lk s'] eqn:?; cbn [fst snd] in F
  end.

Section CommandFacts.
Import Anc350AsynMotor.
Context {W : Type} `{!Externals W}.

(** X12. [motorAxisMove], when every mutex is free, sends four sets in this
    order: stop-enable 1, speed-setpoint selection 1, the target, and the
    run command with data 1, which is run-relative when [relative] is
    non-zero and run-target otherwise.  The target is the position plus the
    cached reference position in both cases, for a relative move too.  The
    axis then has direction 1 when the position is not negative and 0
    otherwise, and done 0; the failure count is left alone. *)
Theorem motorAxisMove_requests (pAxis : motorAxis) (position relative : Z)
    (s : state W) :
  locks_granted →
  - 2 ^ 31 ≤ position + reference_position pAxis < 2 ^ 31 →
  let r := motorAxisMove (Some pAxis) position relative s in
  (∃ m1 m2 m3 m4 : list byte,
     sent_requests (trace (io r.2))
     = sent_requests (trace (io s)) ++ [m1; m2; m3; m4]
     ∧ (request_kind m1, request_data0 m1)
       = (UcProtocol.UC_SET, ID_ANC_STOP_EN, 1)
     ∧ (request_kind m2, request_data0 m2)
       = (UcProtocol.UC_SET, ID_ANC_REGSPD_SELSP, 1)
     ∧ (request_kind m3, request_data0 m3)
       = (UcProtocol.UC_SET, ID_ANC_TARGET, position + reference_position pAxis)
     ∧ (request_kind m4, request_data0 m4)
       = (UcProtocol.UC_SET,
          if decide (relative ≠ 0) then ID_ANC_RUN_RELATIVE else ID_ANC_RUN_TARGET,
          1))
  ∧ r.1.2 = Some (set_param
                    (set_param pAxis motorAxisDirection
                       (if decide (0 ≤ position) then 1 else 0))
                    motorAxisDone 0)
  ∧ comms r.2 = comms s.
Proof.
  intros Hl Hrange r. subst r. unfold motorAxisMove, bind.
  step_set m1 T1 K1 D1 C1 s1.
  step_set m2 T2 K2 D2 C2 s2.
  pose proof (lock_granted (axisMutex (pDrv_card pAxis) (axis pAxis)) s2 Hl) as Hlk.
  step_lock lk s3. cbn [fst] in Hlk. subst lk.
  rewrite decide_True by done.
  step_set m3 T3 K3 D3 C3 s4.
  step_set m4 T4 K4 D4 C4 s5.
  unfold ret. cbn [fst snd].
  destruct F as (Fc & Ft).
  split; [|split; [done|congruence]].
  exists m1, m2, m3, m4.
  rewrite T4, T3, Ft, T2, T1, <- !app_assoc.
  rewrite K1, K2, K3, K4, D1, D2, D3, D4.
  rewrite Int32_wrap_small by done. done.
Qed.

(** X13. When the axis mutex cannot be taken, [motorAxisMove] sends the two
    preparatory sets only, no target and no run command, leaves the axis as
    it was, and returns the status of the second preparatory set (so
    [MOTOR_AXIS_OK] when that write went through). *)
Theorem motorAxisMove_lock_denied (pAxis : motorAxis) (position relative : Z)
    (s : state W) :
  (∀ w, (epicsMutexLock (axisMutex (pDrv_card pAxis) (axis pAxis)) w).1
        ≠ epicsMutexLockOK) →
  let r := motorAxisMove (Some pAxis) position relative s in
  let s1 := (motorAxisSet pAxis ID_ANC_STOP_EN 1 0 s).2 in
  (∃ m1 m2 : list byte,
     sent_requests (trace (io r.2)) = sent_requests (trace (io s)) ++ [m1; m2]
     ∧ request_kind m1 = (UcProtocol.UC_SET, ID_ANC_STOP_EN)
     ∧ request_kind m2 = (UcProtocol.UC_SET, ID_ANC_REGSPD_SELSP))
  ∧ r.1.2 = Some pAxis
  ∧ r.1.1 = (motorAxisSet pAxis ID_ANC_REGSPD_SELSP 1 0 s1).1.
Proof.
  intros Hl r s1. subst r s1. unfold motorAxisMove, bind.
  step_set m1 T1 K1 D1 C1 s1. cbn [snd].
  match goal with |- context [motorAxisSet ?a ?l ?v ?lg ?s] =>
    destruct (motorAxisSet_sent a l v lg s) as (m2 & T2 & K2 & D2 & C2);
    [const_range|lia|];
    destruct (motorAxisSet a l v lg s) as [r2 s2]; cbn [fst snd] in T2, C2 |- *
  end.
  pose proof (lock_denied (axisMutex (pDrv_card pAxis) (axis pAxis)) s2 Hl) as Hlk.
  step_lock lk s3. cbn [fst] in Hlk.
  rewrite decide_False by done. unfold ret. cbn [fst snd].
  destruct F as (Fc & Ft).
  split; [|done]. exists m1, m2.
  rewrite Ft, T2, T1, <- !app_assoc. done.
Qed.

(** X15. [motorAxisHome] leaves [reference_search] at 1 whatever the
    outcome of the lock and of the writes.  When every mutex is free it
    sends stop-enable 1, speed-setpoint selection 1 and a continuous move
    with data 1, forward when [forwards] is positive and backward
    otherwise, and publishes that direction and done 0. *)
Theorem motorAxisHome_spec (pAxis : motorAxis) (forwards : Z) (s : state W) :
  let r := motorAxisHome (Some pAxis) forwards s in
  (∃ a : motorAxis, r.1.2 = Some a ∧ reference_search a = 1)
  ∧ (locks_granted →
     (∃ m1 m2 m3 : list byte,
        sent_requests (trace (io r.2))
        = sent_requests (trace (io s)) ++ [m1; m2; m3]
        ∧ (request_kind m1, request_data0 m1)
          = (UcProtocol.UC_SET, ID_ANC_STOP_EN, 1)
        ∧ (request_kind m2, request_data0 m2)
          = (UcProtocol.UC_SET, ID_ANC_REGSPD_SELSP, 1)
        ∧ (request_kind m3, request_data0 m3)
          = (UcProtocol.UC_SET,
             if decide (forwards > 0) then ID_ANC_CONT_FWD else ID_ANC_CONT_BKWD,
             1))
     ∧ r.1.2 = Some (with_reference_search
                       (set_param
                          (set_param pAxis motorAxisDirection
                             (if decide (forwards > 0) then 1 else 0))
                          motorAxisDone 0)
                       1)).
Proof.
  intros r. subst r. unfold motorAxisHome, bind.
  step_set m1 T1 K1 D1 C1 s1.
  step_set m2 T2 K2 D2 C2 s2.
  destruct (decide (forwards > 0)) as [Hf|Hf].
  - step_lock lk s3. destruct F as (Fc & Ft).
    destruct (decide (lk = epicsMutexLockOK)) as [Hlk|Hlk].
    + step_set m3 T3 K3 D3 C3 s4. unfold ret. cbn [fst snd].
      split; [by eexists|]. intros _. split; [|done].
      exists m1, m2, m3. rewrite T3, Ft, T2, T1, <- !app_assoc.
      by rewrite K1, K2, K3, D1, D2, D3.
    + unfold ret. cbn [fst snd]. split; [by eexists|]. intros Hl.
      pose proof (lock_granted (axisMutex (pDrv_card pAxis) (axis pAxis)) s2 Hl)
        as Hg.
      rewrite Heqp in Hg. done.
  - step_lock lk s3. destruct F as (Fc & Ft).
    destruct (decide (lk = epicsMutexLockOK)) as [Hlk|Hlk].
    + step_set m3 T3 K3 D3 C3 s4. unfold ret. cbn [fst snd].
      split; [by eexists|]. intros _. split; [|done].
      exists m1, m2, m3. rewrite T3, Ft, T2, T1, <- !app_assoc.
      by rewrite K1, K2, K3, D1, D2, D3.
    + unfold ret. cbn [fst snd]. split; [by eexists|]. intros Hl.
      pose proof (lock_granted (axisMutex (pDrv_card pAxis) (axis pAxis)) s2 Hl)
        as Hg.
      rewrite Heqp in Hg. done.
Qed.

(** X16. [motorAxisVelocityMove], when every mutex is free, sends
    stop-enable 1, speed-setpoint selection 1 and a continuous move with
    data 1: forward, with direction 1, for a positive velocity; backward,
    with direction 0, for a negative velocity and for velocity 0 as well.
    It publishes done 0. *)
Theorem motorAxisVelocityMove_spec (pAxis : motorAxis) (velocity : Q)
    (s : state W) :
  locks_granted →
  let r := motorAxisVelocityMove (Some pAxis) velocity s in
  let jogs (cmd dir : Z) :=
    (∃ m1 m2 m3 : list byte,
       sent_requests (trace (io r.2))
       = sent_requests (trace (io s)) ++ [m1; m2; m3]
       ∧ (request_kind m1, request_data0 m1)
         = (UcProtocol.UC_SET, ID_ANC_STOP_EN, 1)
       ∧ (request_kind m2, request_data0 m2)
         = (UcProtocol.UC_SET, ID_ANC_REGSPD_SELSP, 1)
       ∧ (request_kind m3, request_data0 m3) = (UcProtocol.UC_SET, cmd, 1))
    ∧ r.1.2 = Some (set_param (set_param pAxis motorAxisDirection dir)
                              motorAxisDone 0) in
  ((0 < velocity)%Q → jogs ID_ANC_CONT_FWD 1)
  ∧ ((velocity <= 0)%Q → jogs ID_ANC_CONT_BKWD 0).
Proof.
  intros Hl r jogs. subst r jogs. cbn beta. unfold motorAxisVelocityMove, bind.
  step_set m1 T1 K1 D1 C1 s1.
  step_set m2 T2 K2 D2 C2 s2.
  pose proof (lock_granted (axisMutex (pDrv_card pAxis) (axis pAxis)) s2 Hl) as Hlk.
  destruct (Qlt_le_dec 0 velocity) as [Hv|Hv].
  - step_lock lk s3. cbn [fst] in Hlk. subst lk. destruct F as (Fc & Ft).
    rewrite decide_True by done.
    step_set m3 T3 K3 D3 C3 s4. unfold ret. cbn [fst snd].
    split; [|intros Hle; by apply Qle_not_lt in Hle].
    intros _. split; [|done].
    exists m1, m2, m3. rewrite T3, Ft, T2, T1, <- !app_assoc.
    by rewrite K1, K2, K3, D1, D2, D3.
  - step_lock lk s3. cbn [fst] in Hlk. subst lk. destruct F as (Fc & Ft).
    rewrite decide_True by done.
    step_set m3 T3 K3 D3 C3 s4. unfold ret. cbn [fst snd].
    split; [intros Hlt; by apply Qle_not_lt in Hv|].
    intros _. split; [|done].
    exists m1, m2, m3. rewrite T3, Ft, T2, T1, <- !app_assoc.
    by rewrite K1, K2, K3, D1, D2, D3.
Qed.

(** X17. [motorAxisStop] clears [reference_search] in every case.  When
    every mutex is free it sends one single step with data 1, forward when
    the cached direction is 1 and backward otherwise, and publishes done 1.
    When the axis mutex cannot be taken it sends nothing and returns
    [MOTOR_AXIS_ERROR]. *)
Theorem motorAxisStop_spec (pAxis : motorAxis) (s : state W) :
  let r := motorAxisStop (Some pAxis) s in
  (∃ a : motorAxis, r.1.2 = Some a ∧ reference_search a = 0)
  ∧ (locks_granted →
     (∃ m : list byte,
        sent_requests (trace (io r.2)) = sent_requests (trace (io s)) ++ [m]
        ∧ (request_kind m, request_data0 m)
          = (UcProtocol.UC_SET,
             if decide (previous_direction pAxis = 1)
             then ID_ANC_SGL_FWD else ID_ANC_SGL_BKWD, 1))
     ∧ r.1.2 = Some (set_param (with_reference_search pAxis 0) motorAxisDone 1))
  ∧ ((∀ w, (epicsMutexLock (axisMutex (pDrv_card pAxis) (axis pAxis)) w).1
           ≠ epicsMutexLockOK) →
     r.1.1 = MOTOR_AXIS_ERROR
     ∧ r.1.2 = Some (with_reference_search pAxis 0)
     ∧ trace (io r.2) = trace (io s)).
Proof.
  intros r. subst r. unfold motorAxisStop, bind.
  cbn [with_reference_search pDrv_card axis].
  step_lock lk s1. destruct F as (Fc & Ft).
  destruct (decide (lk = epicsMutexLockOK)) as [Hlk|Hlk].
  - step_set m T K D C s2. unfold ret. cbn [fst snd].
    split; [by eexists|]. split.
    + intros _. split; [|done]. exists m. rewrite T, Ft.
      rewrite K, D. done.
    + intros Hl.
      pose proof (lock_denied (axisMutex (pDrv_card pAxis) (axis pAxis)) s Hl) as Hd.
      rewrite Heqp in Hd. done.
  - unfold ret. cbn [fst snd]. split; [by eexists|]. split.
    + intros Hl.
      pose proof (lock_granted (axisMutex (pDrv_card pAxis) (axis pAxis)) s Hl) as Hg.
      rewrite Heqp in Hg. done.
    + intros _. done.
Qed.

(** X18. [motorAxisSetDouble] on an axis makes no transport call and leaves
    the identifier counter and the failure count alone.  It stores the
    value in the parameter table when it gets the axis mutex and leaves the
    table as it was otherwise, and it returns [MOTOR_AXIS_OK] in both
    cases.  [motorAxisSetInteger] does the same. *)
Theorem motorAxisSetDouble_spec (pAxis : motorAxis) (function : motorAxisParam_t)
    (value : Z) (s : state W) :
  let r := motorAxisSetDouble (Some pAxis) function value s in
  let lk := (liftW (lock (axisMutex (pDrv_card pAxis) (axis pAxis))) s).1 in
  r.1.1 = MOTOR_AXIS_OK
  ∧ trace (io r.2) = trace (io s) ∧ mid r.2 = mid s ∧ comms r.2 = comms s
  ∧ r.1.2 = Some (if decide (lk = epicsMutexLockOK)
                  then with_params pAxis (<[function := value]> (params pAxis))
                  else pAxis)
  ∧ motorAxisSetInteger (Some pAxis) function value s = r.
Proof.
  intros r lk. subst r lk. unfold motorAxisSetInteger, motorAxisSetDouble, bind.
  pose proof (lock_frame (axisMutex (pDrv_card pAxis) (axis pAxis)) s)
    as (Fm & Fc & Ft).
  destruct (liftW (lock _) s) as [lk s1]. cbn [fst snd] in *.
  destruct (decide (lk = epicsMutexLockOK)); [rewrite decide_True by done|];
    unfold ret; cbn [fst snd]; done.
Qed.

(** X11. [drvAnc350GetAxisInitialStatus], when it gets the axis mutex,
    publishes has-encoder as 1 and homed and home signal alike: as bit 11
    of the status word when the status read succeeded, and as 0 when it
    failed ([value] is initialised to 0).  Without the mutex it leaves the
    axis alone. *)
Theorem initial_status_homed (pAxis : motorAxis) (s : state W) :
  let a := (drvAnc350GetAxisInitialStatus pAxis s).1 in
  let lk := liftW (lock (axisMutex (pDrv_card pAxis) (axis pAxis))) s in
  let g := (motorAxisGet pAxis ID_ANC_STATUS 0 0 lk.2).1 in
  if decide (lk.1 = epicsMutexLockOK) then
    params a !! motorAxisHasEncoder = Some 1
    ∧ params a !! motorAxisHomed = params a !! motorAxisHomeSignal
    ∧ (ret_status g ≠ MOTOR_AXIS_OK → params a !! motorAxisHomed = Some 0)
    ∧ (ret_status g = MOTOR_AXIS_OK →
       params a !! motorAxisHomed = Some (Z.b2z (Z.testbit (value_out g) 11)))
  else a = pAxis.
Proof.
  intros a lk g. subst a lk g. unfold drvAnc350GetAxisInitialStatus, bind.
  destruct (liftW (lock _) s) as [lk s1]. cbn [fst snd].
  destruct (decide (lk = epicsMutexLockOK)) as [Hlk|Hlk]; [|done].
  pose proof (motorAxisGet_spec pAxis ID_ANC_STATUS 0 0 s1) as (_ & Hg).
  destruct (motorAxisGet pAxis ID_ANC_STATUS 0 0 s1) as [g s2].
  unfold ret. cbn [fst snd] in *.
  rewrite referenced_bit.
  split; [by params_tac|]. split; [by params_tac|].
  split.
  - intros Hne. destruct Hg as [(Hok & _)|(_ & _ & -> & _)]; [done|].
    by params_tac.
  - intros _. by params_tac.
Qed.

End CommandFacts.

Section Composition.
Import Anc350AsynMotor.
Context {W : Type} `{!Externals W}.

(** The target of a move when every mutex is free, whatever the writes do. *)
Lemma motorAxisMove_target (pAxis : motorAxis) (position relative : Z)
    (s : state W) :
  locks_granted →
  ∃ pre msg post,
    sent_requests (trace (io (motorAxisMove (Some pAxis) position relative s).2))
    = sent_requests (trace (io s)) ++ pre ++ msg :: post
    ∧ request_kind msg = (UcProtocol.UC_SET, ID_ANC_TARGET)
    ∧ request_data0 msg = Int32_wrap (position + reference_position pAxis).
Proof.
  intros Hl. unfold motorAxisMove, bind.
  step_set m1 T1 K1 D1 C1 s1.
  step_set m2 T2 K2 D2 C2 s2.
  pose proof (lock_granted (axisMutex (pDrv_card pAxis) (axis pAxis)) s2 Hl) as Hlk.
  step_lock lk s3. cbn [fst] in Hlk. subst lk.
  rewrite decide_True by done.
  step_set m3 T3 K3 D3 C3 s4.
  step_set m4 T4 K4 D4 C4 s5.
  unfold ret. cbn [fst snd]. destruct F as (Fc & Ft).
  exists [m1; m2], m3, [m4].
  rewrite T4, T3, Ft, T2, T1, <- !app_assoc. done.
Qed.

(** X14. A move to the position that a poll has published sends as target
    the counter value that the poll read: the reference offset that the
    poll subtracts is added back by the move. *)
Theorem move_to_published_position (pAxis : motorAxis) (globalStatus : Z)
    (s s' : state W) (p : poll) (P relative : Z) :
  locks_granted →
  let r := drvAnc350GetAxisStatus pAxis globalStatus s in
  r.1.2 = Some p → position p = Some P →
  let m := motorAxisMove (Some r.1.1) P relative s' in
  params r.1.1 !! motorAxisPosition = Some P
  ∧ ∃ pre msg post,
      sent_requests (trace (io m.2))
      = sent_requests (trace (io s')) ++ pre ++ msg :: post
      ∧ request_kind msg = (UcProtocol.UC_SET, ID_ANC_TARGET)
      ∧ request_data0 msg = value p.
Proof.
  intros Hl r Hp HP m. subst m.
  destruct (poll_spec pAxis globalStatus s p Hp)
    as (a1 & _ & _ & _ & Hr & Hpo & _).
  destruct (poll_shape pAxis globalStatus s p Hp)
    as (_ & _ & _ & _ & _ & _ & _ & _ & _ & _ & _ & _ & _ & Hv & _).
  fold r in Hr. rewrite HP in Hpo.
  destruct (decide (pos_status p = asynSuccess_int)) as [Hs|Hs]; [|done].
  specialize (Hv Hs).
  destruct (update_position_spec a1 (value p) (reference_used p))
    as (Hval & _ & _ & _ & Hrp & _).
  cbn zeta in *. rewrite Hval in Hpo. injection Hpo as HPeq.
  assert (reference_position r.1.1 = reference_used p) as Href.
  { rewrite Hr, <- Hrp. set (a := (update_position _ _ _).1.1). by params_tac. }
  split.
  - rewrite Hr, HPeq.
    unfold update_position. cbn [fst snd]. by params_tac.
  - destruct (motorAxisMove_target r.1.1 P relative s' Hl)
      as (pre & msg & post & Ht & Hk & Hd).
    exists pre, msg, post. split; [done|]. split; [done|].
    rewrite Hd, Href, HPeq. rewrite <- (Int32_wrap_small (value p)) at 2 by done.
    f_equal. lia.
Qed.
End Composition.

(** ** The motor driver: opening an axis *)

Section Open.
Import Anc350AsynMotor.

(** X19. When [motorAxisOpen] returns a handle, the handle designates axis
    number [axis] of the first controller of the list whose card number is
    [card]; the reference position, the reference-search flag and the
    amplitude of that axis are put to 0, its other members and every other
    axis are unchanged. *)
Theorem motorAxisOpen_spec (card_no ax : Z) (pFirstDrv pFirstDrv' : list drvAnc350)
    (h : AXIS_HDL) :
  motorAxisOpen card_no ax pFirstDrv = Some (h, pFirstDrv') →
  ∃ (pDrv : drvAnc350) (pAxis : motorAxis),
    pFirstDrv !! h.1 = Some pDrv ∧ card pDrv = card_no
    ∧ (∀ (k : nat) (d : drvAnc350),
         (k < h.1)%nat → pFirstDrv !! k = Some d → card d ≠ card_no)
    ∧ Z.of_nat h.2 = ax
    ∧ axis_at pFirstDrv h = Some pAxis
    ∧ axis_at pFirstDrv' h
      = Some (MotorAxis (pDrv_card pAxis) (pDrv_pasynUser pAxis) (axis pAxis)
                (pasynUser pAxis) (params pAxis) (previous_position pAxis)
                (previous_direction pAxis) 0 0 0)
    ∧ ∀ h' : AXIS_HDL, h' ≠ h → axis_at pFirstDrv' h' = axis_at pFirstDrv h'.
Proof.
  unfold motorAxisOpen.
  destruct (list_find _ pFirstDrv) as [[i pDrv]|] eqn:Hf; [|done].
  apply list_find_Some in Hf as (Hi & Hc & Hfirst).
  destruct (decide (0 ≤ ax ∧ ax < Z.of_nat (List.length (axes pDrv))))
    as [Hax|Hax]; [|done].
  destruct (axes pDrv !! Z.to_nat ax) as [pAxis|] eqn:Ha; [|done].
  intros [= <- <-]. exists pDrv, pAxis. cbn [fst snd].
  split; [done|]. split; [done|].
  split; [intros k d Hk Hd; by apply (Hfirst k d)|].
  split; [lia|].
  split; [unfold axis_at; cbn [fst snd]; by rewrite Hi|].
  split; [|intros h' Hne; by apply axis_at_store_ne].
  unfold axis_at, axis_store. cbn [fst snd].
  rewrite list_lookup_alter. rewrite decide_True by done. rewrite Hi. cbn.
  rewrite list_lookup_insert_eq; [done|]. by eapply lookup_lt_Some.
Qed.

(** X20. [motorAxisOpen] dereferences a NULL pointer (has no result)
    exactly when no controller has the card number, or the axis number is
    outside 0 .. nAxes - 1 of the first controller that has it. *)
Theorem motorAxisOpen_null (card_no ax : Z) (pFirstDrv : list drvAnc350) :
  motorAxisOpen card_no ax pFirstDrv = None
  ↔ (∀ d, d ∈ pFirstDrv → card d ≠ card_no)
    ∨ ∃ (i : nat) (pDrv : drvAnc350),
        pFirstDrv !! i = Some pDrv ∧ card pDrv = card_no
        ∧ (∀ (k : nat) (d : drvAnc350),
             (k < i)%nat → pFirstDrv !! k = Some d → card d ≠ card_no)
        ∧ ¬ (0 ≤ ax < Z.of_nat (List.length (axes pDrv))).
Proof.
  unfold motorAxisOpen.
  destruct (list_find _ pFirstDrv) as [[i pDrv]|] eqn:Hf.
  - apply list_find_Some in Hf as (Hi & Hc & Hfirst).
    destruct (decide (0 ≤ ax ∧ ax < Z.of_nat (List.length (axes pDrv))))
      as [Hax|Hax].
    + destruct (axes pDrv !! Z.to_nat ax) as [pAxis|] eqn:Ha.
      * split; [done|]. intros [Hall|(i' & d' & Hi' & Hc' & Hf' & Hn)].
        -- exfalso. apply (Hall pDrv); [|done]. by eapply list_elem_of_lookup_2.
        -- exfalso. destruct (Nat.lt_trichotomy i i') as [Hlt|[->|Hgt]].
           ++ by apply (Hf' i pDrv).
           ++ rewrite Hi in Hi'. injection Hi' as <-. apply Hn. lia.
           ++ by apply (Hfirst i' d').
      * apply lookup_ge_None in Ha. lia.
    + split; [|done]. intros _. right. exists i, pDrv.
      repeat split; try done. intros k d Hk Hd. by apply (Hfirst k d).
  - split; [|done]. intros _. left. intros d Hd.
    apply list_find_None in Hf. rewrite Forall_forall in Hf. by apply Hf.
Qed.
End Open.

(** ** The motor driver: the poller task *)

Section Task.
Import Anc350AsynMotor.
Context {W : Type} `{!Externals W}.

Lemma task_axis_spec (ev : epicsEventWaitStatus) (factor : Qc) (gs done : Z)
    (a : motorAxis) (sk : Qc) (s : state W) :
  let r := task_axis ev factor gs done a sk s in
  let d := if decide (ev = epicsEventWaitOK) then 0
           else getInteger (params a) motorAxisDone in
  let b := bool_decide ((sk ≤ 0)%Qc ∨ d = 0) in
  ∃ s' : state W,
    r.1 = (d, if b then (drvAnc350GetAxisStatus a gs s').1.1 else a,
           ((if b then 1 else sk) - factor)%Qc, b).
Proof.
  unfold task_axis, bind.
  destruct (decide (ev = epicsEventWaitOK)) as [Hev|Hev].
  - unfold ret at 1. cbn beta iota. rewrite decide_True by (by right).
    rewrite bool_decide_true by (by right).
    exists s. destruct (drvAnc350GetAxisStatus a gs s) as [[a' p] s1]. done.
  - destruct (liftW (lock _) s) as [lk s1]. unfold ret at 1. cbn beta iota.
    destruct (decide ((sk ≤ 0)%Qc ∨ getInteger (params a) motorAxisDone = 0))
      as [Hc|Hc].
    + rewrite bool_decide_true by done. exists s1.
      destruct (drvAnc350GetAxisStatus a gs s1) as [[a' p] s2]. done.
    + rewrite bool_decide_false by done. exists s1. done.
Qed.

Lemma task_axes_spec (ev : epicsEventWaitStatus) (factor : Qc) (gs : Z)
    (axes : list motorAxis) :
  ∀ (done : Z) (skips : list Qc) (s : state W),
    List.length skips = List.length axes →
    let r := task_axes ev factor gs done axes skips s in
    List.length r.1.1.1.2 = List.length axes
    ∧ List.length r.1.1.2 = List.length axes
    ∧ List.length r.1.2 = List.length axes
    ∧ ∀ (i : nat) (sk : Qc) (a : motorAxis),
        skips !! i = Some sk → axes !! i = Some a →
        let d := if decide (ev = epicsEventWaitOK) then 0
                 else getInteger (params a) motorAxisDone in
        let b := bool_decide ((sk ≤ 0)%Qc ∨ d = 0) in
        ∃ s' : state W,
          r.1.2 !! i = Some b
          ∧ r.1.1.2 !! i = Some ((if b then 1 else sk) - factor)%Qc
          ∧ r.1.1.1.2 !! i
            = Some (if b then (drvAnc350GetAxisStatus a gs s').1.1 else a).
Proof.
  induction axes as [|a0 axes IH]; intros done skips s Hlen.
  - destruct skips; [|done]. cbn. split; [done|]. split; [done|].
    split; [done|]. intros i sk a Hs. done.
  - destruct skips as [|sk0 skips]; [done|]. cbn [task_axes]. unfold bind.
    pose proof (task_axis_spec ev factor gs done a0 sk0 s) as (s0 & H0).
    destruct (task_axis ev factor gs done a0 sk0 s) as [[[[d0 a0'] sk0'] b0] s1].
    cbn [fst snd] in H0. injection H0 as -> -> -> ->.
    specialize (IH (if decide (ev = epicsEventWaitOK) then 0
                    else getInteger (params a0) motorAxisDone) skips s1
                  ltac:(simpl in Hlen; lia)).
    destruct (task_axes ev factor gs _ axes skips s1)
      as [[[[d1 axes'] skips'] polleds] s2].
    cbn zeta in IH. cbn [fst snd] in IH. destruct IH as (L1 & L2 & L3 & IH).
    unfold ret. cbn [fst snd]. cbn [length]. split; [lia|]. split; [lia|].
    split; [lia|].
    intros [|i] sk a Hs Ha.
    + injection Hs as <-. injection Ha as <-. exists s0. done.
    + apply (IH i sk a Hs Ha).
Qed.

Lemma factor_half : (movingPollPeriod / idlePollPeriod)%Qc = (Q2Qc (1 # 2)).
Proof. apply Qc_is_canon. reflexivity. Qed.

Lemma cycle_spec (lk : epicsMutexLockStatus) (ev : epicsEventWaitStatus)
    (t : task_locals) (axes : list motorAxis) (s : state W) :
  List.length (skips t) = List.length axes →
  let r := drvAnc350Task_cycle lk ev t axes s in
  let f := if decide (lk = epicsMutexLockOK) then (Q2Qc (1 # 2)) else factor t in
  factor r.1.1.1 = f
  ∧ List.length r.1.1.2 = List.length axes
  ∧ List.length (skips r.1.1.1) = List.length axes
  ∧ List.length r.1.2 = List.length axes
  ∧ ∀ (i : nat) (sk : Qc) (a : motorAxis),
      skips t !! i = Some sk → axes !! i = Some a →
      let d := if decide (ev = epicsEventWaitOK) then 0
               else getInteger (params a) motorAxisDone in
      let b := bool_decide ((sk ≤ 0)%Qc ∨ d = 0) in
      ∃ (gs : Z) (s' : state W),
        r.1.2 !! i = Some b
        ∧ skips r.1.1.1 !! i = Some ((if b then 1 else sk) - f)%Qc
        ∧ r.1.1.2 !! i
          = Some (if b then (drvAnc350GetAxisStatus a gs s').1.1 else a).
Proof.
  intros Hlen. unfold drvAnc350Task_cycle, bind.
  rewrite factor_half.
  set (tf := if decide (lk = epicsMutexLockOK) then (movingPollPeriod, (Q2Qc (1 # 2)))
             else (timeout t, factor t)).
  assert (tf.2 = if decide (lk = epicsMutexLockOK) then (Q2Qc (1 # 2)) else factor t) as Hf
    by (subst tf; by case_decide).
  destruct tf as [to f]. cbn [snd] in Hf. subst f.
  set (f := if decide (lk = epicsMutexLockOK) then (Q2Qc (1 # 2)) else factor t).
  destruct (if decide (skipglobal t ≤ 0)%Qc then _ else _) as [gs sg].
  pose proof (task_axes_spec ev f gs axes (done t) (skips t) s Hlen) as Hax.
  destruct (task_axes ev f gs (done t) axes (skips t) s)
    as [[[[d1 axes'] skips'] polleds] s1].
  cbn zeta in Hax. cbn [fst snd] in Hax. destruct Hax as (L1 & L2 & L3 & Hax).
  unfold ret. cbn [fst snd factor skips].
  repeat split; try done.
  intros i sk a Hs Ha. destruct (Hax i sk a Hs Ha) as (s' & H1 & H2 & H3).
  by exists gs, s'.
Qed.

(** X21. In a pass of the poller an axis is polled whenever the event wait
    returned OK (a command signalled the poller) or the done parameter of
    the axis reads 0, whatever its skip counter and the outcome of the
    controller lock. *)
Theorem task_event_or_motion_polls (lk : epicsMutexLockStatus)
    (ev : epicsEventWaitStatus) (t : task_locals) (axes : list motorAxis)
    (s : state W) (i : nat) (a : motorAxis) :
  List.length (skips t) = List.length axes →
  axes !! i = Some a →
  ev = epicsEventWaitOK ∨ getInteger (params a) motorAxisDone = 0 →
  (drvAnc350Task_cycle lk ev t axes s).1.2 !! i = Some true.
Proof.
  intros Hlen Ha Hc.
  assert (is_Some (skips t !! i)) as [sk Hs].
  { apply lookup_lt_is_Some. rewrite Hlen. by eapply lookup_lt_Some. }
  destruct (cycle_spec lk ev t axes s Hlen) as (_ & _ & _ & _ & H).
  destruct (H i sk a Hs Ha) as (gs & s' & Hb & _). rewrite Hb. f_equal.
  apply bool_decide_true. right. destruct Hc as [->|Hd].
  - by rewrite decide_True.
  - by case_decide.
Qed.

Lemma half_sub (sk : Qc) : (sk ≤ (Q2Qc (1 # 2)))%Qc → (sk - (Q2Qc (1 # 2)) ≤ 0)%Qc.
Proof.
  intros H. unfold Qcminus. rewrite <- (Qcplus_opp_r (Q2Qc (1 # 2))).
  apply Qcplus_le_compat; [done|]. apply Qcle_refl.
Qed.

Lemma two_passes_not_starved (ev1 ev2 : epicsEventWaitStatus) (t : task_locals)
    (axes : list motorAxis) (s : state W) (i : nat) :
  List.length (skips t) = List.length axes →
  Forall (λ sk, (sk ≤ Q2Qc (1 # 2))%Qc) (skips t) →
  let c1 := drvAnc350Task_cycle epicsMutexLockOK ev1 t axes s in
  let c2 := drvAnc350Task_cycle epicsMutexLockOK ev2 c1.1.1.1 c1.1.1.2 c1.2 in
  c1.1.2 !! i = Some false → c2.1.2 !! i = Some true.
Proof.
  intros Hlen Hall c1 c2 Hn.
  destruct (cycle_spec epicsMutexLockOK ev1 t axes s Hlen)
    as (_ & L1 & L2 & L3 & H1).
  fold c1 in L1, L2, L3, H1.
  assert (is_Some (axes !! i)) as [a Ha].
  { apply lookup_lt_is_Some. rewrite <- L3. by eapply lookup_lt_Some. }
  assert (is_Some (skips t !! i)) as [sk Hs].
  { apply lookup_lt_is_Some. rewrite Hlen. by eapply lookup_lt_Some. }
  destruct (H1 i sk a Hs Ha) as (gs & s' & Hb & Hsk & Hax).
  rewrite Hn in Hb. injection Hb as Hb. rewrite <- Hb in Hsk, Hax.
  rewrite decide_True in Hsk by done.
  destruct (cycle_spec epicsMutexLockOK ev2 c1.1.1.1 c1.1.1.2 c1.2
              ltac:(by rewrite L2, L1)) as (_ & _ & _ & _ & H2).
  fold c2 in H2.
  destruct (H2 i _ _ Hsk Hax) as (gs2 & s2 & Hb2 & _).
  rewrite Hb2. f_equal. apply bool_decide_true. left.
  apply half_sub. rewrite Forall_forall in Hall. apply Hall.
  by eapply list_elem_of_lookup_2.
Qed.

End Task.

Section TaskIdle.
Import Anc350AsynMotor.
Context {W : Type} `{!Externals W}.

Lemma poll_locked (pAxis : motorAxis) (globalStatus : Z) (s : state W) :
  locks_granted → is_Some (drvAnc350GetAxisStatus pAxis globalStatus s).1.2.
Proof.
  intros Hl. unfold drvAnc350GetAxisStatus, bind.
  pose proof (lock_granted (axisMutex (pDrv_card pAxis) (axis pAxis)) s Hl) as Hlk.
  destruct (liftW (lock _) s) as [lk s0]. cbn [fst] in Hlk. subst lk.
  rewrite decide_True by done.
  destruct (liftW (alloca 4) s0) as [v0 s1].
  destruct (motorAxisGet pAxis ID_ANC_STATUS (Int32_of_bytes v0) 0 s1) as [g s2].
  set (blk := if decide (ret_status g = asynSuccess_int)
              then decode_status (axis_out g) (value_out g)
              else ret (axis_out g, 0)).
  destruct (blk s2) as [[a2 hmp] s3].
  destruct (motorAxisGet a2 ID_ANC_AMPL (value_out g) 0 s3) as [ga s4].
  destruct (motorAxisGet (with_amplitude (axis_out ga) (value_out ga))
              ID_ANC_REFCOUNTER (value_out ga) 0 s4) as [gr s5].
  destruct (motorAxisGet (axis_out gr) ID_ANC_COUNTER (value_out gr) 0 s5)
    as [gp s6].
  destruct (decide (ret_status gp = asynSuccess_int));
    [destruct (update_position _ _ _) as [[ap po] d]|];
    unfold ret; cbn [fst snd]; by eexists.
Qed.

(** A poll of an axis that the controller reports as not running
    publishes it as done. *)
Lemma poll_idle_done (regs : Z → Z) (pAxis : motorAxis) (globalStatus : Z)
    (s : state W) :
  answers regs → locks_granted →
  - 2 ^ 31 ≤ regs ID_ANC_STATUS < 2 ^ 31 →
  Z.land (regs ID_ANC_STATUS) ANC_STATUS_RUNNING = 0 →
  params (drvAnc350GetAxisStatus pAxis globalStatus s).1.1 !! motorAxisDone
  = Some 1.
Proof.
  intros Hans Hl Hrange Hidle.
  destruct (poll_locked pAxis globalStatus s Hl) as [p Hp].
  destruct (poll_shape pAxis globalStatus s p Hp)
    as (s1 & v0 & a2 & a3 & s3 & v & rf & _ & Hblk & F3 & P3 & Hr & _).
  destruct (poll_tail_frame a3 (bool_decide (pos_status p = asynSuccess_int))
              v rf (hump p) (humpstatus p) (direction p) globalStatus)
    as (_ & _ & Pt).
  cbn zeta in *. rewrite <- Hr in Pt.
  pose proof (motorAxisGet_answered regs pAxis ID_ANC_STATUS v0 0 s1 Hans)
    as (G1 & V1 & _ & _).
  cbn zeta in *.
  set (g := (motorAxisGet pAxis ID_ANC_STATUS v0 0 s1).1) in *.
  set (s2 := (motorAxisGet pAxis ID_ANC_STATUS v0 0 s1).2) in *.
  rewrite (Int32_wrap_small ID_ANC_STATUS) in V1 by const_range.
  rewrite Int32_wrap_small in V1 by done.
  rewrite decide_True in Hblk by done.
  rewrite Pt by (rewrite !elem_of_cons; auto). rewrite P3 by done.
  destruct (decode_status_spec (axis_out g) (value_out g) s2)
    as (_ & Hd).
  rewrite <- Hblk, V1, Hidle in Hd. cbn [fst snd] in Hd.
  rewrite decide_True in Hd by done.
  destruct Hd as [(_ & _ & ->)|[(_ & _ & _ & ->)|(_ & _ & _ & ->)]];
    by params_tac.
Qed.

Lemma one_minus_half_pos : ¬ (1 - Q2Qc (1 # 2) ≤ 0)%Qc.
Proof. intros H. vm_compute in H. by apply H. Qed.

Lemma two_passes_idle (regs : Z → Z) (ev1 ev2 : epicsEventWaitStatus)
    (t : task_locals) (axes : list motorAxis) (s : state W) (i : nat) :
  answers regs → locks_granted →
  - 2 ^ 31 ≤ regs ID_ANC_STATUS < 2 ^ 31 →
  Z.land (regs ID_ANC_STATUS) ANC_STATUS_RUNNING = 0 →
  List.length (skips t) = List.length axes →
  ev2 ≠ epicsEventWaitOK →
  let c1 := drvAnc350Task_cycle epicsMutexLockOK ev1 t axes s in
  let c2 := drvAnc350Task_cycle epicsMutexLockOK ev2 c1.1.1.1 c1.1.1.2 c1.2 in
  c1.1.2 !! i = Some true → c2.1.2 !! i = Some false.
Proof.
  intros Hans Hl Hrange Hidle Hlen Hev c1 c2 Hn.
  destruct (cycle_spec epicsMutexLockOK ev1 t axes s Hlen)
    as (_ & L1 & L2 & L3 & H1).
  fold c1 in L1, L2, L3, H1.
  assert (is_Some (axes !! i)) as [a Ha].
  { apply lookup_lt_is_Some. rewrite <- L3. by eapply lookup_lt_Some. }
  assert (is_Some (skips t !! i)) as [sk Hs].
  { apply lookup_lt_is_Some. rewrite Hlen. by eapply lookup_lt_Some. }
  destruct (H1 i sk a Hs Ha) as (gs & s' & Hb & Hsk & Hax).
  rewrite Hn in Hb. injection Hb as Hb. rewrite <- Hb in Hsk, Hax.
  rewrite decide_True in Hsk by done.
  destruct (cycle_spec epicsMutexLockOK ev2 c1.1.1.1 c1.1.1.2 c1.2
              ltac:(by rewrite L2, L1)) as (_ & _ & _ & _ & H2).
  fold c2 in H2.
  destruct (H2 i _ _ Hsk Hax) as (gs2 & s2 & Hb2 & _).
  rewrite Hb2. f_equal. apply bool_decide_false.
  rewrite decide_False by done.
  unfold getInteger. rewrite (poll_idle_done regs) by done. cbn.
  intros [Hc|Hc]; [|done]. by apply one_minus_half_pos.
Qed.

End TaskIdle.

Section TaskRun.
Import Anc350AsynMotor.
Context {W : Type} `{!Externals W}.

(** A pass keeps the skip counters at or below 1/2 when the controller
    mutex is taken. *)
Lemma cycle_keeps_skips (ev : epicsEventWaitStatus) (t : task_locals)
    (axes : list motorAxis) (s : state W) :
  List.length (skips t) = List.length axes →
  Forall (λ sk, (sk ≤ Q2Qc (1 # 2))%Qc) (skips t) →
  let c := drvAnc350Task_cycle epicsMutexLockOK ev t axes s in
  List.length (skips c.1.1.1) = List.length c.1.1.2
  ∧ Forall (λ sk, (sk ≤ Q2Qc (1 # 2))%Qc) (skips c.1.1.1).
Proof.
  intros Hlen Hall c.
  destruct (cycle_spec epicsMutexLockOK ev t axes s Hlen)
    as (_ & L1 & L2 & L3 & H1).
  fold c in L1, L2, L3, H1. split; [by rewrite L2, L1|].
  apply Forall_lookup_2. intros i sk' Hsk'.
  assert (is_Some (axes !! i)) as [a Ha].
  { apply lookup_lt_is_Some. rewrite <- L2. by eapply lookup_lt_Some. }
  assert (is_Some (skips t !! i)) as [sk Hs].
  { apply lookup_lt_is_Some. rewrite Hlen. by eapply lookup_lt_Some. }
  destruct (H1 i sk a Hs Ha) as (gs & s' & _ & Hsk & _).
  rewrite Hsk' in Hsk. injection Hsk as ->.
  destruct (bool_decide _).
  - by vm_compute.
  - apply (Qcle_trans _ 0); [|by vm_compute].
    apply half_sub. rewrite Forall_forall in Hall. apply Hall.
    by eapply list_elem_of_lookup_2.
Qed.

Lemma cycle_keeps_lengths (lk : epicsMutexLockStatus) (ev : epicsEventWaitStatus)
    (t : task_locals) (axes : list motorAxis) (s : state W) :
  List.length (skips t) = List.length axes →
  let c := drvAnc350Task_cycle lk ev t axes s in
  List.length (skips c.1.1.1) = List.length c.1.1.2.
Proof.
  intros Hlen c.
  destruct (cycle_spec lk ev t axes s Hlen) as (_ & L1 & L2 & _).
  fold c in L1, L2. by rewrite L2, L1.
Qed.

Lemma cycles_cons (lk : epicsMutexLockStatus) (ev : epicsEventWaitStatus)
    (os : list (epicsMutexLockStatus * epicsEventWaitStatus))
    (t : task_locals) (axes : list motorAxis) (s : state W) :
  let c := drvAnc350Task_cycle lk ev t axes s in
  let r := drvAnc350Task_cycles os c.1.1.1 c.1.1.2 c.2 in
  (drvAnc350Task_cycles ((lk, ev) :: os) t axes s).1.2 = c.1.2 :: r.1.2.
Proof.
  cbn [drvAnc350Task_cycles]. unfold bind.
  destruct (drvAnc350Task_cycle lk ev t axes s) as [[[t1 a1] p1] s1].
  cbn [fst snd].
  destruct (drvAnc350Task_cycles os t1 a1 s1) as [[[t2 a2] p2] s2]. done.
Qed.

Lemma run_not_starved
    (os : list (epicsMutexLockStatus * epicsEventWaitStatus)) :
  ∀ (t : task_locals) (axes : list motorAxis) (s : state W) (k i : nat)
    (pk pk' : list bool),
    Forall (λ o, o.1 = epicsMutexLockOK) os →
    List.length (skips t) = List.length axes →
    Forall (λ sk, (sk ≤ Q2Qc (1 # 2))%Qc) (skips t) →
    let r := drvAnc350Task_cycles os t axes s in
    r.1.2 !! k = Some pk → r.1.2 !! S k = Some pk' →
    pk !! i = Some false → pk' !! i = Some true.
Proof.
  induction os as [|[lk ev] os IH]; intros t axes s k i pk pk' Hlk Hlen Hall.
  - cbn. done.
  - apply Forall_cons in Hlk as [Hlk0 Hlk]. cbn [fst] in Hlk0. subst lk.
    cbn zeta. rewrite cycles_cons. cbn zeta.
    destruct (cycle_keeps_skips ev t axes s Hlen Hall) as (Hlen' & Hall').
    cbn zeta in Hlen', Hall'.
    set (c := drvAnc350Task_cycle epicsMutexLockOK ev t axes s) in *.
    destruct k as [|k].
    + cbn [lookup list_lookup]. intros [= <-].
      destruct os as [|[lk2 ev2] os]; [by cbn|].
      apply Forall_cons in Hlk as [Hlk1 _]. cbn [fst] in Hlk1. subst lk2.
      rewrite cycles_cons. cbn zeta. cbn [lookup list_lookup]. intros [= <-].
      by apply (two_passes_not_starved ev ev2 t axes s i Hlen Hall).
    + rewrite !lookup_cons. intros Hk Hk'.
      by apply (IH c.1.1.1 c.1.1.2 c.2 k i pk pk' Hlk Hlen' Hall').
Qed.

Lemma run_idle (regs : Z → Z)
    (os : list (epicsMutexLockStatus * epicsEventWaitStatus)) :
  answers regs → locks_granted →
  - 2 ^ 31 ≤ regs ID_ANC_STATUS < 2 ^ 31 →
  Z.land (regs ID_ANC_STATUS) ANC_STATUS_RUNNING = 0 →
  ∀ (t : task_locals) (axes : list motorAxis) (s : state W) (k i : nat)
    (pk pk' : list bool) (o' : epicsMutexLockStatus * epicsEventWaitStatus),
    Forall (λ o, o.1 = epicsMutexLockOK) os →
    List.length (skips t) = List.length axes →
    let r := drvAnc350Task_cycles os t axes s in
    r.1.2 !! k = Some pk → r.1.2 !! S k = Some pk' →
    os !! S k = Some o' → o'.2 ≠ epicsEventWaitOK →
    pk !! i = Some true → pk' !! i = Some false.
Proof.
  intros Hans Hl Hrange Hidle.
  induction os as [|[lk ev] os IH]; intros t axes s k i pk pk' o' Hlk Hlen.
  - cbn. done.
  - apply Forall_cons in Hlk as [Hlk0 Hlk]. cbn [fst] in Hlk0. subst lk.
    cbn zeta. rewrite cycles_cons. cbn zeta.
    pose proof (cycle_keeps_lengths epicsMutexLockOK ev t axes s Hlen) as Hlen'.
    cbn zeta in Hlen'.
    set (c := drvAnc350Task_cycle epicsMutexLockOK ev t axes s) in *.
    destruct k as [|k].
    + cbn [lookup list_lookup]. intros [= <-].
      destruct os as [|[lk2 ev2] os]; [by cbn|].
      apply Forall_cons in Hlk as [Hlk1 _]. cbn [fst] in Hlk1. subst lk2.
      rewrite cycles_cons. cbn zeta. cbn [lookup list_lookup].
      intros [= <-] [= <-]. cbn [snd]. intros Hev.
      by apply (two_passes_idle regs ev ev2 t axes s i Hans Hl Hrange Hidle
                  Hlen Hev).
    + rewrite !lookup_cons. intros Hk Hk' Ho Hev.
      by apply (IH c.1.1.1 c.1.1.2 c.2 k i pk pk' o' Hlk Hlen' Hk Hk' Ho Hev).
Qed.

Lemma task_start_skips (nAxes : nat) :
  List.length (skips (task_start nAxes)) = nAxes
  ∧ Forall (λ sk, (sk ≤ Q2Qc (1 # 2))%Qc) (skips (task_start nAxes)).
Proof.
  cbn [task_start skips]. rewrite length_replicate. split; [done|].
  apply Forall_replicate. by vm_compute.
Qed.

(** X22. In a run of the poller from its start in which the controller
    mutex is taken in every pass, an axis that a pass does not poll is
    polled by the next pass. *)
Theorem task_no_axis_starved
    (os : list (epicsMutexLockStatus * epicsEventWaitStatus))
    (axes : list motorAxis) (s : state W) (k i : nat) (pk pk' : list bool) :
  Forall (λ o, o.1 = epicsMutexLockOK) os →
  let r := drvAnc350Task_cycles os (task_start (List.length axes)) axes s in
  r.1.2 !! k = Some pk → r.1.2 !! S k = Some pk' →
  pk !! i = Some false → pk' !! i = Some true.
Proof.
  intros Hlk. destruct (task_start_skips (List.length axes)) as (Hlen & Hall).
  by apply run_not_starved.
Qed.

(** X23. In a run of the poller from its start in which the controller
    mutex is taken in every pass, with a controller that answers and
    reports its axes at rest, an axis polled in one pass is not polled in
    the next pass when the wait of that next pass did not return OK: an
    axis at rest is polled every second pass, the idle period being twice
    the moving period. *)
Theorem task_idle_axis_half_rate (regs : Z → Z)
    (os : list (epicsMutexLockStatus * epicsEventWaitStatus))
    (axes : list motorAxis) (s : state W) (k i : nat) (pk pk' : list bool)
    (o' : epicsMutexLockStatus * epicsEventWaitStatus) :
  answers regs → locks_granted →
  - 2 ^ 31 ≤ regs ID_ANC_STATUS < 2 ^ 31 →
  Z.land (regs ID_ANC_STATUS) ANC_STATUS_RUNNING = 0 →
  Forall (λ o, o.1 = epicsMutexLockOK) os →
  let r := drvAnc350Task_cycles os (task_start (List.length axes)) axes s in
  r.1.2 !! k = Some pk → r.1.2 !! S k = Some pk' →
  os !! S k = Some o' → o'.2 ≠ epicsEventWaitOK →
  pk !! i = Some true → pk' !! i = Some false.
Proof.
  intros Hans Hl Hrange Hidle Hlk.
  destruct (task_start_skips (List.length axes)) as (Hlen & _).
  by apply (run_idle regs os Hans Hl Hrange Hidle).
Qed.
End TaskRun.

(** ** The device support: the record link *)

Section LinkFacts.
Import DevAnc350.
Variable sscanf_d : string → option Z.

Lemma append_nil (s : string) : EmptyString +:+ s = s.
Proof. reflexivity. Qed.

Lemma append_cons (c : Ascii.ascii) (s1 s2 : string) :
  String c s1 +:+ s2 = String c (s1 +:+ s2).
Proof. reflexivity. Qed.

Lemma scan_token_app (tok : string) (sep : Ascii.ascii) (rest : string) :
  no_separator tok = true → isspace sep || is_comma sep = true →
  scan_token (tok +:+ String sep rest) = (tok, String sep rest).
Proof.
  intros Ht Hs. induction tok as [|c tok IH];
    rewrite ?append_nil, ?append_cons; cbn [scan_token].
  - by rewrite Hs.
  - cbn [no_separator] in Ht. apply andb_true_iff in Ht as [Hc Ht].
    apply negb_true_iff in Hc. rewrite Hc. by rewrite (IH Ht).
Qed.

Lemma scan_token_end (tok : string) :
  no_separator tok = true → scan_token tok = (tok, EmptyString).
Proof.
  intros Ht. induction tok as [|c tok IH]; cbn [scan_token]; [done|].
  cbn [no_separator] in Ht. apply andb_true_iff in Ht as [Hc Ht].
  apply negb_true_iff in Hc. rewrite Hc. by rewrite (IH Ht).
Qed.

Lemma strchr_app (gap rest : string) :
  no_S gap = true →
  strchr (gap +:+ String letter_S rest) letter_S = Some (String letter_S rest).
Proof.
  intros Hg. induction gap as [|c gap IH];
    rewrite ?append_nil, ?append_cons; cbn [strchr].
  - by rewrite decide_True.
  - cbn [no_S] in Hg. apply andb_true_iff in Hg as [Hc Hg].
    apply negb_true_iff, bool_decide_eq_false in Hc.
    rewrite decide_False by done. by apply IH.
Qed.

Lemma strchr_none (p : string) : no_S p = true → strchr p letter_S = None.
Proof.
  intros Hg. induction p as [|c p IH]; cbn [strchr]; [done|].
  cbn [no_S] in Hg. apply andb_true_iff in Hg as [Hc Hg].
  apply negb_true_iff, bool_decide_eq_false in Hc.
  rewrite decide_False by done. by apply IH.
Qed.

Lemma separator_not_S (sep : Ascii.ascii) :
  isspace sep || is_comma sep = true → sep ≠ letter_S.
Proof. intros Hs ->. vm_compute in Hs. discriminate. Qed.

(** X24. For an INST_IO link made of a port name, a separator (white
    space or comma), characters without the letter S, the letter S, the
    address token, a separator and the rest, [parseLink] succeeds: the port
    is the port name, the address is what [sscanf] converts from the text
    after the S (0 when it converts nothing), and the parameter is the rest
    without its leading white space, or NULL when nothing is left. *)
Theorem parseLink_wellformed (port gap num rest : string)
    (sep1 sep2 : Ascii.ascii) :
  no_separator port = true → isspace sep1 || is_comma sep1 = true →
  no_S gap = true → no_separator num = true →
  isspace sep2 || is_comma sep2 = true →
  parseLink sscanf_d INST_IO
    (port +:+ String sep1 (gap +:+ String letter_S (num +:+ String sep2 rest)))
  = Some (asynSuccess, Some port,
          default 0 (sscanf_d (num +:+ String sep2 rest)),
          if decide (skipWhite rest 0 = EmptyString) then None
          else Some (skipWhite rest 0)).
Proof.
  intros Hp H1 Hg Hn H2. unfold parseLink.
  rewrite decide_True by done.
  rewrite (scan_token_app port sep1 _ Hp H1).
  rewrite decide_False by done.
  rewrite <- append_cons.
  rewrite strchr_app.
  2:{ cbn [no_S]. rewrite Hg, andb_true_r. apply negb_true_iff.
      apply bool_decide_eq_false. by apply separator_not_S. }
  rewrite (scan_token_app num sep2 _ Hn H2).
  rewrite decide_False by done.
  destruct rest as [|c rest]; [by rewrite !decide_True|].
  rewrite (decide_False (P := String c rest = EmptyString)) by done.
  done.
Qed.

(** X25. [parseLink] returns [asynError] with no port for a link that is
    not INST_IO and for an INST_IO link without separator; it returns
    [asynError], the port being allocated, for a link that ends with the
    address token (no separator after the address). *)
Theorem parseLink_rejects (link_type : Z) (port gap num : string)
    (sep1 : Ascii.ascii) :
  (link_type ≠ INST_IO →
   ∀ link, parseLink sscanf_d link_type link = Some (asynError, None, 0, None))
  ∧ (no_separator port = true →
     parseLink sscanf_d INST_IO port = Some (asynError, None, 0, None))
  ∧ (no_separator port = true → isspace sep1 || is_comma sep1 = true →
     no_S gap = true → no_separator num = true →
     parseLink sscanf_d INST_IO
       (port +:+ String sep1 (gap +:+ String letter_S num))
     = Some (asynError, Some port, 0, None)).
Proof.
  split; [|split].
  - intros Hne link. unfold parseLink. by rewrite decide_False.
  - intros Hp. unfold parseLink. rewrite decide_True by done.
    rewrite (scan_token_end port Hp). by rewrite decide_True.
  - intros Hp H1 Hg Hn. unfold parseLink. rewrite decide_True by done.
    rewrite (scan_token_app port sep1 _ Hp H1).
    rewrite decide_False by done.
    rewrite <- append_cons.
    rewrite strchr_app.
    2:{ cbn [no_S]. rewrite Hg, andb_true_r. apply negb_true_iff.
        apply bool_decide_eq_false. by apply separator_not_S. }
    rewrite (scan_token_end num Hn). by rewrite decide_True.
Qed.

(** X26. For an INST_IO link with no letter S after its first separator,
    [parseLink] increments and dereferences the NULL pointer that [strchr]
    returned: it has no result. *)
Theorem parseLink_without_S (port rest : string) (sep1 : Ascii.ascii) :
  no_separator port = true → isspace sep1 || is_comma sep1 = true →
  no_S rest = true →
  parseLink sscanf_d INST_IO (port +:+ String sep1 rest) = None.
Proof.
  intros Hp H1 Hr. unfold parseLink. rewrite decide_True by done.
  rewrite (scan_token_app port sep1 _ Hp H1).
  rewrite decide_False by done.
  rewrite strchr_none; [done|].
  cbn [no_S]. rewrite Hr, andb_true_r. apply negb_true_iff.
  apply bool_decide_eq_false. by apply separator_not_S.
Qed.
End LinkFacts.

(** ** The device support: requests and alarms *)

Section DevRequests.
Import DevAnc350.
Context {W : Type} `{!Externals W}.

(** X27. [callbackLoWrite] on a record with a link parameter flushes, then
    writes one request, and makes no other transmission.  The request is a
    set telegram with the words 20, [UC_SET], the number converted from the
    parameter as hexadecimal (0 when none is), the link address, the
    identifier of the [mid] block and the value of the record. *)
Theorem callbackLoWrite_request (pdevPvt : devPvt) (plo : longoutRecord)
    (mid : Z) (w : world W) (param : string) :
  userParam pdevPvt = Some param →
  - 2 ^ 31 ≤ addr pdevPvt < 2 ^ 31 → - 2 ^ 31 ≤ lo_val plo < 2 ^ 31 →
  - 2 ^ 31 ≤ default 0 (sscanf_x param) < 2 ^ 31 →
  let x := callbackLoWrite pdevPvt plo mid w in
  ∃ (msg : list byte) (reads : list io_event),
    trace x.2 = trace w ++ [EvFlush (pasynUser pdevPvt);
                            EvWrite (pasynUser pdevPvt) msg] ++ reads
    ∧ sent_requests reads = []
    ∧ words msg = [20; UcProtocol.UC_SET; default 0 (sscanf_x param);
                   addr pdevPvt; localMid x.1.2; lo_val plo].
Proof.
  intros Hparam Haddr Hval Hcmd x. subst x.
  unfold callbackLoWrite, bind.
  pose proof (alloca_spec MAX_STRING_SIZE w) as [Ht1 _].
  destruct (alloca MAX_STRING_SIZE w) as [raw0 w1].
  pose proof (alloca_spec UcProtocol.sizeof_UcAckTelegram w1) as [Ht2 Hlen].
  destruct (alloca UcProtocol.sizeof_UcAckTelegram w1) as [tel0 w2].
  pose proof (lock_spec midMutexId w2) as Ht4.
  destruct (lock midMutexId w2) as [lk w4].
  cbn [fst snd] in *.
  pose proof (mid_increment_Int32 lk mid) as Hlm.
  destruct (mid_increment lk mid) as [lm mid'] eqn:Hmid. cbn [fst] in Hlm.
  rewrite Hparam.
  pose proof (flushIt_spec (pasynUser pdevPvt) w4) as Ht5.
  destruct (flushIt (pasynUser pdevPvt) w4) as [fs w5].
  match goal with |- context [writeIt ?u ?c ?m ?n w5] =>
    pose proof (writeIt_spec u c m n w5) as [Ht6 Hudf];
    pose proof (words_set _ _ : words (take n m) = _) as Hw;
    destruct (writeIt u c m n w5) as [[st c'] w6];
    set (msg := take n m) in * end.
  cbn [fst snd] in *.
  cbn [UcProtocol.length UcProtocol.opcode UcProtocol.address UcProtocol.index
       UcProtocol.correlationNumber] in Hw.
  rewrite Hlm in Hw. rewrite !(Int32_wrap_small _ Haddr) in Hw.
  rewrite !(Int32_wrap_small _ Hval) in Hw. rewrite !(Int32_wrap_small _ Hcmd) in Hw.
  assert (trace w6 = trace w ++ [EvFlush (pasynUser pdevPvt);
                                 EvWrite (pasynUser pdevPvt) msg]) as Htw.
  { rewrite Ht6, Ht5, Ht4, Ht2, Ht1, <- app_assoc. done. }
  destruct (decide (st = asynSuccess)) as [Hst|Hst].
  - pose proof (reply_loop_spec (pasynUser pdevPvt) lm 1 lo_store
                  (Locals st 0 raw0 0 0 0 tel0) (LongoutRecord c' (lo_val plo)) w6
                  eq_refl eq_refl eq_refl eq_refl) as Hloop.
    cbn zeta in Hloop.
    destruct (reply_loop _ _ _ _ _) as [[l r] w7]. cbn [fst snd] in *.
    destruct Hloop as (_ & (k & Hk & Htr) & _);
      [lia|cbn [tel]; rewrite Hlen; unfold UcProtocol.sizeof_UcAckTelegram; lia|].
    cbn [localMid].
    exists msg, (EvRead (pasynUser pdevPvt) 4
                  :: replicate k (EvRead (pasynUser pdevPvt) 24)).
    split; [by rewrite Htr, Htw, <- !app_assoc|].
    split; [cbn; apply sent_requests_reads|exact Hw].
  - unfold ret. cbn [fst snd localMid].
    exists msg, []. split; [by rewrite app_nil_r|]. split; [done|exact Hw].
Qed.

(** X28. [callbackLiRead] on a record with a link parameter flushes, then
    writes one request, and makes no other transmission.  The request is a
    get telegram with the words 16, [UC_GET], the number converted from the
    parameter as hexadecimal, the link address and the identifier of the
    [mid] block. *)
Theorem callbackLiRead_request (pdevPvt : devPvt) (pli : longinRecord)
    (mid : Z) (w : world W) (param : string) (cmd : Z) :
  userParam pdevPvt = Some param → sscanf_x param = Some cmd →
  - 2 ^ 31 ≤ addr pdevPvt < 2 ^ 31 → - 2 ^ 31 ≤ cmd < 2 ^ 31 →
  let x := callbackLiRead pdevPvt pli mid w in
  ∃ (msg : list byte) (reads : list io_event),
    trace x.2 = trace w ++ [EvFlush (pasynUser pdevPvt);
                            EvWrite (pasynUser pdevPvt) msg] ++ reads
    ∧ sent_requests reads = []
    ∧ words msg = [16; UcProtocol.UC_GET; cmd; addr pdevPvt; localMid x.1.2].
Proof.
  intros Hparam Hscan Haddr Hcmd x. subst x.
  unfold callbackLiRead, bind.
  pose proof (alloca_spec MAX_STRING_SIZE w) as [Ht1 _].
  destruct (alloca MAX_STRING_SIZE w) as [raw0 w1].
  pose proof (alloca_spec UcProtocol.sizeof_UcAckTelegram w1) as [Ht2 Hlen].
  destruct (alloca UcProtocol.sizeof_UcAckTelegram w1) as [tel0 w2].
  pose proof (alloca_spec 4 w2) as [Ht3 _].
  destruct (alloca 4 w2) as [cmd0 w3].
  pose proof (lock_spec midMutexId w3) as Ht4.
  destruct (lock midMutexId w3) as [lk w4].
  cbn [fst snd] in *.
  pose proof (mid_increment_Int32 lk mid) as Hlm.
  destruct (mid_increment lk mid) as [lm mid'] eqn:Hmid. cbn [fst] in Hlm.
  rewrite Hparam, Hscan.
  change (default (Int32_of_bytes cmd0) (Some cmd)) with cmd.
  pose proof (flushIt_spec (pasynUser pdevPvt) w4) as Ht5.
  destruct (flushIt (pasynUser pdevPvt) w4) as [fs w5].
  match goal with |- context [writeIt ?u ?c ?m ?n w5] =>
    pose proof (writeIt_spec u c m n w5) as [Ht6 Hudf];
    pose proof (words_get _ : words (take n m) = _) as Hw;
    destruct (writeIt u c m n w5) as [[st c'] w6];
    set (msg := take n m) in * end.
  cbn [fst snd] in *.
  cbn [UcProtocol.length UcProtocol.opcode UcProtocol.address UcProtocol.index
       UcProtocol.correlationNumber] in Hw.
  rewrite Hlm in Hw. rewrite !(Int32_wrap_small _ Haddr) in Hw.
  rewrite !(Int32_wrap_small _ Hcmd) in Hw.
  assert (trace w6 = trace w ++ [EvFlush (pasynUser pdevPvt);
                                 EvWrite (pasynUser pdevPvt) msg]) as Htw.
  { rewrite Ht6, Ht5, Ht4, Ht3, Ht2, Ht1, <- app_assoc. done. }
  destruct (decide (st = asynSuccess)) as [Hst|Hst].
  - pose proof (reply_loop_spec (pasynUser pdevPvt) lm 3 li_store
                  (Locals st 0 raw0 0 0 0 tel0) (LonginRecord c' (li_val pli)) w6
                  eq_refl eq_refl eq_refl eq_refl) as Hloop.
    cbn zeta in Hloop.
    destruct (reply_loop _ _ _ _ _) as [[l r] w7]. cbn [fst snd] in *.
    destruct Hloop as (_ & (k & Hk & Htr) & _);
      [lia|cbn [tel]; rewrite Hlen; unfold UcProtocol.sizeof_UcAckTelegram; lia|].
    cbn [localMid].
    exists msg, (EvRead (pasynUser pdevPvt) 4
                  :: replicate k (EvRead (pasynUser pdevPvt) 24)).
    split; [by rewrite Htr, Htw, <- !app_assoc|].
    split; [cbn; apply sent_requests_reads|exact Hw].
  - unfold ret. cbn [fst snd localMid].
    exists msg, []. split; [by rewrite app_nil_r|]. split; [done|exact Hw].
Qed.

(** X29. Without a link parameter both callbacks raise the alarm
    READ / INVALID on the record, unless its pending severity is INVALID
    already: the longout callback too, which then makes no transport call
    and leaves the value of the record alone. *)
Theorem null_param_read_alarm (pdevPvt : devPvt) (pli : longinRecord)
    (plo : longoutRecord) (mid : Z) (w : world W) :
  userParam pdevPvt = None →
  let ri := li_common (rec (callbackLiRead pdevPvt pli mid w).1.2) in
  let ro := lo_common (rec (callbackLoWrite pdevPvt plo mid w).1.2) in
  (nsev (li_common pli) < INVALID_ALARM →
   nsta ri = READ_ALARM ∧ nsev ri = INVALID_ALARM)
  ∧ (INVALID_ALARM ≤ nsev (li_common pli) → ri = li_common pli)
  ∧ (nsev (lo_common plo) < INVALID_ALARM →
     nsta ro = READ_ALARM ∧ nsev ro = INVALID_ALARM)
  ∧ (INVALID_ALARM ≤ nsev (lo_common plo) → ro = lo_common plo)
  ∧ lo_val (rec (callbackLoWrite pdevPvt plo mid w).1.2) = lo_val plo
  ∧ trace (callbackLoWrite pdevPvt plo mid w).2 = trace w.
Proof.
  intros Hparam ri ro. subst ri ro.
  unfold callbackLiRead, callbackLoWrite, bind. rewrite Hparam.
  pose proof (alloca_spec MAX_STRING_SIZE w) as [Ht1 _].
  destruct (alloca MAX_STRING_SIZE w) as [raw0 w1].
  pose proof (alloca_spec UcProtocol.sizeof_UcAckTelegram w1) as [Ht2 _].
  destruct (alloca UcProtocol.sizeof_UcAckTelegram w1) as [tel0 w2].
  pose proof (lock_spec midMutexId w2) as Ht4.
  destruct (alloca 4 w2) as [cmd0 w3].
  destruct (lock midMutexId w3) as [lk w4].
  destruct (lock midMutexId w2) as [lk' w4'].
  cbn [fst snd] in *.
  destruct (mid_increment lk mid) as [lm mid'].
  destruct (mid_increment lk' mid) as [lm' mid''].
  unfold ret, recGblSetSevr. cbn [fst snd rec li_common lo_common lo_val].
  repeat split; try (case_decide; cbn [nsta nsev]; done || lia).
  by rewrite Ht4, Ht2, Ht1.
Qed.

(** X30. When the transport does not take the whole request (the write
    fails or is short), [callbackLiRead] reads no reply, leaves the value
    and the undefined flag of the record as they were, and raises a WRITE
    alarm of at least MINOR severity on a record without pending alarm. *)
Theorem write_failure_reads_nothing (pdevPvt : devPvt) (pli : longinRecord)
    (mid : Z) (w : world W) (param : string) :
  userParam pdevPvt = Some param →
  (∀ (u : asynUser) (m : list byte) (e : W),
     (octet_write u m e).1 ≠ (asynSuccess, List.length m)) →
  let x := callbackLiRead pdevPvt pli mid w in
  read_requests (trace x.2) = read_requests (trace w)
  ∧ li_val (rec x.1.2) = li_val pli
  ∧ udf (li_common (rec x.1.2)) = udf (li_common pli)
  ∧ (nsev (li_common pli) < MINOR_ALARM →
     nsta (li_common (rec x.1.2)) = WRITE_ALARM
     ∧ MINOR_ALARM ≤ nsev (li_common (rec x.1.2))).
Proof.
  intros Hparam Hfail x. subst x.
  unfold callbackLiRead, bind.
  pose proof (alloca_spec MAX_STRING_SIZE w) as [Ht1 _].
  destruct (alloca MAX_STRING_SIZE w) as [raw0 w1].
  pose proof (alloca_spec UcProtocol.sizeof_UcAckTelegram w1) as [Ht2 Hlen].
  destruct (alloca UcProtocol.sizeof_UcAckTelegram w1) as [tel0 w2].
  pose proof (alloca_spec 4 w2) as [Ht3 _].
  destruct (alloca 4 w2) as [cmd0 w3].
  pose proof (lock_spec midMutexId w3) as Ht4.
  destruct (lock midMutexId w3) as [lk w4].
  cbn [fst snd] in *.
  destruct (mid_increment lk mid) as [lm mid'] eqn:Hmid.
  rewrite Hparam.
  pose proof (flushIt_spec (pasynUser pdevPvt) w4) as Ht5.
  destruct (flushIt (pasynUser pdevPvt) w4) as [fs w5].
  unfold writeIt, call_write, bind.
  match goal with |- context [octet_write ?u ?m (ext w5)] =>
    pose proof (Hfail u m (ext w5)) as Hf;
    assert (List.length m = UcProtocol.sizeof_UcGetTelegram) as Hm
      by reflexivity;
    destruct (octet_write u m (ext w5)) as [[st n] e] end.
  cbn [fst snd] in *. rewrite Hm in Hf.
  destruct (decide (st ≠ asynSuccess)) as [Hst|Hst].
  - unfold ret. cbn [fst snd]. rewrite decide_False by done.
    cbn [fst snd rec li_val li_common trace].
    rewrite read_requests_app, Ht5, read_requests_app, Ht4, Ht3, Ht2, Ht1.
    cbn. rewrite !app_nil_r.
    unfold recGblSetSevr, INVALID_ALARM, MINOR_ALARM, WRITE_ALARM.
    repeat split; try (case_decide; cbn [nsta nsev udf]; done || lia).
    all: intros Hs; rewrite decide_True by lia; cbn; lia.
  - assert (st = asynSuccess) as ->
      by (destruct (decide (st = asynSuccess)); [done|exfalso; by apply Hst]).
    rewrite decide_True by (intros Heq; apply Hf; by rewrite <- Heq).
    unfold ret. cbn [fst snd]. rewrite decide_False by done.
    cbn [fst snd rec li_val li_common trace].
    rewrite read_requests_app, Ht5, read_requests_app, Ht4, Ht3, Ht2, Ht1.
    cbn. rewrite !app_nil_r.
    unfold recGblSetSevr, INVALID_ALARM, MINOR_ALARM, WRITE_ALARM.
    repeat split; try (case_decide; cbn [nsta nsev udf]; done || lia).
    all: intros Hs; rewrite decide_True by lia; cbn; lia.
Qed.
End DevRequests.

(** ** The further properties on concrete runs *)

Lemma regs0_range (a : Z) : - 2 ^ 31 ≤ regs0 a < 2 ^ 31.
Proof. unfold regs0. repeat case_decide; lia. Qed.

Lemma bench_answers (lk : epicsMutexLockStatus) :
  answers (W := Sim.controller lk asynSuccess regs0) regs0.
Proof. intros u msg w. eexists _, _. reflexivity. Qed.

Lemma bench_locks (wr : asynStatus) :
  locks_granted (W := Sim.controller epicsMutexLockOK wr regs0).
Proof. intros m w. reflexivity. Qed.

(** X1 on the first status read of a fresh axis. *)
Lemma motorAxisGet_request_witness :
  let r := motorAxisGet ax0 ID_ANC_STATUS 0 0 (st0 []) in
  ∃ msg : list byte,
    trace (io r.2) = [EvWriteRead 5 msg 28]
    ∧ List.length msg = 20%nat
    ∧ words msg = [16; 1; 0x0404; 0; 1]
    ∧ ∃ lk, mid_increment lk 0 = (1, 1).
Proof.
  exact (motorAxisGet_request ax0 ID_ANC_STATUS 0 0 (st0 [])
           ltac:(by vm_compute)
           ltac:(by vm_compute)).
Defined.

(** X2 on a single step forward. *)
Lemma motorAxisSet_request_witness :
  let r := motorAxisSet ax0 ID_ANC_SGL_FWD 1 0 (st0 []) in
  (r.1 = MOTOR_AXIS_OK ∨ r.1 = MOTOR_AXIS_ERROR)
  ∧ comms r.2 = 0.
Proof.
  intros r.
  destruct (motorAxisSet_request ax0 ID_ANC_SGL_FWD 1 0 (st0 [])
              ltac:(by vm_compute)
              ltac:(by vm_compute)
              ltac:(by vm_compute)) as (H1 & H2 & _).
  split; [exact H1|exact H2].
Defined.

(** X3 on the counter of the controller of [bench0]. *)
Lemma motorAxisGet_reads_object_witness :
  let r := motorAxisGet ax0 ID_ANC_COUNTER 0 0 bench0 in
  ret_status r.1 = MOTOR_AXIS_OK ∧ value_out r.1 = 1500
  ∧ comms r.2 = 0 ∧ comm_error (axis_out r.1) = false.
Proof.
  exact (motorAxisGet_reads_object regs0 ax0 ID_ANC_COUNTER 0 0 bench0
           (bench_answers _) ltac:(by vm_compute)
           (regs0_range _)).
Defined.

(** X4 on the first two of three identifiers. *)
Lemma mid_reuse_distance_witness :
  let ids := (mid_calls (replicate 3 epicsMutexLockOK) 0).1 in
  ids !! 0%nat ≠ ids !! 1%nat.
Proof.
  intros ids.
  exact (proj1 (mid_reuse_distance 3 0 1 0 ltac:(lia) ltac:(lia) ltac:(lia))
           ltac:(lia)).
Defined.

(** X6 on the controller of [bench0]. *)
Lemma poll_answered_witness :
  let r := drvAnc350GetAxisStatus ax0 0 bench0 in
  params r.1.1 !! motorAxisPosition = Some 1000 ∧ amplitude r.1.1 = 30000.
Proof.
  intros r.
  assert (r.1.2 = Some (Poll 0 0 0 0 1500 (Some 1000) 500 1 0)) as Hp
    by (vm_compute; reflexivity).
  destruct (poll_answered regs0 ax0 0 bench0 _ (bench_answers _) regs0_range Hp)
    as (_ & Hpos & _ & _ & _ & Hamp & _).
  split; [exact Hpos|exact Hamp].
Defined.

(** X7 on an axis that is searching its reference. *)
Lemma poll_completes_homing_witness :
  let r := drvAnc350GetAxisStatus ax_homing 0 bench0 in
  reference_search r.1.1 = 0 ∧ params r.1.1 !! motorAxisHomed = Some 1.
Proof.
  intros r.
  assert (r.1.2 = Some (Poll 0 0 0 0 1500 (Some 1000) 500 1 0)) as Hp
    by (vm_compute; reflexivity).
  destruct (poll_completes_homing regs0 ax_homing 0 bench0 _ (bench_answers _)
              (regs0_range _) eq_refl eq_refl Hp) as (H1 & H2 & _).
  split; [exact H1|exact H2].
Defined.

(** X8 on a fresh axis and a controller whose reference is valid. *)
Lemma poll_never_raises_homed_witness :
  let r := drvAnc350GetAxisStatus ax0 0 bench0 in
  reference_search r.1.1 = 0.
Proof.
  intros r.
  assert (r.1.2 = Some (Poll 0 0 0 0 1500 (Some 1000) 500 1 0)) as Hp
    by (vm_compute; reflexivity).
  exact (proj1 (poll_never_raises_homed ax0 0 bench0 _ Hp
                  ltac:(by vm_compute))).
Defined.

(** X9 on a status word with the hump bit, every later read timing out. *)
Lemma hump_without_position_is_low_limit_witness :
  let r := drvAnc350GetAxisStatus ax0 0 (st0 [(asynSuccess, Sim.ack 1 2)]) in
  params r.1.1 !! motorAxisHighHardLimit = Some 0
  ∧ params r.1.1 !! motorAxisLowHardLimit = Some 1.
Proof.
  intros r.
  assert (r.1.2 = Some (Poll 0 (-1) (-1) (-1) 2 None 0 0 1)) as Hp
    by (vm_compute; reflexivity).
  exact (hump_without_position_is_low_limit ax0 0 _ _ Hp eq_refl
           ltac:(by vm_compute) ltac:(by vm_compute)).
Defined.

(** X10 on a poll that reads reference position 100 and then no counter. *)
Lemma reference_cached_with_position_witness :
  let r := drvAnc350GetAxisStatus ax0 0
             (st0 [(asynSuccess, Sim.ack 1 0); (asynSuccess, Sim.ack 2 30000);
                   (asynSuccess, Sim.ack 3 100)]) in
  reference_used <$> r.1.2 = Some 100 ∧ reference_position r.1.1 = 0.
Proof.
  intros r.
  assert (r.1.2 = Some (Poll 0 0 0 (-1) 100 None 100 0 0)) as Hp
    by (vm_compute; reflexivity).
  split; [by rewrite Hp|].
  exact (proj1 (reference_cached_with_position ax0 0 _ _ Hp)
           ltac:(by vm_compute)).
Defined.

(** X12 on an absolute move of a fresh axis to 250. *)
Lemma motorAxisMove_requests_witness :
  let r := motorAxisMove (Some ax0) 250 0 bench0 in
  r.1.2 = Some (set_param (set_param ax0 motorAxisDirection 1) motorAxisDone 0)
  ∧ comms r.2 = 0.
Proof.
  intros r.
  destruct (motorAxisMove_requests ax0 250 0 bench0 (bench_locks _)
              ltac:(by vm_compute)) as (_ & H1 & H2).
  split; [exact H1|exact H2].
Defined.

(** X13 on a move while the axis mutex is held by someone else. *)
Lemma motorAxisMove_lock_denied_witness :
  let r := motorAxisMove (Some ax0) 250 0 bench_denied in
  r.1.2 = Some ax0 ∧ r.1.1 = MOTOR_AXIS_OK.
Proof.
  intros r.
  assert (∀ w : Sim.controller epicsMutexLockTimeout asynSuccess regs0,
            (epicsMutexLock (axisMutex (pDrv_card ax0) (axis ax0)) w).1
            ≠ epicsMutexLockOK) as Hd by (intros w; discriminate).
  destruct (motorAxisMove_lock_denied ax0 250 0 bench_denied Hd)
    as (_ & H1 & H2).
  split; [exact H1|]. etransitivity; [exact H2|]. by vm_compute.
Defined.

(** X14 on a poll that publishes position 1000 (counter 1500). *)
Lemma move_to_published_position_witness :
  let r := drvAnc350GetAxisStatus ax0 0 bench0 in
  let m := motorAxisMove (Some r.1.1) 1000 0 r.2 in
  ∃ pre msg post,
    sent_requests (trace (io m.2))
    = sent_requests (trace (io r.2)) ++ pre ++ msg :: post
    ∧ request_kind msg = (UcProtocol.UC_SET, ID_ANC_TARGET)
    ∧ request_data0 msg = 1500.
Proof.
  intros r m.
  assert (r.1.2 = Some (Poll 0 0 0 0 1500 (Some 1000) 500 1 0)) as Hp
    by (vm_compute; reflexivity).
  exact (proj2 (move_to_published_position ax0 0 bench0 r.2 _ 1000 0
                  (bench_locks _) Hp eq_refl)).
Defined.

(** X16 on a jog with velocity 0. *)
Lemma motorAxisVelocityMove_spec_witness :
  let r := motorAxisVelocityMove (Some ax0) 0 bench0 in
  r.1.2 = Some (set_param (set_param ax0 motorAxisDirection 0) motorAxisDone 0).
Proof.
  intros r.
  destruct (motorAxisVelocityMove_spec ax0 0 bench0 (bench_locks _))
    as (_ & Hb).
  destruct (Hb ltac:(by vm_compute)) as (_ & H). exact H.
Defined.

(** X19 on axis 0 of card 1 of two controllers. *)
Lemma motorAxisOpen_spec_witness :
  ∃ d a, two_cards !! 1%nat = Some d ∧ card d = 1
         ∧ axis_at two_cards (1%nat, 0%nat) = Some a.
Proof.
  destruct (motorAxisOpen_spec 1 0 two_cards _ (1%nat, 0%nat) eq_refl)
    as (d & a & H1 & H2 & _ & _ & H3 & _).
  exists d, a. split; [exact H1|]. split; [exact H2|exact H3].
Defined.

(** X21 on the first pass of the poller over a fresh axis. *)
Lemma task_event_or_motion_polls_witness :
  (drvAnc350Task_cycle epicsMutexLockOK epicsEventWaitTimeout (task_start 1)
     [ax0] bench0).1.2 !! 0%nat = Some true.
Proof.
  exact (task_event_or_motion_polls epicsMutexLockOK epicsEventWaitTimeout
           (task_start 1) [ax0] bench0 0 ax0 eq_refl eq_refl
           (or_intror eq_refl)).
Defined.

(** X22 on the second and third of three passes over an axis at rest. *)
Lemma task_no_axis_starved_witness :
  let r := drvAnc350Task_cycles
             (replicate 3 (epicsMutexLockOK, epicsEventWaitTimeout))
             (task_start 1) [ax0] bench0 in
  r.1.2 !! 1%nat = Some [false] ∧ (r.1.2 !! 2%nat) ≫= (.!! 0%nat) = Some true.
Proof.
  intros r.
  assert (r.1.2 !! 1%nat = Some [false]) as H1 by (vm_compute; reflexivity).
  assert (r.1.2 !! 2%nat = Some [true]) as H2 by (vm_compute; reflexivity).
  split; [exact H1|]. rewrite H2.
  exact (task_no_axis_starved
           (replicate 3 (epicsMutexLockOK, epicsEventWaitTimeout)) [ax0] bench0
           1 0 [false] [true] ltac:(by repeat constructor) H1 H2 eq_refl).
Defined.

(** X23 on the first two passes over an axis at rest. *)
Lemma task_idle_axis_half_rate_witness :
  let r := drvAnc350Task_cycles
             (replicate 2 (epicsMutexLockOK, epicsEventWaitTimeout))
             (task_start 1) [ax0] bench0 in
  r.1.2 !! 0%nat = Some [true] ∧ (r.1.2 !! 1%nat) ≫= (.!! 0%nat) = Some false.
Proof.
  intros r.
  assert (r.1.2 !! 0%nat = Some [true]) as H1 by (vm_compute; reflexivity).
  assert (r.1.2 !! 1%nat = Some [false]) as H2 by (vm_compute; reflexivity).
  split; [exact H1|]. rewrite H2.
  exact (task_idle_axis_half_rate regs0
           (replicate 2 (epicsMutexLockOK, epicsEventWaitTimeout)) [ax0] bench0
           0 0 [true] [false] (epicsMutexLockOK, epicsEventWaitTimeout)
           (bench_answers _) (bench_locks _) (regs0_range _) eq_refl
           ltac:(by repeat constructor) H1 H2 eq_refl ltac:(discriminate)
           eq_refl).
Defined.

(** X24 on the link L0 S1 404. *)
Lemma parseLink_wellformed_witness :
  DevAnc350.parseLink (λ s, Sim.dec_digits s None) DevAnc350.INST_IO link_text
  = Some (asynSuccess, Some "L0"%string, 1, Some "404"%string).
Proof.
  exact (parseLink_wellformed (λ s, Sim.dec_digits s None) "L0" "" "1" "404"
           blank blank eq_refl eq_refl eq_refl eq_refl eq_refl).
Defined.

(** X26 on a link whose address is not introduced by the letter S. *)
Lemma parseLink_without_S_witness :
  DevAnc350.parseLink (λ s, Sim.dec_digits s None) DevAnc350.INST_IO
    "L0 1 404" = None.
Proof.
  exact (parseLink_without_S (λ s, Sim.dec_digits s None) "L0" "1 404" blank
           eq_refl eq_refl eq_refl).
Defined.

(** X27 on a longout record with value 5000 and parameter 404. *)
Lemma callbackLoWrite_request_witness :
  let x := DevAnc350.callbackLoWrite link0 lo0 0 (Sim.fresh []) in
  ∃ (msg : list byte) (reads : list io_event),
    trace x.2 = [EvFlush 7; EvWrite 7 msg] ++ reads
    ∧ sent_requests reads = []
    ∧ words msg = [20; 0; 0x0404; 1; 1; 5000].
Proof.
  exact (callbackLoWrite_request link0 lo0 0 (Sim.fresh []) "404" eq_refl
           ltac:(by vm_compute) ltac:(by vm_compute) ltac:(by vm_compute)).
Defined.

(** X28 on a longin record with parameter 404. *)
Lemma callbackLiRead_request_witness :
  let x := DevAnc350.callbackLiRead link0 li0 0 (Sim.fresh []) in
  ∃ (msg : list byte) (reads : list io_event),
    trace x.2 = [EvFlush 7; EvWrite 7 msg] ++ reads
    ∧ sent_requests reads = []
    ∧ words msg = [16; 1; 0x0404; 1; 1].
Proof.
  exact (callbackLiRead_request link0 li0 0 (Sim.fresh []) "404" 0x0404
           eq_refl eq_refl ltac:(by vm_compute) ltac:(by vm_compute)).
Defined.

(** X29 on records without alarm and a link without parameter. *)
Lemma null_param_read_alarm_witness :
  let ro := DevAnc350.lo_common
              (DevAnc350.rec
                 (DevAnc350.callbackLoWrite (DevAnc350.DevPvt None 1 7) lo0 0
                    (Sim.fresh [])).1.2) in
  DevAnc350.nsta ro = DevAnc350.READ_ALARM
  ∧ DevAnc350.nsev ro = DevAnc350.INVALID_ALARM.
Proof.
  intros ro.
  destruct (null_param_read_alarm (DevAnc350.DevPvt None 1 7) li0 lo0 0
              (Sim.fresh []) eq_refl) as (_ & _ & H & _).
  exact (H ltac:(by vm_compute)).
Defined.

(** X30 on a transport that refuses every write. *)
Lemma write_failure_reads_nothing_witness :
  let x := DevAnc350.callbackLiRead link0 li0 0 bench_mute in
  read_requests (trace x.2) = []
  ∧ DevAnc350.li_val (DevAnc350.rec x.1.2) = 99
  ∧ DevAnc350.nsta (DevAnc350.li_common (DevAnc350.rec x.1.2))
    = DevAnc350.WRITE_ALARM.
Proof.
  intros x.
  assert (∀ (u : asynUser) (m : list byte)
            (e : Sim.controller epicsMutexLockOK asynError regs0),
            (octet_write u m e).1 ≠ (asynSuccess, List.length m)) as Hf
    by (intros u m e; discriminate).
  destruct (write_failure_reads_nothing link0 li0 0 bench_mute "404" eq_refl Hf)
    as (H1 & H2 & _ & H3).
  split; [exact H1|]. split; [exact H2|].
  exact (proj1 (H3 ltac:(by vm_compute))).
Defined.
